(** * convert_to_wordpress.py: asset location, relocation and rewriting

    A shallow embedding of [src/convert_to_wordpress.py] and the properties
    of its asset-path rewriter, asset locator, asset relocator and document
    decomposition.

    Modelling conventions.
    - A Python [str] is a list of Unicode code points ([list N]); literals
      are written [py "..."].
    - A [dict] is an insertion-ordered association list: the rewriter's
      base-name fallback depends on the iteration order of [mapping.items()].
    - [pathlib] is modelled with its POSIX flavour: [/] is the only
      separator, a backslash is an ordinary character of a file name.
    - The file system is a finite map from resolved absolute paths to
      entries; there are no symbolic links, permissions or metadata.
    - BeautifulSoup's parser, the UTF-8 codec, the external Node build and
      the iteration orders of [set] and [glob] are collaborators taken as
      section variables. *)

From Stdlib Require Import NArith Ascii String DecimalString.
From stdpp Require Import gmap list.

Open Scope N_scope.
Open Scope list_scope.

(** ** Python strings *)

Module Py.

Abbreviation str := (list N).

Definition py (s : string) : str :=
  List.map N_of_ascii (list_ascii_of_string s).
Arguments py : simpl never.

(** The double quote (the development never writes it inside a literal),
    the single quote, slash, backslash and dot. *)
Definition dq : N := 34.
Definition sq : N := 39.
Definition slash : N := 47.
Definition backslash : N := 92.
Definition dot : N := 46.

Definition str_eqb (a b : str) : bool := bool_decide (a = b).

(** [s.startswith(p)] *)
Fixpoint startswith (s p : str) {struct p} : bool :=
  match p, s with
  | [], _ => true
  | c :: p', d :: s' => (c =? d) && startswith s' p'
  | _ :: _, [] => false
  end.

(** The code points for which [str.isspace] holds, which are the ones
    [str.strip()] removes. *)
Definition isspace (c : N) : bool :=
  ((9 <=? c) && (c <=? 13)) || ((28 <=? c) && (c <=? 32))
  || (c =? 133) || (c =? 160) || (c =? 5760)
  || ((8192 <=? c) && (c <=? 8202))
  || (c =? 8232) || (c =? 8233) || (c =? 8239) || (c =? 8287)
  || (c =? 12288).

Fixpoint lstrip_by (p : N -> bool) (s : str) : str :=
  match s with
  | c :: s' => if p c then lstrip_by p s' else s
  | [] => []
  end.

Definition rstrip_by (p : N -> bool) (s : str) : str :=
  rev (lstrip_by p (rev s)).

(** [s.strip()] *)
Definition strip (s : str) : str := rstrip_by isspace (lstrip_by isspace s).

Definition mem (c : N) (chars : str) : bool := existsb (N.eqb c) chars.

(** [s.lstrip(chars)]: drops every leading character that belongs to the
    set [chars]. *)
Definition lstrip (chars s : str) : str := lstrip_by (fun c => mem c chars) s.

(** [s.replace(old, new)] for a non-empty [old]: the occurrences are
    replaced from left to right and do not overlap. [skip] counts the
    characters of an occurrence that are still to be passed over. *)
Fixpoint replace_from (old new : str) (skip : nat) (s : str) : str :=
  match s with
  | [] => []
  | c :: s' =>
      match skip with
      | S k => replace_from old new k s'
      | O => if startswith s old
             then new ++ replace_from old new (Nat.pred (length old)) s'
             else c :: replace_from old new 0 s'
      end
  end.

Definition replace (s old new : str) : str := replace_from old new 0 s.

(** [sep.join(parts)] *)
Fixpoint join (sep : str) (parts : list str) : str :=
  match parts with
  | [] => []
  | [p] => p
  | p :: ps => p ++ sep ++ join sep ps
  end.

(** [s.split('/')] *)
Fixpoint split_slash (s : str) : list str :=
  match s with
  | [] => [[]]
  | c :: s' =>
      if c =? slash then [] :: split_slash s'
      else match split_slash s' with
           | w :: ws => (c :: w) :: ws
           | [] => [[c]]
           end
  end.

(** [s.lower()] on the letters A to Z. No other code point lowercases to a
    string of ASCII letters that occur in [ASSET_EXTS], so the membership
    test of [collect_local_assets] is not affected. *)
Definition lower_char (c : N) : N :=
  if (65 <=? c) && (c <=? 90) then c + 32 else c.
Definition lower (s : str) : str := List.map lower_char s.

(** [str(n)] for a natural number. *)
Definition str_of_nat (n : nat) : str :=
  py (NilZero.string_of_uint (Nat.to_uint n)).


End Py.
Import Py.

(** ** Pure paths (POSIX flavour) *)

Module PurePath.

(** The components [pathlib] keeps when it parses a string: empty
    components and [.] are dropped, [..] is kept. *)
Definition is_part (w : str) : bool :=
  negb (str_eqb w []) && negb (str_eqb w [dot]).

Definition parts (s : str) : list str := List.filter is_part (split_slash s).

(** [Path(s).name]: the last component, or the empty string. *)
Definition name (s : str) : str := List.last (parts s) [].

(** [name.rfind('.')] as the number of characters before the last dot. *)
Fixpoint rfind_dot (s : str) : option nat :=
  match s with
  | [] => None
  | c :: s' =>
      match rfind_dot s' with
      | Some i => Some (S i)
      | None => if c =? dot then Some O else None
      end
  end.

(** The suffix of a file name: what follows its last dot, the dot
    included, when that dot is neither first nor last. *)
Definition name_suffix (n : str) : str :=
  match rfind_dot n with
  | Some i => if (Nat.ltb 0 i) && (Nat.ltb i (length n - 1)) then drop i n else []
  | None => []
  end.

(** [Path(s).suffix] *)
Definition suffix (s : str) : str := name_suffix (name s).

End PurePath.

(** ** The rewriter *)

(** [ASSET_EXTS] *)
Definition ASSET_EXTS : list str :=
  [py ".css"; py ".js"; py ".png"; py ".jpg"; py ".jpeg"; py ".gif";
   py ".svg"; py ".webp"; py ".ico"; py ".woff"; py ".woff2"; py ".ttf";
   py ".otf"].

(** [is_remote] *)
Definition is_remote (url : str) : bool :=
  match url with
  | [] => false
  | _ =>
      let url := strip url in
      startswith url (py "http://") || startswith url (py "https://")
      || startswith url (py "//") || startswith url (py "mailto:")
      || startswith url (py "tel:") || startswith url (py "#")
  end.

(** A [Dict[str, str]] in insertion order. *)
Abbreviation dict := (list (str * str)).

(** [mapping[key]], [None] when [key not in mapping]. *)
Fixpoint dict_get (mapping : dict) (key : str) : option str :=
  match mapping with
  | [] => None
  | (k, v) :: rest => if str_eqb k key then Some v else dict_get rest key
  end.

(** [mapping[key] = value]: an existing key keeps its position. *)
Fixpoint dict_set (mapping : dict) (key value : str) : dict :=
  match mapping with
  | [] => [(key, value)]
  | (k, v) :: rest =>
      if str_eqb k key then (k, value) :: rest
      else (k, v) :: dict_set rest key value
  end.

(** The [for k, v in mapping.items()] loop of [repl]: the value of the first
    entry whose key has the base name [basename]. *)
Fixpoint find_by_basename (mapping : dict) (basename : str) : option str :=
  match mapping with
  | [] => None
  | (k, v) :: rest =>
      if str_eqb (PurePath.name k) basename then Some v
      else find_by_basename rest basename
  end.

Definition php_prefix : str := py "<?php echo get_template_directory_uri(); ?>".

(** A match of the pattern of [replace_asset_paths_in_html], compiled with
    [(?i)]: group 1 is [src] or [href], then [=], group 2 is a quote of
    either kind, group 3 is a non-empty run of characters that are not
    quotes, group 4 is again a quote of either kind. *)
Record rematch := ReMatch {
  g_attr : str; g_quote : N; g_val : str; g_close : N
}.

#[global] Instance rematch_eq_dec : EqDecision rematch.
Proof. solve_decision. Defined.

(** [match.group(0)] *)
Definition group0 (m : rematch) : str :=
  g_attr m ++ py "=" ++ [g_quote m] ++ g_val m ++ [g_close m].

(** The key the rewriter looks up: [val.lstrip('./').replace('\\', '/')]. *)
Definition rewrite_key (val : str) : str :=
  replace (lstrip (py "./") val) [backslash] (py "/").

(** The inner function [repl] of [replace_asset_paths_in_html]. *)
Definition repl (mapping : dict) (m : rematch) : str :=
  let attr := g_attr m in
  let quote := g_quote m in
  let val := g_val m in
  let key := rewrite_key val in
  let found :=
    match dict_get mapping key with
    | Some new => Some new
    | None =>
        let basename := PurePath.name key in
        match find_by_basename mapping basename with
        | Some ((_ :: _) as found) => Some found
        | _ => None
        end
    end in
  match found with
  | None => group0 m
  | Some new =>
      let new := lstrip (py "/") new in
      let php := php_prefix ++ py "/assets/" ++ new in
      attr ++ py "=" ++ [quote] ++ php ++ [quote]
  end.

(** A literal of the pattern under [(?i)]: the letter, its capital and,
    for [s] and [k], the code points U+017F and U+212A that the regex
    engine treats as case variants. *)
Definition ilit (p c : N) : bool :=
  (c =? p) || (c =? p - 32)
  || ((p =? 115) && (c =? 383)) || ((p =? 107) && (c =? 8490)).

Definition is_quote (c : N) : bool := (c =? dq) || (c =? sq).

(** Group 1, [(src|href)], at the start of [s], with what follows it. *)
Definition match_attr (s : str) : option (str * str) :=
  match s with
  | a :: b :: c :: r =>
      if ilit 115 a && ilit 114 b && ilit 99 c then Some ([a; b; c], r)
      else match r with
           | d :: r' =>
               if ilit 104 a && ilit 114 b && ilit 101 c && ilit 102 d
               then Some ([a; b; c; d], r')
               else None
           | [] => None
           end
  | _ => None
  end.

(** The longest run of characters that are not quotes (group 3 is greedy),
    and the rest. *)
Fixpoint span_value (s : str) : str * str :=
  match s with
  | c :: s' =>
      if is_quote c then ([], s)
      else let '(v, r) := span_value s' in (c :: v, r)
  | [] => ([], [])
  end.

(** The pattern matched at the start of [s]: the groups and the rest of
    the string after the match. *)
Definition match_at (s : str) : option (rematch * str) :=
  match match_attr s with
  | Some (attr, e :: q :: r) =>
      if (e =? 61) && is_quote q then
        match span_value r with
        | ((_ :: _) as val, q2 :: rest) => Some (ReMatch attr q val q2, rest)
        | _ => None
        end
      else None
  | _ => None
  end.

(** [pattern.finditer(html)] together with the characters between the
    matches: the matches are found from left to right and do not overlap; a
    character at which no match starts is passed over. *)
Fixpoint scan_fuel (fuel : nat) (s : str) : list (rematch + N) :=
  match fuel with
  | O => []
  | S fuel =>
      match match_at s with
      | Some (m, rest) => inl m :: scan_fuel fuel rest
      | None =>
          match s with
          | [] => []
          | c :: s' => inr c :: scan_fuel fuel s'
          end
      end
  end.

Definition scan (s : str) : list (rematch + N) := scan_fuel (length s) s.

(** What [pattern.sub(repl, html)] puts in the place of a match, and of a
    character outside the matches. *)
Definition render (mapping : dict) (t : rematch + N) : str :=
  match t with
  | inl m => repl mapping m
  | inr c => [c]
  end.

(** [replace_asset_paths_in_html] *)
Definition replace_asset_paths_in_html (html : str) (mapping : dict) : str :=
  List.flat_map (render mapping) (scan html).

(** The loop of [generate_theme] that normalizes the values of the mapping
    returned by [copy_assets]; [out_name] is [out_dir.name]. *)
Definition normalize_value (out_name v : str) : str :=
  let vv := lstrip (py "/") v in
  let vv := if startswith vv (out_name ++ py "/")
            then drop (length out_name + 1) vv else vv in
  if startswith vv (py "assets/") then drop (length (py "assets/")) vv else vv.

Definition normalize_mapping (out_name : str) (mapping : dict) : dict :=
  fold_left (fun normalized '(k, v) =>
               dict_set normalized k (normalize_value out_name v))
            mapping [].

(** ** Parsed documents *)

(** The kinds of string nodes BeautifulSoup tells apart: [NavigableString]
    itself and its subclasses. *)
Inductive string_kind :=
  | Text | Comment | CData | ProcessingInstruction | Declaration | Doctype.

(** An attribute value is a string, or a list of strings for the
    multi-valued attributes such as [class]. *)
Inductive attr_value :=
  | AttrStr (s : str)
  | AttrList (l : list str).

(** A node of the parsed tree. The [BeautifulSoup] object is itself a tag,
    named [[document]]. *)
Inductive node :=
  | Tag (name : str) (attrs : list (str * attr_value)) (contents : list node)
  | NavigableString (kind : string_kind) (text : str).

Definition contents (n : node) : list node :=
  match n with
  | Tag _ _ cs => cs
  | NavigableString _ _ => []
  end.

(** [getattr(n, 'name', None)] *)
Definition node_name (n : node) : option str :=
  match n with
  | Tag name _ _ => Some name
  | NavigableString _ _ => None
  end.

Definition is_tag (n : node) : bool :=
  match n with
  | Tag _ _ _ => true
  | NavigableString _ _ => false
  end.

(** The descendants of a node in document order. *)
Fixpoint descendants (n : node) : list node :=
  match n with
  | Tag _ _ cs => List.flat_map (fun c => c :: descendants c) cs
  | NavigableString _ _ => []
  end.

(** [tag.find_all()]: every tag below [tag]. *)
Definition find_all (n : node) : list node := List.filter is_tag (descendants n).

Definition named (name : str) (n : node) : bool :=
  match n with
  | Tag name' _ _ => str_eqb name' name
  | NavigableString _ _ => false
  end.

(** [tag.find(name)], which is also [tag.<name>]: the first tag of that
    name below [tag]. *)
Definition find (name : str) (n : node) : option node :=
  List.find (named name) (descendants n).

(** [tag[attr]], [None] when [not tag.has_attr(attr)]. *)
Fixpoint attr_get (attrs : list (str * attr_value)) (attr : str)
    : option attr_value :=
  match attrs with
  | [] => None
  | (k, v) :: rest => if str_eqb k attr then Some v else attr_get rest attr
  end.

Definition tag_attr (n : node) (attr : str) : option attr_value :=
  match n with
  | Tag _ attrs _ => attr_get attrs attr
  | NavigableString _ _ => None
  end.

(** The loop of [generate_theme] that extracts every [Comment] node. *)
Fixpoint remove_comments (n : node) : node :=
  match n with
  | Tag name attrs cs =>
      Tag name attrs
        (List.flat_map (fun c =>
           match c with
           | NavigableString Comment _ => []
           | _ => [remove_comments c]
           end) cs)
  | NavigableString _ _ => n
  end.

(** *** Serialization *)

(** The minimal formatter: [&], [<] and [>] become entities. *)
Definition escape (s : str) : str :=
  replace (replace (replace s (py "&") (py "&amp;")) (py "<") (py "&lt;"))
          (py ">") (py "&gt;").

Definition quoted_attribute_value (value : str) : str :=
  if mem dq value then
    if mem sq value then [dq] ++ replace value [dq] (py "&quot;") ++ [dq]
    else [sq] ++ value ++ [sq]
  else [dq] ++ value ++ [dq].

Definition attr_text (v : attr_value) : str :=
  match v with
  | AttrStr s => s
  | AttrList l => join (py " ") l
  end.

Definition void_elements : list str :=
  [py "area"; py "base"; py "br"; py "col"; py "embed"; py "hr"; py "img";
   py "input"; py "keygen"; py "link"; py "menuitem"; py "meta"; py "param";
   py "source"; py "track"; py "wbr"; py "basefont"; py "bgsound";
   py "command"; py "frame"; py "image"; py "isindex"; py "nextid";
   py "spacer"].

Definition cdata_containing_tags : list str := [py "script"; py "style"].

(** [output_ready] of a string node: text is escaped unless its parent is
    a [script] or [style] tag ([raw]); the other kinds are written between
    their delimiters. *)
Definition output_ready (raw : bool) (kind : string_kind) (text : str) : str :=
  match kind with
  | Text => if raw then text else escape text
  | Comment => py "<!--" ++ text ++ py "-->"
  | CData => py "<![CDATA[" ++ text ++ py "]]>"
  | ProcessingInstruction => py "<?" ++ text ++ py ">"
  | Declaration => py "<?" ++ text ++ py "?>"
  | Doctype => py "<!DOCTYPE " ++ text ++ py ">" ++ [10]
  end.

(** [a < b] on strings: the order of the code points, a proper prefix
    first. *)
Fixpoint str_ltb (a b : str) : bool :=
  match a, b with
  | _, [] => false
  | [], _ :: _ => true
  | x :: a', y :: b' =>
      if x <? y then true else if y <? x then false else str_ltb a' b'
  end.

(** [sorted(tag.attrs.items())]: the formatter writes the attributes in
    the order of their names. *)
Fixpoint insert_attr (kv : str * attr_value) (l : list (str * attr_value))
    : list (str * attr_value) :=
  match l with
  | [] => [kv]
  | kv' :: l' =>
      if str_ltb kv'.1 kv.1 then kv' :: insert_attr kv l' else kv :: l
  end.

Definition sorted_attrs (attrs : list (str * attr_value))
    : list (str * attr_value) :=
  foldr insert_attr [] attrs.

(** [tag.decode()], with [raw] telling whether the parent is a [script] or
    [style] tag. *)
Fixpoint decode_in (raw : bool) (n : node) : str :=
  match n with
  | NavigableString kind text => output_ready raw kind text
  | Tag name attrs cs =>
      let attrs_text :=
        List.flat_map (fun '(k, v) =>
          py " " ++ k ++ py "=" ++ quoted_attribute_value (escape (attr_text v)))
          (sorted_attrs attrs) in
      match cs with
      | [] =>
          if bool_decide (name ∈ void_elements)
          then py "<" ++ name ++ attrs_text ++ py "/>"
          else py "<" ++ name ++ attrs_text ++ py "></" ++ name ++ py ">"
      | _ =>
          py "<" ++ name ++ attrs_text ++ py ">"
          ++ List.flat_map
               (decode_in (bool_decide (name ∈ cdata_containing_tags))) cs
          ++ py "</" ++ name ++ py ">"
      end
  end.

Definition decode (n : node) : str := decode_in false n.

(** [str(x)]: a tag is serialized, a string node is its own text. *)
Definition py_str (n : node) : str :=
  match n with
  | Tag _ _ _ => decode n
  | NavigableString _ text => text
  end.

(** [str(soup)]: the document object is hidden, its contents are written. *)
Definition soup_str (soup : node) : str := List.flat_map decode (contents soup).

(** ** The file system *)

(** An absolute path: the components below the root, in order. They may
    hold [..], which the file system resolves. A relative path is the list
    of its components. *)
Abbreviation path := (list str).

Inductive entry :=
  | File (content : list N)
  | Dir.

#[global] Instance entry_eq_dec : EqDecision entry.
Proof. solve_decision. Defined.

(** The entries, by resolved path (no [..] component); the root is a
    directory. *)
Abbreviation FS := (gmap (list (list N)) entry).

Definition fs_get (fs : FS) (p : path) : option entry :=
  match p with
  | [] => Some Dir
  | _ => fs !! p
  end.

Inductive errno := ENOENT | ENOTDIR.

Definition walk_step (cur : path) (c : str) : path :=
  if str_eqb c (py "..") then removelast cur else cur ++ [c].

(** Path resolution: every component is looked up in a directory. *)
Fixpoint resolve_from (fs : FS) (cur : path) (comps : list str)
    : errno + path :=
  match comps with
  | [] => inr cur
  | c :: rest =>
      match fs_get fs cur with
      | Some Dir => resolve_from fs (walk_step cur c) rest
      | Some (File _) => inl ENOTDIR
      | None => inl ENOENT
      end
  end.

Definition resolve (fs : FS) (p : path) : errno + path := resolve_from fs [] p.

(** [str(p)] of an absolute path, and of a relative one. *)
Definition path_str (p : path) : str := py "/" ++ join (py "/") p.

Definition rel_str (rel : path) : str :=
  match rel with
  | [] => py "."
  | _ => join (py "/") rel
  end.

(** [p.name] *)
Definition path_name (p : path) : str := List.last p [].

(** [p.suffix] *)
Definition path_suffix (p : path) : str := PurePath.name_suffix (path_name p).

(** A path without a [..] component. *)
Definition plain (p : path) : Prop := Forall (fun c => c <> py "..") p.

(** [base / s] *)
Definition joinpath (base : path) (s : str) : path :=
  if startswith s (py "/") then PurePath.parts s else base ++ PurePath.parts s.

(** [p.relative_to(base)], [None] for [ValueError]. *)
Fixpoint relative_to (p base : path) : option path :=
  match base, p with
  | [], _ => Some p
  | b :: base', c :: p' => if str_eqb b c then relative_to p' base' else None
  | _ :: _, [] => None
  end.

(** ** Effects *)

Inductive exn :=
  | FileNotFoundError (msg : str)
  | NotADirectoryError (msg : str)
  | FileExistsError (msg : str)
  | IsADirectoryError (msg : str)
  | SameFileError
  | ValueError
  | UnicodeError
  | UnboundLocalError (var : str)
  | AttributeError.

Inductive result (A : Type) :=
  | Ok (a : A)
  | Raise (e : exn).
Arguments Ok {A} a.
Arguments Raise {A} e.

(** A computation on the file system, which returns or raises. *)
Definition M (A : Type) : Type := FS -> result A * FS.

#[global] Instance M_ret : MRet M := fun A a fs => (Ok a, fs).
#[global] Instance M_bind : MBind M := fun A B f m fs =>
  match m fs with
  | (Ok a, fs') => f a fs'
  | (Raise e, fs') => (Raise e, fs')
  end.

Definition raise {A} (e : exn) : M A := fun fs => (Raise e, fs).
Definition gets {A} (f : FS -> A) : M A := fun fs => (Ok (f fs), fs).
Definition put (fs : FS) : M unit := fun _ => (Ok tt, fs).

(** A loop that threads an accumulator and stops at the first exception. *)
Fixpoint foldM {A B} (f : B -> A -> M B) (l : list A) (b : B) : M B :=
  match l with
  | [] => mret b
  | x :: l' => b' ← f b x; foldM f l' b'
  end.

Definition os_error (e : errno) (p : path) : exn :=
  match e with
  | ENOENT => FileNotFoundError (path_str p)
  | ENOTDIR => NotADirectoryError (path_str p)
  end.

(** [p.exists()] *)
Definition path_exists (fs : FS) (p : path) : bool :=
  match resolve fs p with
  | inr r => bool_decide (is_Some (fs_get fs r))
  | inl _ => false
  end.

(** [p.is_dir()] *)
Definition is_dir (fs : FS) (p : path) : bool :=
  match resolve fs p with
  | inr r => bool_decide (fs_get fs r = Some Dir)
  | inl _ => false
  end.

(** [os.mkdir(p)] *)
Definition os_mkdir (p : path) : M unit := fun fs =>
  match resolve fs p with
  | inl e => (Raise (os_error e p), fs)
  | inr r =>
      match fs_get fs r with
      | Some _ => (Raise (FileExistsError (path_str p)), fs)
      | None => (Ok tt, <[r := Dir]> fs)
      end
  end.

(** [p.mkdir(parents=True, exist_ok=True)], as [pathlib] does it: try
    [os.mkdir]; on [FileNotFoundError] make the parent this way and try
    again; on another error succeed when [p] is a directory. *)
Fixpoint mkdir_parents_from (n : nat) (p : path) : M unit := fun fs =>
  match os_mkdir p fs with
  | (Ok _, fs') => (Ok tt, fs')
  | (Raise (FileNotFoundError msg), _) =>
      match n with
      | S n' =>
          if bool_decide (removelast p = p)
          then (Raise (FileNotFoundError msg), fs)
          else
            match mkdir_parents_from n' (removelast p) fs with
            | (Ok _, fs1) =>
                match os_mkdir p fs1 with
                | (Ok _, fs2) => (Ok tt, fs2)
                | (Raise (FileNotFoundError msg'), _) =>
                    (Raise (FileNotFoundError msg'), fs1)
                | (Raise e, _) =>
                    if is_dir fs1 p then (Ok tt, fs1) else (Raise e, fs1)
                end
            | (Raise e, fs1) => (Raise e, fs1)
            end
      | O => (Raise (FileNotFoundError msg), fs)
      end
  | (Raise e, _) => if is_dir fs p then (Ok tt, fs) else (Raise e, fs)
  end.

Definition mkdir_parents (p : path) : M unit :=
  mkdir_parents_from (length p) p.

(** [open(p, 'rb').read()] *)
Definition read_bytes (p : path) : M (list N) := fun fs =>
  match resolve fs p with
  | inl e => (Raise (os_error e p), fs)
  | inr r =>
      match fs_get fs r with
      | Some (File content) => (Ok content, fs)
      | Some Dir => (Raise (IsADirectoryError (path_str p)), fs)
      | None => (Raise (FileNotFoundError (path_str p)), fs)
      end
  end.

(** [open(p, 'wb').write(content)] *)
Definition write_bytes (p : path) (content : list N) : M unit := fun fs =>
  match resolve fs p with
  | inl e => (Raise (os_error e p), fs)
  | inr r =>
      match fs_get fs r with
      | Some Dir => (Raise (IsADirectoryError (path_str p)), fs)
      | _ => (Ok tt, <[r := File content]> fs)
      end
  end.

(** [os.path.samefile] as [shutil] uses it: false when a path is missing. *)
Definition samefile (fs : FS) (p q : path) : bool :=
  match resolve fs p, resolve fs q with
  | inr r, inr r' =>
      bool_decide (is_Some (fs_get fs r)) && bool_decide (r = r')
  | _, _ => false
  end.

(** [shutil.copy2(src, dst)]: a [dst] that is a directory stands for the
    file of the name of [src] in it; a file is not copied onto itself; the
    content is copied as it is. *)
Definition copy2 (src dst : path) : M unit := fun fs =>
  let dst := if is_dir fs dst
             then match src with [] => dst | _ => dst ++ [path_name src] end
             else dst in
  if samefile fs src dst then (Raise SameFileError, fs)
  else (content ← read_bytes src; write_bytes dst content) fs.

(** [shutil.rmtree(p)] *)
Definition rmtree (p : path) : M unit := fun fs =>
  match resolve fs p with
  | inl e => (Raise (os_error e p), fs)
  | inr r =>
      match fs_get fs r with
      | Some Dir =>
          (Ok tt, filter (fun kv => negb (bool_decide (r `prefix_of` kv.1))) fs)
      | Some (File _) => (Raise (NotADirectoryError (path_str p)), fs)
      | None => (Raise (FileNotFoundError (path_str p)), fs)
      end
  end.

(** The names in the directory at the resolved path [r]. *)
Definition listdir (fs : FS) (r : path) : list str :=
  omap (fun kv : path * entry =>
          match reverse kv.1 with
          | name :: parent =>
              if bool_decide (reverse parent = r) then Some name else None
          | [] => None
          end)
       (map_to_list fs).

Definition endswith (s suffix : str) : bool :=
  startswith (reverse s) (reverse suffix).

(** ** The collaborators *)

(** How a child process ends: it exits with status zero, it exits with
    another status ([subprocess.CalledProcessError] under [check=True]), or
    it cannot be run at all (any other exception). *)
Inductive run_outcome := Completed | CalledProcessError | RunFailed.

(** What the converter takes from outside: BeautifulSoup's parser, the
    UTF-8 codec, [shutil.which] for [npm] and [npx], [subprocess.run] (a
    child process may change the file system), and the orders in which a
    [set] and a directory listing are iterated. *)
Record collaborators := {
  html_parser : str -> node;
  utf8_decode : list N -> option str;
  utf8_encode : str -> option (list N);
  npm_path : option str;
  npx_path : option str;
  subprocess_run : list str -> path -> FS -> run_outcome * FS;
  set_order : list path -> list path;
  glob_order : list str -> list str
}.

(** ** Asset Locator *)

(** [assets.add(candidate)] *)
Definition set_add (candidate : path) (assets : list path) : list path :=
  if bool_decide (candidate ∈ assets) then assets else assets ++ [candidate].

(** The body of the two loops of [collect_local_assets], for one tag and
    one attribute name. *)
Definition collect_attr (site_dir : path) (fs : FS) (tag : node)
    (assets : list path) (attr : str) : list path :=
  match tag_attr tag attr with
  | Some (AttrStr val) =>
      if is_remote val then assets
      else
        let cleaned := lstrip (py "./") val in
        let ext := lower (PurePath.suffix cleaned) in
        if bool_decide (ext ∈ ASSET_EXTS) then
          let candidate := joinpath site_dir cleaned in
          if path_exists fs candidate then set_add candidate assets
          else assets
        else assets
  | _ => assets
  end.

(** [collect_local_assets] *)
Definition collect_local_assets (soup : node) (site_dir : path) (fs : FS)
    : list path :=
  fold_left (fun assets tag =>
               fold_left (collect_attr site_dir fs tag)
                         [py "src"; py "href"] assets)
            (find_all soup) [].

(** ** Asset Relocator *)

(** [asset.relative_to(site_dir)], or [Path(asset.name)] when that fails. *)
Definition asset_rel (asset site_dir : path) : path :=
  match relative_to asset site_dir with
  | Some rel => rel
  | None => PurePath.parts (path_name asset)
  end.

(** The body of the loop of [copy_assets]. *)
Definition copy_asset (site_dir dest_assets_dir : path) (mapping : dict)
    (asset : path) : M dict :=
  let rel := asset_rel asset site_dir in
  let dest_path := dest_assets_dir ++ rel in
  mkdir_parents (removelast dest_path);;
  copy2 asset dest_path;;
  match relative_to dest_path dest_assets_dir with
  | Some new_rel =>
      mret (dict_set mapping (replace (rel_str rel) [backslash] (py "/"))
                     (rel_str new_rel))
  | None => raise ValueError
  end.

(** [copy_assets]; [assets] lists the set in the order it is iterated. *)
Definition copy_assets (assets : list path) (site_dir dest_assets_dir : path)
    : M dict :=
  foldM (copy_asset site_dir dest_assets_dir) assets [].

(** ** Document Rewriter: decomposition *)

(** [getattr(c, 'name', None)] is true. *)
Definition has_name (n : node) : bool :=
  match node_name n with
  | Some (_ :: _) => true
  | _ => false
  end.

Definition header_part (body : node) (mapping : dict) : str :=
  match find (py "header") body with
  | Some header_tag => replace_asset_paths_in_html (py_str header_tag) mapping
  | None =>
      match List.find has_name (contents body) with
      | Some first => replace_asset_paths_in_html (py_str first) mapping
      | None => []
      end
  end.

(** The loop that gathers the body when it has no [main] tag. *)
Definition main_fallback_parts (body : node) : list str :=
  List.flat_map (fun el =>
    match el with
    | Tag name _ _ =>
        if str_eqb name (py "header") || str_eqb name (py "footer") then []
        else [py_str el]
    | NavigableString Comment _ => []
    | NavigableString _ text =>
        match strip text with
        | [] => []
        | _ => [py_str el]
        end
    end) (contents body).

Definition main_part (body : node) (mapping : dict) : str :=
  match find (py "main") body with
  | Some main_tag => replace_asset_paths_in_html (py_str main_tag) mapping
  | None =>
      replace_asset_paths_in_html (List.concat (main_fallback_parts body)) mapping
  end.

Definition footer_part (body : node) (mapping : dict) : str :=
  match find (py "footer") body with
  | Some footer_tag => replace_asset_paths_in_html (py_str footer_tag) mapping
  | None => []
  end.

(** Equality of two fragments up to whitespace. *)
Definition same_modulo_space (a b : str) : Prop :=
  List.filter (fun c => negb (isspace c)) a
  = List.filter (fun c => negb (isspace c)) b.

(** ** Templates *)

Definition nl : str := [10].

Definition style_css : str :=
  py "/*
Theme Name: RMK Theme
Theme URI: http://example.com/
Author: Tian Hrovat  & Andrej Su" ++ [353] ++ py "nik
Description: Converted from static site
Version: 1.1.3
*/

/* Add your theme CSS below or edit assets/*.css files copied from the site */
".

Fixpoint enumerate_from {A} (i : nat) (l : list A) : list (nat * A) :=
  match l with
  | [] => []
  | x :: l' => (i, x) :: enumerate_from (S i) l'
  end.

Definition enqueue_lines (mapping : dict) : list str :=
  let extra_css :=
    List.map snd (List.filter (fun kv => str_eqb (PurePath.suffix kv.2) (py ".css")) mapping) in
  let extra_js :=
    List.map snd (List.filter (fun kv => str_eqb (PurePath.suffix kv.2) (py ".js")) mapping) in
  [[9] ++ py "wp_enqueue_style('rmk-style', get_stylesheet_uri());"]
  ++ List.map (fun '(i, css) =>
       [9] ++ py "wp_enqueue_style('rmk-extra-" ++ str_of_nat i
       ++ py "', get_template_directory_uri() . '/assets/" ++ css ++ py "');")
       (enumerate_from 0 extra_css)
  ++ List.map (fun '(i, js) =>
       [9] ++ py "wp_enqueue_script('rmk-extra-js-" ++ str_of_nat i
       ++ py "', get_template_directory_uri() . '/assets/" ++ js
       ++ py "', array(), null, true);")
       (enumerate_from 0 extra_js).

Definition functions_php (mapping : dict) : str :=
  py "<?php
function rmk_theme_enqueue() {
" ++ join nl (enqueue_lines mapping) ++ py "
}
add_action('wp_enqueue_scripts', 'rmk_theme_enqueue');
".

Definition header_template : str :=
  py "<?php
/**
 * Header for the converted theme
 */
?><!doctype html>
<html <?php language_attributes(); ?>>
<head>
<meta charset=" ++ [dq] ++ py "<?php bloginfo( 'charset' ); ?>" ++ [dq] ++ py ">
<meta name=" ++ [dq] ++ py "viewport" ++ [dq] ++ py " content=" ++ [dq]
  ++ py "width=device-width, initial-scale=1" ++ [dq] ++ py ">
<?php wp_head(); ?>
</head>
<body <?php body_class(); ?>>
<?php wp_body_open(); ?>
".

Definition header_php (head_html header_html : str) : str :=
  let head_html :=
    match head_html with
    | [] => head_html
    | _ =>
        let h := replace head_html (py "rmk-theme/assets/css/tailwind.css")
                         (py "assets/css/tailwind.css") in
        let h := replace (replace h (py "&lt;?php") (py "<?php"))
                         (py "?&gt;") (py "?>") in
        replace h (py "/assets/assets/") (py "/assets/")
    end in
  replace header_template (py "<?php wp_head(); ?>")
          (head_html ++ nl ++ py "<?php wp_head(); ?>")
  ++ nl ++ header_html ++ nl.

Definition footer_php (footer_html : str) : str :=
  py "<?php
/**
 * Footer for the converted theme
 */
?>
" ++ match footer_html with
     | [] => []
     | _ => nl ++ footer_html ++ nl
     end
  ++ py "<?php wp_footer(); ?>
</body>
</html>
".

Definition index_php (main_html : str) : str :=
  py "<?php
/*
 * Index template generated from static site. Replace with dynamic loop as needed.
 */
get_header();
?>
<main>
" ++ main_html ++ py "
</main>
<?php get_footer(); ?>
".

(** ** The conversion *)

(** Universal newlines, as text mode reads: [\r\n] and a lone [\r] become
    [\n]. *)
Definition universal_newlines (s : str) : str :=
  replace (replace s [13; 10] [10]) [13] [10].

Section Conversion.
Variable E : collaborators.

(** [p.read_text(encoding='utf-8')]: the file is read in text mode, so
    the decoded text has its line ends translated. *)
Definition read_text (p : path) : M str :=
  content ← read_bytes p;
  match utf8_decode E content with
  | Some text => mret (universal_newlines text)
  | None => raise UnicodeError
  end.

(** [write_file]: the file is opened, hence created, before its content is
    encoded. *)
Definition write_file (p : path) (content : str) : M unit :=
  mkdir_parents (removelast p);;
  match utf8_encode E content with
  | Some bytes => write_bytes p bytes
  | None => write_bytes p [];; raise UnicodeError
  end.

(** The optional Node build of [generate_theme]: every exception of a
    child process is caught and the conversion goes on. *)
Definition node_build (site_dir : path) : M unit := fun fs =>
  if path_exists fs (site_dir ++ [py "package.json"]) then
    match npm_path E, npx_path E with
    | None, None => (Ok tt, fs)
    | Some npm, _ =>
        let '(installed, fs1) :=
          if path_exists fs (site_dir ++ [py "node_modules"])
          then (Completed, fs)
          else subprocess_run E [npm; py "install"] site_dir fs in
        match installed with
        | Completed =>
            let '(prod, fs2) :=
              subprocess_run E [npm; py "run"; py "build:css:prod"] site_dir fs1 in
            match prod with
            | CalledProcessError =>
                let '(_, fs3) :=
                  subprocess_run E [npm; py "run"; py "build:css"] site_dir fs2 in
                (Ok tt, fs3)
            | _ => (Ok tt, fs2)
            end
        | _ => (Ok tt, fs1)
        end
    | None, Some npx =>
        let '(_, fs1) :=
          subprocess_run E
            [npx; py "tailwindcss"; py "-i"; py "./src/css/input.css"; py "-o";
             py "./rmk-theme/assets/css/tailwind.css"; py "--minify"]
            site_dir fs in
        (Ok tt, fs1)
    end
  else (Ok tt, fs).

(** The head fragment. [head_inner] is bound only under [if soup.head]. *)
Definition head_part (soup : node) (mapping : dict) : M str :=
  match find (py "head") soup with
  | Some head =>
      let head_html := replace_asset_paths_in_html (py_str head) mapping in
      match find (py "head") (html_parser E head_html) with
      | Some head_inner => mret (List.flat_map py_str (contents head_inner))
      | None => raise AttributeError
      end
  | None => raise (UnboundLocalError (py "head_inner"))
  end.

(** [site_dir.glob('*.html')] *)
Definition glob_html (fs : FS) (site_dir : path) : list path :=
  match resolve fs site_dir with
  | inr r =>
      List.map (fun name => site_dir ++ [name])
        (glob_order E
           (List.filter (fun name => endswith name (py ".html")) (listdir fs r)))
  | inl _ => []
  end.

(** [generate_theme] from the comment [Extract parts] on: the fragments
    and the files of the theme. *)
Definition emit_theme (soup : node) (mapping : dict) (site_dir out_dir : path)
    : M unit :=
  head_html ← head_part soup mapping;
  let '(header_html, main_html, footer_html) :=
    match find (py "body") soup with
    | Some body =>
        (header_part body mapping, main_part body mapping,
         footer_part body mapping)
    | None => ([], replace_asset_paths_in_html (soup_str soup) mapping, [])
    end in
  write_file (out_dir ++ [py "style.css"]) style_css;;
  write_file (out_dir ++ [py "functions.php"]) (functions_php mapping);;
  write_file (out_dir ++ [py "header.php"]) (header_php head_html header_html);;
  write_file (out_dir ++ [py "footer.php"]) (footer_php footer_html);;
  write_file (out_dir ++ [py "index.php"]) (index_php main_html);;
  html_files ← gets (fun fs => glob_html fs site_dir);
  foldM (fun _ html_file =>
           if str_eqb (path_name html_file) (py "index.html") then mret tt
           else copy2 html_file (joinpath out_dir (path_name html_file)))
        html_files tt.

(** [generate_theme] up to the comment [Extract parts]: the parsed document
    and the normalized mapping. *)
Definition load_site (site_dir out_dir : path) : M (node * dict) :=
  let index_file := site_dir ++ [py "index.html"] in
  found ← gets (fun fs => path_exists fs index_file);
  if negb found
  then raise (FileNotFoundError (py "index.html not found in " ++ path_str site_dir))
  else
    text ← read_text index_file;
    let soup := remove_comments (html_parser E text) in
    let assets_dir := out_dir ++ [py "assets"] in
    mkdir_parents assets_dir;;
    node_build site_dir;;
    assets ← gets (collect_local_assets soup site_dir);
    mapping ← copy_assets (set_order E assets) site_dir assets_dir;
    mret (soup, normalize_mapping (path_name out_dir) mapping).

(** [generate_theme] *)
Definition generate_theme (site_dir out_dir : path) : M unit :=
  '(soup, mapping) ← load_site site_dir out_dir;
  emit_theme soup mapping site_dir out_dir.

(** [main], after the arguments are parsed and resolved; [answer] is what
    the user types at the prompt. [None] is returned without converting
    when the user declines to overwrite. *)
Definition main (site_dir out_dir : path) (answer : str) : M unit :=
  found ← gets (fun fs => path_exists fs out_dir);
  if found : bool then
    if negb (str_eqb (lower answer) (py "y")) then mret tt
    else rmtree out_dir;; generate_theme site_dir out_dir
  else generate_theme site_dir out_dir.

End Conversion.

(** ** Predicates of the statements *)

Definition not_quote (c : N) : Prop := is_quote c = false.

(** A character a match can start with. *)
Definition is_start (c : N) : bool := ilit 115 c || ilit 104 c.

(** The shape of a match: [match_at] finds it at the start of any string
    that begins with its text. *)
Record wf_match (m : rematch) : Prop := {
  wf_attr : forall r, match_attr (g_attr m ++ r) = Some (g_attr m, r);
  wf_attr_len : (3 <= length (g_attr m))%nat;
  wf_attr_tl : Forall (fun c => is_start c = false) (tail (g_attr m));
  wf_quote : is_quote (g_quote m) = true;
  wf_val_ne : g_val m <> [];
  wf_val : Forall not_quote (g_val m);
  wf_close : is_quote (g_close m) = true
}.

(** The attribute text [repl] produces for the mapping value [v]. *)
Definition rewritten (m : rematch) (v : str) : rematch :=
  ReMatch (g_attr m) (g_quote m)
          (php_prefix ++ py "/assets/" ++ lstrip (py "/") v) (g_quote m).

(** The attribute value [repl] builds from the mapping value [v]. *)
Definition asset_url (v : str) : str :=
  php_prefix ++ py "/assets/" ++ lstrip (py "/") v.

(** A text without backslash, slash or quote. *)
Definition stable_chars (s : str) : Prop :=
  Forall (fun c => c <> backslash /\ c <> slash /\ is_quote c = false) s.

(** The mappings on which rewriting twice is rewriting once: every value
    keeps the file name of its key, holds no backslash and no quote, and keys
    with the same base name carry the same value. *)
Record stable_mapping (mapping : dict) : Prop := {
  sm_name : forall k v, (k, v) ∈ mapping ->
            PurePath.name v = PurePath.name k /\ PurePath.name k <> [];
  sm_chars : forall k v c, (k, v) ∈ mapping -> c ∈ v ->
             c <> backslash /\ is_quote c = false;
  sm_uniq : forall k1 v1 k2 v2, (k1, v1) ∈ mapping -> (k2, v2) ∈ mapping ->
            PurePath.name k1 = PurePath.name k2 -> v1 = v2
}.

(** A reference of [tag] that [collect_local_assets] accepts. *)
Definition accepted (site_dir : path) (fs : FS) (tag : node) (attr val : str)
    : Prop :=
  tag_attr tag attr = Some (AttrStr val)
  /\ is_remote val = false
  /\ lower (PurePath.suffix (lstrip (py "./") val)) ∈ ASSET_EXTS
  /\ path_exists fs (joinpath site_dir (lstrip (py "./") val)) = true.

(** Collaborators to run the conversion on examples: a parser that answers
    one document, a codec that maps a text to its code points, no Node
    tools, sets and listings iterated in the order they were built. *)
Definition example_collaborators (doc : node) : collaborators :=
  {| html_parser := fun _ => doc;
     utf8_decode := Some;
     utf8_encode := Some;
     npm_path := None;
     npx_path := None;
     subprocess_run := fun _ _ fs => (Completed, fs);
     set_order := fun l => l;
     glob_order := fun l => l |}.

(** Components as [pathlib] keeps them: not empty, not [.], without a
    slash. *)
Definition wf_parts (rel : path) : Prop :=
  Forall (fun c => PurePath.is_part c = true /\ slash ∉ c) rel.

(** A destination [d] that is free: it is not one of the assets, it is not
    a directory, and no file lies on the way to it. *)
Definition free_destination (fs : FS) (assets : list path) (d : path) : Prop :=
  (d ∉ assets)
  /\ fs_get fs d <> Some Dir
  /\ forall q c, q `prefix_of` d -> fs_get fs q = Some (File c) -> q = d.

(** Every proper prefix of [p] is a directory: [p] resolves to itself. *)
Definition dirs_to (fs : FS) (p : path) : Prop :=
  forall q, q `prefix_of` p -> q <> p -> fs_get fs q = Some Dir.

(** A state the loop of [copy_assets] reaches from [fs0]: every entry is
    as it was at the start, or a directory on the way to a destination, or
    the copy of an asset at its destination. *)
Definition reached (site_dir dest : path) (fs0 : FS) (assets : list path)
    (fs : FS) : Prop :=
  forall p,
    fs_get fs p = fs_get fs0 p
    \/ (fs_get fs p = Some Dir
        /\ exists rel, site_dir ++ rel ∈ assets
                       /\ p `prefix_of` dest ++ rel /\ p <> dest ++ rel)
    \/ (exists rel content,
          site_dir ++ rel ∈ assets /\ p = dest ++ rel
          /\ fs_get fs0 (site_dir ++ rel) = Some (File content)
          /\ fs_get fs p = Some (File content)).

(** In [fs] the asset at [rel] has been copied: its destination resolves
    and holds what the asset held in [fs0]. *)
Definition copied (site_dir dest : path) (fs0 fs : FS) (rel : path) : Prop :=
  dirs_to fs (dest ++ rel)
  /\ fs_get fs (dest ++ rel) = fs_get fs0 (site_dir ++ rel).

(** No file lies at [cur] or further on the way along [rest], its end
    excepted. *)
Fixpoint way_clear (fs : FS) (cur rest : path) : bool :=
  match rest with
  | [] => true
  | c :: rest' =>
      match fs_get fs cur with
      | Some (File _) => false
      | _ => way_clear fs (cur ++ [c]) rest'
      end
  end.

(** [fs'] keeps what [fs] holds: every path with an entry still has one,
    and every directory is still a directory. *)
Definition keeps (fs fs' : FS) : Prop :=
  forall p, (is_Some (fs_get fs p) -> is_Some (fs_get fs' p))
            /\ (fs_get fs p = Some Dir -> fs_get fs' p = Some Dir).

(** No component of a path in the file system holds a slash. *)
Definition names_ok (fs : FS) : Prop :=
  map_Forall (fun p _ => Forall (fun c => slash ∉ c) p) fs.

(** The file at [p] can be read and holds [bytes]. *)
Definition holds (fs : FS) (p : path) (bytes : list N) : Prop :=
  dirs_to fs p /\ fs_get fs p = Some (File bytes).

(** The header, main and footer fragments of [generate_theme]. *)
Definition fragments (soup : node) (mapping : dict) : str * str * str :=
  match find (py "body") soup with
  | Some body =>
      (header_part body mapping, main_part body mapping,
       footer_part body mapping)
  | None => ([], replace_asset_paths_in_html (soup_str soup) mapping, [])
  end.

(** The file at [p] holds the encoding of [content]. *)
Definition written (E : collaborators) (fs : FS) (p : path) (content : str)
    : Prop :=
  exists bytes,
    utf8_encode E content = Some bytes /\ (read_bytes p fs).1 = Ok bytes.

(** From [fs] to [fs'] only entries at paths in [P] change. *)
Definition touches (P : path -> Prop) (fs fs' : FS) : Prop :=
  forall x, ~ P x -> fs' !! x = fs !! x.

(** [x] lies on the way to [out_dir] or under it. *)
Definition along (out_dir x : path) : Prop :=
  x `prefix_of` out_dir \/ out_dir `prefix_of` x.

(** No local asset reference of the document climbs with [..]: the
    values [collect_local_assets] can accept have no such component. *)
Definition no_climb (soup : node) : Prop :=
  forall tag attr val,
    tag ∈ find_all soup -> attr ∈ [py "src"; py "href"] ->
    tag_attr tag attr = Some (AttrStr val) ->
    is_remote val = false ->
    lower (PurePath.suffix (lstrip (py "./") val)) ∈ ASSET_EXTS ->
    py ".." ∉ PurePath.parts (lstrip (py "./") val).

(** The document [generate_theme] converts when [index.html] holds
    [content]. *)
Definition document_of (E : collaborators) (content : list N) : option node :=
  text ← utf8_decode E content;
  Some (remove_comments (html_parser E (universal_newlines text))).

(** A parser for examples that knows the documents of some texts and takes
    any other text for a document of that one string. *)
Fixpoint parse_table (table : list (str * node)) (text : str) : node :=
  match table with
  | [] => Tag (py "[document]") [] [NavigableString Text text]
  | (t, doc) :: table' => if str_eqb text t then doc else parse_table table' text
  end.

Definition table_collaborators (table : list (str * node)) : collaborators :=
  {| html_parser := parse_table table;
     utf8_decode := Some;
     utf8_encode := Some;
     npm_path := None;
     npx_path := None;
     subprocess_run := fun _ _ fs => (Completed, fs);
     set_order := fun l => l;
     glob_order := fun l => l |}.

(** * Properties *)

(** ** Strings *)

Lemma str_eqb_eq (a b : str) : str_eqb a b = true <-> a = b.
Proof. unfold str_eqb. apply bool_decide_eq_true. Qed.

Lemma str_eqb_neq (a b : str) : str_eqb a b = false <-> a <> b.
Proof. unfold str_eqb. apply bool_decide_eq_false. Qed.

Lemma str_eqb_refl (a : str) : str_eqb a a = true.
Proof. by apply str_eqb_eq. Qed.


Lemma startswith_spec (s p : str) :
  startswith s p = true <-> exists r, s = p ++ r.
Proof.
  revert s. induction p as [|c p IH]; intros s; simpl.
  - split; eauto.
  - destruct s as [|d s]; simpl.
    + split; [done | by intros [r Hr]].
    + rewrite andb_true_iff, N.eqb_eq, IH. split.
      * intros [-> [r ->]]. eauto.
      * intros [r Hr]. injection Hr as -> ->. eauto.
Qed.

Lemma lstrip_by_id (p : N -> bool) (c : N) (s : str) :
  p c = false -> lstrip_by p (c :: s) = c :: s.
Proof. intros H. simpl. by rewrite H. Qed.

Lemma lstrip_by_head (p : N -> bool) (s : str) :
  match lstrip_by p s with
  | c :: _ => p c = false
  | [] => True
  end.
Proof.
  induction s as [|c s IH]; simpl; [done|].
  destruct (p c) eqn:E; [done|]. exact E.
Qed.

Lemma lstrip_by_idem (p : N -> bool) (s : str) :
  lstrip_by p (lstrip_by p s) = lstrip_by p s.
Proof.
  pose proof (lstrip_by_head p s) as H.
  destruct (lstrip_by p s) as [|c r]; [done|]. by apply lstrip_by_id.
Qed.

(** Replacing a one-character [old] acts character by character. *)
Lemma replace_char (s : str) (a : N) (new : str) :
  replace s [a] new =
  List.flat_map (fun c => if c =? a then new else [c]) s.
Proof.
  unfold replace. induction s as [|c s IH]; simpl; [done|].
  rewrite andb_true_r, N.eqb_sym. destruct (c =? a); simpl; by rewrite IH.
Qed.

Lemma replace_char_app (s t : str) (a : N) (new : str) :
  replace (s ++ t) [a] new = replace s [a] new ++ replace t [a] new.
Proof. rewrite !replace_char. apply flat_map_app. Qed.

Lemma replace_char_absent (s : str) (a : N) (new : str) :
  a ∉ s -> replace s [a] new = s.
Proof.
  rewrite replace_char. induction s as [|c s IH]; simpl; [done|].
  intros H. apply not_elem_of_cons in H as [Hc Hs].
  destruct (N.eqb_spec c a) as [->|_]; [done|]. simpl. by rewrite IH.
Qed.

Ltac list_norm := repeat (rewrite <- ?app_assoc; simpl).

(** ** The pattern *)

(** The letters [r], [c], [e] and [f] of the attribute names, in either
    case, are not letters an attribute name starts with. *)
Lemma ilit_not_start (p c : N) :
  p ∈ [114; 99; 101; 102] -> ilit p c = true -> is_start c = false.
Proof.
  intros Hp H.
  repeat (apply elem_of_cons in Hp as [->|Hp]);
    [..|by apply elem_of_nil in Hp];
    unfold ilit, is_start, ilit in *;
    repeat match goal with
    | H : _ || _ = true |- _ => apply orb_true_iff in H as [H|H]
    | H : _ && _ = true |- _ => apply andb_true_iff in H as [? H]
    | H : (_ =? _) = true |- _ => apply N.eqb_eq in H; subst
    end; done.
Qed.

Lemma match_attr_inv (s attr r : str) :
  match_attr s = Some (attr, r) ->
  s = attr ++ r /\ (forall r', match_attr (attr ++ r') = Some (attr, r'))
  /\ (3 <= length attr)%nat
  /\ Forall (fun c => is_start c = false) (tail attr).
Proof.
  assert (Hr : forall c, ilit 114 c = true -> is_start c = false)
    by (intros c; apply ilit_not_start; set_solver).
  assert (Hc : forall c, ilit 99 c = true -> is_start c = false)
    by (intros c; apply ilit_not_start; set_solver).
  assert (He : forall c, ilit 101 c = true -> is_start c = false)
    by (intros c; apply ilit_not_start; set_solver).
  assert (Hf : forall c, ilit 102 c = true -> is_start c = false)
    by (intros c; apply ilit_not_start; set_solver).
  unfold match_attr.
  destruct s as [|a [|b [|c s]]]; try done.
  destruct (ilit 115 a && ilit 114 b && ilit 99 c) eqn:E1.
  - intros [= <- <-]. split; [done|]. split; [|split].
    + intros r'. simpl. by rewrite E1.
    + simpl; lia.
    + apply andb_true_iff in E1 as [E1 E3].
      apply andb_true_iff in E1 as [E1 E2]. simpl. auto.
  - destruct s as [|d s]; [done|].
    destruct (ilit 104 a && ilit 114 b && ilit 101 c && ilit 102 d) eqn:E2;
      [|done].
    intros [= <- <-]. split; [done|]. split; [|split].
    + intros r'. simpl. by rewrite E1, E2.
    + simpl; lia.
    + apply andb_true_iff in E2 as [E2 E6].
      apply andb_true_iff in E2 as [E2 E5].
      apply andb_true_iff in E2 as [E3 E4]. simpl. auto.
Qed.

Lemma span_value_inv (s v r : str) :
  span_value s = (v, r) ->
  s = v ++ r /\ Forall not_quote v
  /\ match r with [] => True | q :: _ => is_quote q = true end.
Proof.
  revert v r. induction s as [|c s IH]; intros v r; simpl.
  - intros [= <- <-]. by repeat split.
  - destruct (is_quote c) eqn:E.
    + intros [= <- <-]. by repeat split.
    + destruct (span_value s) as [v' r'] eqn:E'. intros [= <- <-].
      destruct (IH _ _ eq_refl) as (-> & Hv & Hr).
      repeat split; [by constructor | done].
Qed.

Lemma span_value_app (v : str) (q : N) (r : str) :
  Forall not_quote v -> is_quote q = true ->
  span_value (v ++ q :: r) = (v, q :: r).
Proof.
  intros Hv Hq. induction Hv as [|c v Hc Hv IH]; simpl.
  - by rewrite Hq.
  - rewrite Hc, IH. done.
Qed.

Lemma span_value_no_quote (s : str) :
  Forall not_quote s -> span_value s = (s, []).
Proof.
  induction 1 as [|c v Hc Hv IH]; simpl; [done|]. by rewrite Hc, IH.
Qed.

Lemma match_at_inv (s : str) (m : rematch) (rest : str) :
  match_at s = Some (m, rest) -> s = group0 m ++ rest /\ wf_match m.
Proof.
  unfold match_at.
  destruct (match_attr s) as [[attr r]|] eqn:Ha; [|done].
  destruct r as [|e [|q r]]; try done.
  destruct ((e =? 61) && is_quote q) eqn:Eq; [|done].
  apply andb_true_iff in Eq as [He Hq]. apply N.eqb_eq in He as ->.
  destruct (span_value r) as [val r2] eqn:Hs.
  destruct val as [|c val]; [done|]. destruct r2 as [|q2 rest']; [done|].
  intros [= <- <-].
  apply match_attr_inv in Ha as (-> & Hattr & Hlen & Htl).
  apply span_value_inv in Hs as (-> & Hv & Hq2).
  split.
  - unfold group0. change (py "=") with [61]. by list_norm.
  - by constructor.
Qed.

Lemma match_at_group0 (m : rematch) (rest : str) :
  wf_match m -> match_at (group0 m ++ rest) = Some (m, rest).
Proof.
  intros [Ha _ _ Hq Hne Hv Hc]. unfold match_at, group0.
  change (py "=") with [61]. list_norm. rewrite Ha, Hq. simpl.
  rewrite (span_value_app _ _ _ Hv Hc).
  destruct m as [a q v c]. simpl in *. by destruct v.
Qed.

Lemma match_at_length (s : str) (m : rematch) (rest : str) :
  match_at s = Some (m, rest) -> (length rest < length s)%nat.
Proof.
  intros H. apply match_at_inv in H as [-> _]. unfold group0.
  change (py "=") with [61].
  rewrite !length_app. simpl. lia.
Qed.

(** ** [scan] and [replace_asset_paths_in_html] unfolded *)

Lemma scan_fuel_enough (f1 f2 : nat) (s : str) :
  (length s <= f1)%nat -> (length s <= f2)%nat ->
  scan_fuel f1 s = scan_fuel f2 s.
Proof.
  revert f2 s. induction f1 as [|f1 IH]; intros f2 s H1 H2.
  - destruct s; [|simpl in H1; lia]. by destruct f2.
  - destruct f2 as [|f2].
    + destruct s; [done | simpl in H2; lia].
    + simpl. destruct (match_at s) as [[m rest]|] eqn:E.
      * apply match_at_length in E. f_equal. apply IH; lia.
      * destruct s as [|c s]; [done|]. simpl in *. f_equal. apply IH; lia.
Qed.

Lemma scan_eq (s : str) :
  scan s =
  match match_at s with
  | Some (m, rest) => inl m :: scan rest
  | None => match s with
            | [] => []
            | c :: s' => inr c :: scan s'
            end
  end.
Proof.
  unfold scan. destruct s as [|c s]; [done|].
  change (scan_fuel (length (c :: s)) (c :: s)) with
    (match match_at (c :: s) with
     | Some (m, rest) => inl m :: scan_fuel (length s) rest
     | None => inr c :: scan_fuel (length s) s
     end).
  destruct (match_at (c :: s)) as [[m rest]|] eqn:E; [|done].
  apply match_at_length in E. simpl in E. f_equal.
  apply scan_fuel_enough; lia.
Qed.

Lemma replace_eq (s : str) (mapping : dict) :
  replace_asset_paths_in_html s mapping =
  match match_at s with
  | Some (m, rest) => repl mapping m ++ replace_asset_paths_in_html rest mapping
  | None => match s with
            | [] => []
            | c :: s' => c :: replace_asset_paths_in_html s' mapping
            end
  end.
Proof.
  unfold replace_asset_paths_in_html. rewrite scan_eq.
  destruct (match_at s) as [[m rest]|]; [done|]. by destruct s.
Qed.

Lemma scan_wf (s : str) (m : rematch) : inl m ∈ scan s -> wf_match m.
Proof.
  remember (length s) as n eqn:Hn. revert s Hn.
  induction n as [n IH] using lt_wf_ind. intros s -> H.
  rewrite scan_eq in H. destruct (match_at s) as [[m' rest]|] eqn:E.
  - apply elem_of_cons in H as [[= ->]|H].
    + by apply match_at_inv in E as [_ ?].
    + apply match_at_length in E. by eapply IH.
  - destruct s as [|c s]; [by apply elem_of_nil in H|].
    apply elem_of_cons in H as [[=]|H]. eapply IH; [|done..]. simpl; lia.
Qed.

(** ** Paths *)

Lemma split_slash_cons_slash (s : str) :
  split_slash (slash :: s) = [] :: split_slash s.
Proof. done. Qed.

Lemma split_slash_ne (s : str) : split_slash s <> [].
Proof.
  induction s as [|c s IH]; simpl; [done|].
  destruct (c =? slash); [done|]. by destruct (split_slash s).
Qed.

Lemma split_slash_app (a b : str) :
  slash ∉ a -> split_slash (a ++ slash :: b) = a :: split_slash b.
Proof.
  induction a as [|c a IH]; intros H; [done|].
  apply not_elem_of_cons in H as [Hc Ha]. simpl.
  destruct (N.eqb_spec c slash) as [->|_]; [done|]. by rewrite IH.
Qed.

Lemma parts_app (a b : str) :
  slash ∉ a ->
  PurePath.parts (a ++ slash :: b) =
  (if PurePath.is_part a then [a] else []) ++ PurePath.parts b.
Proof.
  intros H. unfold PurePath.parts. rewrite split_slash_app by done. simpl.
  by destruct (PurePath.is_part a).
Qed.

Lemma parts_lstrip_slash (v : str) :
  PurePath.parts (lstrip (py "/") v) = PurePath.parts v.
Proof.
  unfold lstrip. change (py "/") with [slash].
  induction v as [|c v IH]; [done|].
  change (lstrip_by _ (c :: v)) with
    (if mem c [slash] then lstrip_by (fun c => mem c [slash]) v else c :: v).
  destruct (N.eqb_spec c slash) as [->|Hc].
  - change (mem slash [slash]) with true. cbv iota. by rewrite IH.
  - unfold mem. simpl. apply N.eqb_neq in Hc. by rewrite Hc.
Qed.

Lemma name_lstrip_slash (v : str) :
  PurePath.name (lstrip (py "/") v) = PurePath.name v.
Proof. unfold PurePath.name. by rewrite parts_lstrip_slash. Qed.

Lemma last_app_ne {A} (l1 l2 : list A) (d : A) :
  l2 <> [] -> List.last (l1 ++ l2) d = List.last l2 d.
Proof.
  intros H. induction l1 as [|x l1 IH]; [done|].
  simpl. rewrite IH. destruct (l1 ++ l2) eqn:E; [|done].
  apply app_eq_nil in E as [_ ->]. done.
Qed.

Lemma startswith_char (c d : N) (s : str) :
  startswith (c :: s) [d] = (d =? c).
Proof. unfold startswith. apply andb_true_r. Qed.

Lemma mem_cons (c d : N) (l : str) : mem c (d :: l) = (c =? d) || mem c l.
Proof. done. Qed.

(** ** Dictionaries *)

Lemma dict_get_elem (mapping : dict) (key v : str) :
  dict_get mapping key = Some v -> (key, v) ∈ mapping.
Proof.
  induction mapping as [|[k w] rest IH]; simpl; [done|].
  destruct (str_eqb k key) eqn:E.
  - apply str_eqb_eq in E as ->. intros [= ->]. apply elem_of_cons; by left.
  - intros H. apply elem_of_cons; right; auto.
Qed.

Lemma find_by_basename_elem (mapping : dict) (b v : str) :
  find_by_basename mapping b = Some v ->
  exists k, (k, v) ∈ mapping /\ PurePath.name k = b.
Proof.
  induction mapping as [|[k w] rest IH]; simpl; [done|].
  destruct (str_eqb (PurePath.name k) b) eqn:E.
  - apply str_eqb_eq in E. intros [= ->]. exists k. split; [|done].
    apply elem_of_cons; by left.
  - intros H. destruct (IH H) as (k' & Hk & Hn). exists k'. split; [|done].
    apply elem_of_cons; by right.
Qed.

Lemma find_by_basename_none (mapping : dict) (b k v : str) :
  find_by_basename mapping b = None -> (k, v) ∈ mapping ->
  PurePath.name k <> b.
Proof.
  induction mapping as [|[k' w] rest IH]; simpl.
  - intros _ H. by apply elem_of_nil in H.
  - destruct (str_eqb (PurePath.name k') b) eqn:E; [done|].
    apply str_eqb_neq in E. intros Hn H.
    apply elem_of_cons in H as [[= -> ->]|H]; auto.
Qed.

(** ** [repl] *)


Lemma repl_cases (mapping : dict) (m : rematch) :
  repl mapping m = group0 m \/
  exists k v, (k, v) ∈ mapping /\ repl mapping m = group0 (rewritten m v).
Proof.
  unfold repl.
  destruct (dict_get mapping (rewrite_key (g_val m))) as [v|] eqn:E.
  - right. apply dict_get_elem in E. by exists (rewrite_key (g_val m)), v.
  - destruct (find_by_basename mapping _) as [[|c v]|] eqn:F; [by left| |by left].
    right. apply find_by_basename_elem in F as (k & Hk & _).
    by exists k, (c :: v).
Qed.


(** ** Re-scanning a rewritten fragment *)


Lemma php_prefix_chars : stable_chars php_prefix.
Proof. apply (bool_decide_unpack _). by vm_compute. Qed.

Lemma php_prefix_cons : exists t, php_prefix = 60 :: t.
Proof. by eexists. Qed.

Section Rescan.
Variable mapping : dict.

Local Abbreviation R s := (replace_asset_paths_in_html s mapping).

Lemma match_attr_start (c : N) (s : str) :
  is_start c = false -> match_attr (c :: s) = None.
Proof.
  unfold is_start. intros [H1 H2]%orb_false_iff. unfold match_attr.
  destruct s as [|b [|d s]]; try done. rewrite H1. simpl.
  destruct s; [done|]. by rewrite H2.
Qed.

Lemma R_cons (c : N) (s : str) :
  is_start c = false -> R (c :: s) = c :: R s.
Proof.
  intros H. rewrite replace_eq. unfold match_at.
  by rewrite match_attr_start.
Qed.

Lemma R_app (p s : str) :
  Forall (fun c => is_start c = false) p -> R (p ++ s) = p ++ R s.
Proof.
  induction 1 as [|c p Hc Hp IH]; [done|]. simpl.
  rewrite R_cons by done. by rewrite IH.
Qed.

Lemma quote_not_start (c : N) : is_quote c = true -> is_start c = false.
Proof.
  unfold is_quote, dq, sq.
  intros [->%N.eqb_eq | ->%N.eqb_eq]%orb_true_iff; done.
Qed.

Lemma R_no_quote (s : str) : Forall not_quote s -> R s = s.
Proof.
  induction 1 as [|c s Hc Hs IH]; [done|].
  rewrite replace_eq.
  destruct (match_at (c :: s)) as [[m rest]|] eqn:E; [|by rewrite IH].
  apply match_at_inv in E as [E [_ _ _ Hq _ _ _]].
  assert (Hin : g_quote m ∈ c :: s).
  { rewrite E. unfold group0. change (py "=") with [61].
    rewrite !elem_of_app, !elem_of_cons. auto 10. }
  assert (Hall : Forall not_quote (c :: s)) by by constructor.
  rewrite Forall_forall in Hall. specialize (Hall _ Hin).
  unfold not_quote in Hall. congruence.
Qed.

Lemma repl_head (m : rematch) :
  exists t, repl mapping m = (g_attr m ++ [61; g_quote m]) ++ t.
Proof.
  destruct (repl_cases mapping m) as [->|(k & v & _ & ->)];
    unfold group0, rewritten; change (py "=") with [61]; simpl;
    eexists; by list_norm.
Qed.

(** The first five characters of a fragment are never changed. *)
Lemma R_take (n : nat) (s : str) :
  (n <= 5)%nat -> take n (R s) = take n s.
Proof.
  revert s. induction n as [|n IH]; intros s Hn; [done|].
  rewrite replace_eq.
  destruct (match_at s) as [[m rest]|] eqn:E.
  - apply match_at_inv in E as [-> Hwf].
    destruct (repl_head m) as [t ->].
    assert (group0 m = (g_attr m ++ [61; g_quote m]) ++ g_val m ++ [g_close m])
      as -> by (unfold group0; change (py "=") with [61]; by list_norm).
    pose proof (wf_attr_len _ Hwf).
    rewrite <- !(app_assoc (g_attr m ++ [61; g_quote m])).
    rewrite !(take_app_le (g_attr m ++ [61; g_quote m])); [done|..];
      rewrite length_app; simpl; lia.
  - destruct s as [|c s]; [done|]. simpl. rewrite IH by lia. done.
Qed.

Lemma match_attr_take (x y : str) :
  take 4 x = take 4 y -> match_attr x = None -> match_attr y = None.
Proof.
  destruct x as [|a [|b [|c [|d x]]]], y as [|a' [|b' [|c' [|d' y]]]];
    simpl; intros [=]; subst; try done.
  unfold match_attr.
  destruct (ilit 115 a' && ilit 114 b' && ilit 99 c'); [done|].
  by destruct (ilit 104 a' && ilit 114 b' && ilit 101 c' && ilit 102 d').
Qed.

(** A character at which no match starts is still one after the rest of
    the fragment has been rewritten. *)
Lemma match_at_literal (c : N) (s : str) :
  match_at (c :: s) = None -> match_at (c :: R s) = None.
Proof.
  intros H. unfold match_at in *.
  destruct (match_attr (c :: s)) as [[attr r]|] eqn:Ha.
  - apply match_attr_inv in Ha as (Hs & Hattr & Hlen & Htl).
    destruct attr as [|c' attr]; [simpl in Hlen; lia|].
    simpl in Hs, Htl. injection Hs as <- ->.
    rewrite R_app by done.
    change (c :: attr ++ R r) with ((c :: attr) ++ R r). rewrite Hattr.
    destruct r as [|e [|q r]].
    + done.
    + rewrite replace_eq. unfold match_at. simpl. done.
    + destruct ((e =? 61) && is_quote q) eqn:Eq.
      * apply andb_true_iff in Eq as [->%N.eqb_eq Hq].
        rewrite (R_cons 61) by done.
        rewrite (R_cons q) by by apply quote_not_start.
        rewrite N.eqb_refl, Hq. simpl.
        destruct (span_value r) as [val r2] eqn:Hsp.
        pose proof (span_value_inv _ _ _ Hsp) as (-> & Hval & Hr2).
        destruct val as [|v0 val].
        -- destruct r2 as [|q2 r2]; [done|]. simpl.
           rewrite (R_cons q2) by by apply quote_not_start.
           simpl. by rewrite Hr2.
        -- destruct r2 as [|q2 r2]; [|done].
           rewrite app_nil_r. rewrite R_no_quote by done.
           rewrite app_nil_r in Hsp. by rewrite Hsp.
      * pose proof (R_take 2 (e :: q :: r) ltac:(lia)) as Ht.
        destruct (R (e :: q :: r)) as [|e' [|q' r']]; simpl in Ht; try done.
        injection Ht as -> ->. by rewrite Eq.
  - assert (match_attr (c :: R s) = None) as ->; [|done].
    eapply match_attr_take; [|exact Ha]. simpl. f_equal.
    symmetry. apply R_take. lia.
Qed.

End Rescan.

(** ** Idempotence *)


Lemma lstrip_by_suffix (p : N -> bool) (s : str) (c : N) :
  c ∈ lstrip_by p s -> c ∈ s.
Proof.
  induction s as [|d s IH]; simpl; [done|].
  destruct (p d); [|done]. intros H. apply elem_of_cons. auto.
Qed.

Section Idempotence.
Variable mapping : dict.
Hypothesis Hstable : stable_mapping mapping.

Local Abbreviation R s := (replace_asset_paths_in_html s mapping).

Local Abbreviation value := asset_url.

Lemma value_chars (k v : str) (c : N) :
  (k, v) ∈ mapping -> c ∈ value v -> c <> backslash /\ is_quote c = false.
Proof.
  intros Hkv. unfold asset_url. rewrite !elem_of_app. intros [H|[H|H]].
  - pose proof php_prefix_chars as Hp. unfold stable_chars in Hp.
    rewrite Forall_forall in Hp. by destruct (Hp _ H) as (? & _ & ?).
  - revert c H. apply Forall_forall. apply (bool_decide_unpack _).
    by vm_compute.
  - apply lstrip_by_suffix in H. by eapply sm_chars.
Qed.

Lemma value_key (k v : str) : (k, v) ∈ mapping -> rewrite_key (value v) = value v.
Proof.
  intros Hkv. unfold rewrite_key.
  assert (lstrip (py "./") (value v) = value v) as ->.
  { unfold asset_url. destruct php_prefix_cons as [t ->]. done. }
  apply replace_char_absent. intros H.
  by destruct (value_chars _ _ _ Hkv H).
Qed.

Lemma value_name (k v : str) :
  (k, v) ∈ mapping -> PurePath.name (value v) = PurePath.name k.
Proof.
  intros Hkv. destruct (sm_name _ Hstable _ _ Hkv) as [Hn Hne].
  rewrite <- Hn in *. unfold PurePath.name in *. unfold asset_url.
  change (php_prefix ++ py "/assets/" ++ lstrip (py "/") v) with
    (php_prefix ++ slash :: (py "assets" ++ slash :: lstrip (py "/") v)).
  assert (Hslash : forall s, stable_chars s -> slash ∉ s).
  { intros s Hs Hin. unfold stable_chars in Hs. rewrite Forall_forall in Hs.
    by destruct (Hs _ Hin) as (_ & ? & _). }
  rewrite parts_app by (apply Hslash, php_prefix_chars).
  rewrite parts_app.
  2:{ apply Hslash. apply (bool_decide_unpack _). by vm_compute. }
  rewrite parts_lstrip_slash. rewrite app_assoc. apply last_app_ne.
  intros E. rewrite E in Hne. done.
Qed.

(** An attribute that was rewritten is left as it is. *)
Lemma repl_rewritten (m : rematch) (k v : str) :
  (k, v) ∈ mapping -> repl mapping (rewritten m v) = group0 (rewritten m v).
Proof.
  intros Hkv.
  assert (Hv : v <> []).
  { intros ->. destruct (sm_name _ Hstable _ _ Hkv) as [Hn Hne].
    rewrite <- Hn in Hne. done. }
  unfold repl. change (g_val (rewritten m v)) with (value v).
  rewrite (value_key _ _ Hkv), (value_name _ _ Hkv).
  destruct (dict_get mapping (value v)) as [v'|] eqn:E.
  - apply dict_get_elem in E.
    assert (v' = v) as ->; [|done].
    eapply (sm_uniq _ Hstable); [exact E | exact Hkv |].
    destruct (sm_name _ Hstable _ _ E) as [_ _]. 
    rewrite <- (value_name _ _ Hkv).
    (* the key [value v] has the base name of [k] *)
    done.
  - destruct (find_by_basename mapping (PurePath.name k)) as [v'|] eqn:F.
    + apply find_by_basename_elem in F as (k' & Hk' & Hn).
      assert (v' = v) as -> by (eapply (sm_uniq _ Hstable); eauto).
      by destruct v.
    + by destruct (find_by_basename_none _ _ _ _ F Hkv).
Qed.

Lemma rewritten_wf (m : rematch) (k v : str) :
  wf_match m -> (k, v) ∈ mapping -> wf_match (rewritten m v).
Proof.
  intros [Ha Hl Ht Hq _ _ _] Hkv.
  constructor; try done; cbn [rewritten g_val].
  apply Forall_forall. intros c Hc.
  by destruct (value_chars _ _ _ Hkv Hc).
Qed.

Lemma replace_idempotent (html : str) : R (R html) = R html.
Proof.
  remember (length html) as n eqn:Hn. revert html Hn.
  induction n as [n IH] using lt_wf_ind. intros s ->.
  rewrite (replace_eq s).
  destruct (match_at s) as [[m rest]|] eqn:E.
  - pose proof (match_at_length _ _ _ E) as Hlen.
    apply match_at_inv in E as [-> Hwf].
    destruct (repl_cases mapping m) as [Hr|(k & v & Hkv & Hr)].
    + rewrite Hr. rewrite replace_eq, match_at_group0 by done.
      rewrite Hr. f_equal. by eapply IH.
    + rewrite Hr. rewrite replace_eq, match_at_group0
        by by eapply rewritten_wf.
      rewrite (repl_rewritten _ _ _ Hkv). f_equal. by eapply IH.
  - destruct s as [|c s]; [done|].
    rewrite replace_eq, match_at_literal by done.
    f_equal. eapply IH; [|done]. simpl; lia.
Qed.

End Idempotence.

(** ** The rewriter and its mapping *)


Lemma startswith_cons_ne (c d : N) (s p : str) :
  d <> c -> startswith (c :: s) (d :: p) = false.
Proof. intros H. simpl. apply N.eqb_neq in H. by rewrite H. Qed.



(** C1, evaluated on the code. The script reference is a remote URL
    ([is_remote] holds of it), the mapping is the one [copy_assets] builds
    for the local file [js/app.js], and yet
    [replace_asset_paths_in_html] rewrites the remote reference to the local
    asset: the rewriter never consults [is_remote], and the base name
    [app.js] of the URL is the base name of a mapping key. *)
Lemma remote_reference_rewritten :
  let url := py "https://cdn.example.com/app.js" in
  let mapping := [(py "js/app.js", py "js/app.js")] in
  let html := py "<script src=" ++ [dq] ++ url ++ [dq] ++ py "></script>" in
  is_remote url = true /\
  inl (ReMatch (py "src") dq url dq) ∈ scan html /\
  replace_asset_paths_in_html html mapping =
    py "<script src=" ++ [dq] ++ php_prefix ++ py "/assets/js/app.js"
      ++ [dq] ++ py "></script>" /\
  replace_asset_paths_in_html html mapping <> html.
Proof.
  cbv zeta. split; [by vm_compute|]. split; [|split].
  - apply (bool_decide_unpack _). by vm_compute.
  - by vm_compute.
  - by vm_compute.
Qed.


(** The scan of a string is a partition of it: the texts of the matches
    and the characters between them, in order, give the string back. *)
Lemma scan_text (s : str) : List.flat_map (render []) (scan s) = s.
Proof.
  remember (length s) as n eqn:Hn. revert s Hn.
  induction n as [n IH] using lt_wf_ind. intros s ->. rewrite scan_eq.
  destruct (match_at s) as [[m rest]|] eqn:E.
  - pose proof (match_at_length _ _ _ E) as Hlen.
    apply match_at_inv in E as [-> _]. simpl.
    by rewrite (IH (length rest)).
  - destruct s as [|c s]; [done|]. simpl. f_equal.
    apply (IH (length s)); [simpl; lia|done].
Qed.





(** C5, evaluated on the code. The value [../img/logo.png] does not
    begin with [./], and yet normalization removes its leading [../]:
    [lstrip] is given the set of the characters [.] and [/], where the
    comment above the call speaks of a leading [./] or [/]. The locator
    therefore takes the reference to a file beside the site folder for the
    file [img/logo.png] inside it, and the rewriter looks up the key
    [img/logo.png]. *)
Lemma normalization_strips_parent_prefix :
  let val := py "../img/logo.png" in
  let soup :=
    Tag (py "[document]") [] [Tag (py "img") [(py "src", AttrStr val)] []] in
  let fs : FS := {[ [py "img"] := Dir;
                    [py "img"; py "logo.png"] := File [1];
                    [py "site"] := Dir;
                    [py "site"; py "img"] := Dir;
                    [py "site"; py "img"; py "logo.png"] := File [2] ]} in
  startswith val (py "./") = false /\
  lstrip (py "./") val = py "img/logo.png" /\
  rewrite_key val = py "img/logo.png" /\
  resolve fs ([py "site"] ++ PurePath.parts val) = inr [py "img"; py "logo.png"] /\
  collect_local_assets soup [py "site"] fs = [[py "site"; py "img"; py "logo.png"]].
Proof. cbv zeta. repeat split; by vm_compute. Qed.

(** C6 as stated fails. Two assets share the base name [x.css]; the first
    pass rewrites the reference to [b/x.css] through its exact key; the
    second pass finds no key equal to the rewritten value, falls back to its
    base name and takes the first entry, the one of [a/x.css]. *)
Lemma second_pass_alters_rewritten_value :
  let mapping := [(py "a/x.css", py "a/x.css"); (py "b/x.css", py "b/x.css")] in
  let once := replace_asset_paths_in_html (py "<link href='b/x.css'>") mapping in
  once = py "<link href='" ++ php_prefix ++ py "/assets/b/x.css'>" /\
  replace_asset_paths_in_html once mapping =
    py "<link href='" ++ php_prefix ++ py "/assets/a/x.css'>" /\
  replace_asset_paths_in_html once mapping <> once.
Proof. by vm_compute. Qed.

(** C6, amended. When every value of the mapping keeps the non-empty file
    name of its key and holds neither a backslash nor a quote, and keys with
    the same base name carry the same value, rewriting an already-rewritten
    fragment again with the same mapping returns it unchanged. *)
Theorem rewriting_twice (html : str) (mapping : dict) :
  stable_mapping mapping ->
  replace_asset_paths_in_html (replace_asset_paths_in_html html mapping) mapping
  = replace_asset_paths_in_html html mapping.
Proof. intros H. by apply replace_idempotent. Qed.

Lemma rewriting_twice_witness :
  let mapping := [(py "css/site.css", py "css/site.css")] in
  let html := py "<link href='./css/site.css'>" in
  replace_asset_paths_in_html (replace_asset_paths_in_html html mapping) mapping
  = replace_asset_paths_in_html html mapping.
Proof.
  cbv zeta. apply rewriting_twice. constructor.
  - intros k v [= -> ->]%list_elem_of_singleton. by vm_compute.
  - intros k v c [= -> ->]%list_elem_of_singleton. revert c.
    apply Forall_forall. apply (bool_decide_unpack _). by vm_compute.
  - by intros k1 v1 k2 v2 [= -> ->]%list_elem_of_singleton
                         [= -> ->]%list_elem_of_singleton.
Defined.

(** ** Computations *)

Lemma bind_unfold {A B} (m : M A) (f : A -> M B) (fs : FS) :
  (m ≫= f) fs =
  match m fs with
  | (Ok a, fs') => f a fs'
  | (Raise e, fs') => (Raise e, fs')
  end.
Proof. done. Qed.

Lemma bind_ok {A B} (m : M A) (f : A -> M B) (fs fs' : FS) (a : A) :
  m fs = (Ok a, fs') -> (m ≫= f) fs = f a fs'.
Proof. intros H. by rewrite bind_unfold, H. Qed.

Lemma bind_raise {A B} (m : M A) (f : A -> M B) (fs fs' : FS) (e : exn) :
  m fs = (Raise e, fs') -> (m ≫= f) fs = (Raise e, fs').
Proof. intros H. by rewrite bind_unfold, H. Qed.

Lemma bind_ok_inv {A B} (m : M A) (f : A -> M B) (fs fs' : FS) (b : B) :
  (m ≫= f) fs = (Ok b, fs') ->
  exists a fs0, m fs = (Ok a, fs0) /\ f a fs0 = (Ok b, fs').
Proof.
  rewrite bind_unfold. destruct (m fs) as [[a|e] fs0]; [|done]. eauto.
Qed.

(** ** Path resolution *)

Lemma fs_get_mono (fs fs' : FS) (p : path) (e : entry) :
  fs ⊆ fs' -> fs_get fs p = Some e -> fs_get fs' p = Some e.
Proof.
  intros Hsub. destruct p; [done|]. simpl. intros H. by eapply lookup_weaken.
Qed.

Lemma resolve_from_mono (fs fs' : FS) (cur comps r : path) :
  fs ⊆ fs' -> resolve_from fs cur comps = inr r ->
  resolve_from fs' cur comps = inr r.
Proof.
  intros Hsub. revert cur. induction comps as [|c comps IH]; intros cur; [done|].
  simpl. destruct (fs_get fs cur) as [[|]|] eqn:E; try done.
  rewrite (fs_get_mono _ _ _ _ Hsub E). apply IH.
Qed.

Lemma path_exists_mono (fs fs' : FS) (p : path) :
  fs ⊆ fs' -> path_exists fs p = true -> path_exists fs' p = true.
Proof.
  intros Hsub. unfold path_exists, resolve.
  destruct (resolve_from fs [] p) as [|r] eqn:E; [done|].
  rewrite (resolve_from_mono _ _ _ _ _ Hsub E).
  intros [e He]%bool_decide_eq_true. apply bool_decide_eq_true.
  exists e. by eapply fs_get_mono.
Qed.

Lemma rmtree_subseteq (p : path) (fs fs' : FS) (r : result unit) :
  rmtree p fs = (r, fs') -> fs' ⊆ fs.
Proof.
  unfold rmtree. destruct (resolve fs p) as [|q]; [by intros [= _ <-]|].
  destruct (fs_get fs q) as [[|]|]; intros [= _ <-]; try done.
  apply map_filter_subseteq.
Qed.

(** ** Conversion without its input, and without a head *)

Section ConversionFacts.
Variable E : collaborators.

Lemma load_site_missing (site_dir out_dir : path) (fs : FS) :
  path_exists fs (site_dir ++ [py "index.html"]) = false ->
  load_site E site_dir out_dir fs =
  (Raise (FileNotFoundError (py "index.html not found in " ++ path_str site_dir)),
   fs).
Proof. intros H. unfold load_site. rewrite bind_unfold. unfold gets. by rewrite H. Qed.

Lemma generate_theme_missing (site_dir out_dir : path) (fs : FS) :
  path_exists fs (site_dir ++ [py "index.html"]) = false ->
  generate_theme E site_dir out_dir fs =
  (Raise (FileNotFoundError (py "index.html not found in " ++ path_str site_dir)),
   fs).
Proof.
  intros H. unfold generate_theme.
  by rewrite (bind_raise _ _ _ _ _ (load_site_missing _ out_dir _ H)).
Qed.

Lemma load_site_soup (site_dir out_dir : path) (fs fs1 : FS) (soup : node)
    (mapping : dict) :
  load_site E site_dir out_dir fs = (Ok (soup, mapping), fs1) ->
  exists text fs0,
    read_text E (site_dir ++ [py "index.html"]) fs = (Ok text, fs0)
    /\ soup = remove_comments (html_parser E text).
Proof.
  unfold load_site. rewrite bind_unfold. unfold gets at 1.
  destruct (path_exists fs _); simpl; [|done].
  intros (text & fs0 & Hread & H)%bind_ok_inv. exists text, fs0.
  split; [done|].
  apply bind_ok_inv in H as (_ & ? & _ & H).
  apply bind_ok_inv in H as (_ & ? & _ & H).
  apply bind_ok_inv in H as (? & ? & _ & H).
  apply bind_ok_inv in H as (? & ? & _ & H).
  by injection H as -> _ _.
Qed.

Lemma emit_theme_no_head (soup : node) (mapping : dict)
    (site_dir out_dir : path) (fs : FS) :
  find (py "head") soup = None ->
  emit_theme E soup mapping site_dir out_dir fs =
  (Raise (UnboundLocalError (py "head_inner")), fs).
Proof.
  intros H. unfold emit_theme. apply bind_raise. unfold head_part. by rewrite H.
Qed.

End ConversionFacts.

(** ** Missing input *)

(** C4. On a site directory without [index.html], [generate_theme] raises
    the [FileNotFoundError] that names the missing input and leaves the file
    system as it was: nothing is created under the output path. So does
    [main]: its final file system holds nothing that was not there before,
    and it ends with that error, unless the output folder existed and the
    user declined to overwrite it or its removal failed. *)
Theorem missing_index_html (E : collaborators) (site_dir out_dir : path)
    (fs : FS) :
  path_exists fs (site_dir ++ [py "index.html"]) = false ->
  let missing : result unit :=
    Raise (FileNotFoundError (py "index.html not found in " ++ path_str site_dir)) in
  generate_theme E site_dir out_dir fs = (missing, fs)
  /\ forall answer r fs',
       main E site_dir out_dir answer fs = (r, fs') ->
       fs' ⊆ fs
       /\ (path_exists fs out_dir = false -> r = missing /\ fs' = fs)
       /\ (r = missing
           \/ (r = Ok tt /\ fs' = fs /\ lower answer <> py "y")
           \/ exists e, rmtree out_dir fs = (Raise e, fs')).
Proof.
  intros Hmiss missing. split; [by apply generate_theme_missing|].
  intros answer r fs'. unfold main. rewrite bind_unfold. unfold gets.
  destruct (path_exists fs out_dir) eqn:Hout.
  - destruct (str_eqb (lower answer) (py "y")) eqn:Hans; simpl.
    + rewrite bind_unfold.
      destruct (rmtree out_dir fs) as [[[]|e] fs1] eqn:Hrm.
      * pose proof (rmtree_subseteq _ _ _ _ Hrm) as Hsub.
        rewrite generate_theme_missing.
        -- intros [= <- <-]. split; [done|]. split; [done|]. by left.
        -- destruct (path_exists fs1 _) eqn:Hex; [|done].
           by rewrite (path_exists_mono _ _ _ Hsub Hex) in Hmiss.
      * intros [= <- <-]. pose proof (rmtree_subseteq _ _ _ _ Hrm) as Hsub.
        split; [done|]. split; [done|]. right; right. by exists e.
    + intros [= <- <-]. split; [done|]. split; [done|]. right; left.
      apply str_eqb_neq in Hans. done.
  - rewrite generate_theme_missing by done. intros [= <- <-].
    split; [done|]. split; [done|]. by left.
Qed.

Lemma missing_index_html_witness :
  let E := example_collaborators (Tag (py "[document]") [] []) in
  let fs : FS := {[ [py "site"] := Dir ]} in
  generate_theme E [py "site"] [py "site"; py "rmk-theme"] fs
  = (Raise (FileNotFoundError (py "index.html not found in /site")), fs).
Proof.
  cbv zeta.
  apply (missing_index_html (example_collaborators (Tag (py "[document]") [] []))
           [py "site"] [py "site"; py "rmk-theme"] {[ [py "site"] := Dir ]}).
  by vm_compute.
Defined.

(** ** A document without a head *)

(** C10. When the parsed document has no [head] tag, the part of
    [generate_theme] that extracts the fragments and writes the template
    files raises [UnboundLocalError] for [head_inner] at once and leaves the
    file system untouched; so [generate_theme] ends with that exception in
    the state its first part left, or with the exception of its first part,
    and never returns. Hence the branch that takes the whole document as the
    main fragment, like every other branch of the decomposition, is reached
    only when the document has a head. *)
Theorem document_without_head (E : collaborators) (soup : node)
    (site_dir out_dir : path) :
  find (py "head") soup = None ->
  (forall mapping fs,
     emit_theme E soup mapping site_dir out_dir fs
     = (Raise (UnboundLocalError (py "head_inner")), fs))
  /\ (forall mapping fs fs1,
        load_site E site_dir out_dir fs = (Ok (soup, mapping), fs1) ->
        generate_theme E site_dir out_dir fs
        = (Raise (UnboundLocalError (py "head_inner")), fs1))
  /\ (forall fs text,
        read_text E (site_dir ++ [py "index.html"]) fs = (Ok text, fs) ->
        remove_comments (html_parser E text) = soup ->
        exists e fs', generate_theme E site_dir out_dir fs = (Raise e, fs')).
Proof.
  intros Hhead. split; [|split].
  - intros mapping fs. by apply emit_theme_no_head.
  - intros mapping fs fs1 Hload. unfold generate_theme.
    rewrite (bind_ok _ _ _ _ _ Hload). by apply emit_theme_no_head.
  - intros fs text Hread Hsoup. unfold generate_theme. rewrite bind_unfold.
    destruct (load_site E site_dir out_dir fs) as [[[soup' mapping]|e] fs1] eqn:Hload;
      [|by eauto].
    assert (soup' = soup) as ->.
    { apply load_site_soup in Hload as (text' & fs0 & Hread' & ->).
      rewrite Hread in Hread'. by injection Hread' as <- _. }
    rewrite emit_theme_no_head by done. eauto.
Qed.

Lemma document_without_head_witness :
  let soup := Tag (py "[document]") []
                [Tag (py "p") [] [NavigableString Text (py "hello")]] in
  emit_theme (example_collaborators soup) soup []
    [py "site"] [py "site"; py "rmk-theme"] ∅
  = (Raise (UnboundLocalError (py "head_inner")), ∅).
Proof.
  cbv zeta.
  refine (proj1 (document_without_head
                   (example_collaborators _)
                   (Tag (py "[document]") []
                      [Tag (py "p") [] [NavigableString Text (py "hello")]])
                   [py "site"] [py "site"; py "rmk-theme"] _) [] ∅).
  by vm_compute.
Defined.

(** ** Decomposition *)

Lemma find_app_none {A} (f : A -> bool) (l1 l2 : list A) :
  List.find f l1 = None -> List.find f (l1 ++ l2) = List.find f l2.
Proof.
  induction l1 as [|x l1 IH]; [done|]. simpl. destruct (f x); [done|]. exact IH.
Qed.

(** ** The located assets *)

Lemma set_add_elem (x c : path) (l : list path) :
  x ∈ set_add c l <-> x = c \/ x ∈ l.
Proof.
  unfold set_add. case_bool_decide as Hc.
  - split; [auto|]. by intros [->|?].
  - rewrite elem_of_app, list_elem_of_singleton. tauto.
Qed.

Lemma collect_attr_elem (site_dir : path) (fs : FS) (tag : node)
    (assets : list path) (attr : str) (p : path) :
  p ∈ collect_attr site_dir fs tag assets attr <->
  p ∈ assets \/
  exists val, accepted site_dir fs tag attr val
              /\ p = joinpath site_dir (lstrip (py "./") val).
Proof.
  unfold collect_attr, accepted.
  destruct (tag_attr tag attr) as [[val|l]|] eqn:Ha.
  - destruct (is_remote val) eqn:Hr.
    { split; [auto|]. intros [?|(v & (? & ? & _) & _)]; [done|]. congruence. }
    case_bool_decide as Hext.
    2:{ split; [auto|]. intros [?|(v & (? & ? & ? & _) & _)]; [done|].
        by simplify_eq. }
    destruct (path_exists fs _) eqn:Hex.
    + rewrite set_add_elem. split.
      * intros [->|?]; [|auto]. right. by exists val.
      * intros [?|(v & (? & _) & ->)]; [auto|]. left. by simplify_eq.
    + split; [auto|]. intros [?|(v & (? & ? & ? & ?) & _)]; [done|].
      simplify_eq. congruence.
  - split; [auto|]. by intros [?|(v & (? & _) & _)].
  - split; [auto|]. by intros [?|(v & (? & _) & _)].
Qed.

Lemma collect_elem (soup : node) (site_dir : path) (fs : FS) (p : path) :
  p ∈ collect_local_assets soup site_dir fs <->
  exists tag attr val,
    tag ∈ find_all soup /\ attr ∈ [py "src"; py "href"]
    /\ accepted site_dir fs tag attr val
    /\ p = joinpath site_dir (lstrip (py "./") val).
Proof.
  unfold collect_local_assets.
  assert (H : forall tags assets,
    p ∈ fold_left (fun assets tag =>
                     fold_left (collect_attr site_dir fs tag)
                               [py "src"; py "href"] assets) tags assets <->
    p ∈ assets \/
    exists tag attr val,
      tag ∈ tags /\ attr ∈ [py "src"; py "href"]
      /\ accepted site_dir fs tag attr val
      /\ p = joinpath site_dir (lstrip (py "./") val)).
  { induction tags as [|tag tags IH]; intros assets; simpl.
    - split; [auto|]. intros [?|(? & ? & ? & H & _)]; [done|].
      by apply elem_of_nil in H.
    - rewrite IH, !collect_attr_elem. split.
      + intros [[[?|(val & Hv & ->)]|(val & Hv & ->)]|(tag' & attr & val & Ht & Hrest)].
        * auto.
        * right. exists tag, (py "src"), val.
          split; [apply list_elem_of_here|].
          split; [apply list_elem_of_here|done].
        * right. exists tag, (py "href"), val.
          split; [apply list_elem_of_here|].
          split; [apply list_elem_of_further, list_elem_of_here|done].
        * right. exists tag', attr, val.
          split; [by apply list_elem_of_further|done].
      + intros [?|(tag' & attr & val & Ht & Hattr & Hv & ->)]; [auto|].
        apply elem_of_cons in Ht as [->|Ht].
        * left. apply elem_of_cons in Hattr as [->|Hattr].
          -- left. right. by exists val.
          -- apply list_elem_of_singleton in Hattr as ->. right. by exists val.
        * right. by exists tag', attr, val. }
  rewrite H. split; [|auto]. intros [Hnil|?]; [|done]. by apply elem_of_nil in Hnil.
Qed.

Lemma lstrip_dot_slash_rel (val : str) :
  startswith (lstrip (py "./") val) (py "/") = false.
Proof.
  unfold lstrip. change (py "./") with [dot; slash]. change (py "/") with [slash].
  pose proof (lstrip_by_head (fun c => mem c [dot; slash]) val) as H.
  destruct (lstrip_by _ val) as [|c r]; [done|].
  rewrite startswith_char. rewrite !mem_cons in H.
  apply orb_false_iff in H as [_ H]. apply orb_false_iff in H as [H _].
  by rewrite N.eqb_sym.
Qed.

Lemma joinpath_cleaned (site_dir : path) (val : str) :
  joinpath site_dir (lstrip (py "./") val)
  = site_dir ++ PurePath.parts (lstrip (py "./") val).
Proof. unfold joinpath. by rewrite lstrip_dot_slash_rel. Qed.

Lemma name_suffix_nil : PurePath.name_suffix [] = [].
Proof. done. Qed.

Lemma path_suffix_join (site_dir : path) (s : str) :
  PurePath.suffix s <> [] ->
  path_suffix (site_dir ++ PurePath.parts s) = PurePath.suffix s.
Proof.
  unfold path_suffix, PurePath.suffix, PurePath.name, path_name. intros H.
  rewrite last_app_ne; [done|]. intros E. rewrite E in H. by apply H.
Qed.

(** ** Resolution of paths without [..] *)

Lemma walk_step_plain (cur : path) (c : str) :
  c <> py ".." -> walk_step cur c = cur ++ [c].
Proof. intros H. unfold walk_step. by apply str_eqb_neq in H as ->. Qed.

Lemma resolve_from_plain (fs : FS) (cur comps : path) :
  plain comps ->
  match resolve_from fs cur comps with
  | inr r => r = cur ++ comps
             /\ forall q, q `prefix_of` comps -> q <> comps ->
                          fs_get fs (cur ++ q) = Some Dir
  | inl ENOENT => exists q, q `prefix_of` comps /\ q <> comps
                            /\ fs_get fs (cur ++ q) = None
  | inl ENOTDIR => exists q c, q `prefix_of` comps /\ q <> comps
                               /\ fs_get fs (cur ++ q) = Some (File c)
  end.
Proof.
  intros Hp. revert cur. induction Hp as [|c comps Hc Hp IH]; intros cur.
  - simpl. split; [by rewrite app_nil_r|]. intros q Hq%prefix_nil_inv. done.
  - simpl. destruct (fs_get fs cur) as [[content|]|] eqn:E.
    + exists [], content. rewrite app_nil_r.
      split; [apply prefix_nil|]. by split.
    + rewrite walk_step_plain by done. specialize (IH (cur ++ [c])).
      destruct (resolve_from fs (cur ++ [c]) comps) as [[|]|r].
      * destruct IH as (q & Hq & Hne & Hget). exists (c :: q).
        rewrite <- app_assoc in Hget.
        split; [by apply prefix_cons|]. split; [congruence|done].
      * destruct IH as (q & content & Hq & Hne & Hget). exists (c :: q), content.
        rewrite <- app_assoc in Hget.
        split; [by apply prefix_cons|]. split; [congruence|done].
      * destruct IH as [-> IH]. split; [by rewrite <- app_assoc|].
        intros [|c' q] Hq Hne; [by rewrite app_nil_r|].
        apply prefix_cons_inv_1 in Hq as Hcc. subst c'.
        apply prefix_cons_inv_2 in Hq.
        assert (Hne' : q <> comps) by congruence.
        specialize (IH q Hq Hne'). by rewrite <- app_assoc in IH.
    + exists []. rewrite app_nil_r. split; [apply prefix_nil|]. by split.
Qed.

Lemma resolve_plain_ok (fs : FS) (p : path) :
  plain p -> dirs_to fs p -> resolve fs p = inr p.
Proof.
  intros Hp Hd. pose proof (resolve_from_plain fs [] p Hp) as H.
  unfold resolve. destruct (resolve_from fs [] p) as [[|]|r].
  - destruct H as (q & Hq & Hne & Hget). simpl in Hget.
    by rewrite (Hd q Hq Hne) in Hget.
  - destruct H as (q & c & Hq & Hne & Hget). simpl in Hget.
    by rewrite (Hd q Hq Hne) in Hget.
  - by destruct H as [-> _].
Qed.

Lemma resolve_plain_inv (fs : FS) (p r : path) :
  plain p -> resolve fs p = inr r -> r = p /\ dirs_to fs p.
Proof.
  intros Hp Hr. pose proof (resolve_from_plain fs [] p Hp) as H.
  unfold resolve in Hr. rewrite Hr in H. done.
Qed.

Lemma read_bytes_plain (fs : FS) (p : path) (content : list N) :
  plain p ->
  read_bytes p fs = (Ok content, fs)
  <-> dirs_to fs p /\ fs_get fs p = Some (File content).
Proof.
  intros Hp. unfold read_bytes. split.
  - destruct (resolve fs p) as [e|r] eqn:Hr; [done|].
    apply resolve_plain_inv in Hr as [-> Hd]; [|done].
    destruct (fs_get fs p) as [[c|]|]; [|done..]. by intros [= ->].
  - intros [Hd Hget]. by rewrite (resolve_plain_ok _ _ Hp Hd), Hget.
Qed.

Lemma read_bytes_fst (fs : FS) (p : path) (content : list N) :
  (read_bytes p fs).1 = Ok content <-> read_bytes p fs = (Ok content, fs).
Proof.
  split; [|by intros ->]. unfold read_bytes.
  destruct (resolve fs p); [done|].
  destruct (fs_get fs _) as [[c|]|]; [|done..]. by intros [= ->].
Qed.

Lemma is_dir_plain (fs : FS) (p : path) :
  plain p -> dirs_to fs p ->
  is_dir fs p = bool_decide (fs_get fs p = Some Dir).
Proof. intros Hp Hd. unfold is_dir. by rewrite (resolve_plain_ok _ _ Hp Hd). Qed.

(** C8 as stated fails. The document refers to [x.css], which is a
    directory of the site folder, and to [a/../../logo.png], which is a
    file beside the site folder: [collect_local_assets] returns both paths.
    The first is no file, and the second, though it is written under the
    site root, resolves outside it. *)
Lemma collected_directory_and_outside_file :
  let soup :=
    Tag (py "[document]") []
      [Tag (py "link") [(py "href", AttrStr (py "x.css"))] [];
       Tag (py "img") [(py "src", AttrStr (py "a/../../logo.png"))] []] in
  let fs : FS := {[ [py "logo.png"] := File [1];
                    [py "site"] := Dir;
                    [py "site"; py "a"] := Dir;
                    [py "site"; py "x.css"] := Dir ]} in
  let outside := [py "site"; py "a"; py ".."; py ".."; py "logo.png"] in
  collect_local_assets soup [py "site"] fs = [[py "site"; py "x.css"]; outside]
  /\ fs !! [py "site"; py "x.css"] = Some Dir
  /\ resolve fs outside = inr [py "logo.png"]
  /\ ~ [py "site"] `prefix_of` [py "logo.png"].
Proof.
  cbv zeta. split; [by vm_compute|]. split; [by vm_compute|].
  split; [by vm_compute|]. apply (bool_decide_eq_false_1 _). by vm_compute.
Qed.

(** C8, amended. A path is in the result of [collect_local_assets]
    exactly when it is the site root joined with a [src] or [href] string
    value of a tag of the document, stripped of its leading [.] and [/]
    characters, where the value is not remote, the suffix of the stripped
    value is in lower case in [ASSET_EXTS], and the path exists in the file
    system that is scanned; so a remote value or a candidate that does not
    exist adds nothing. Every path of the result has a suffix that in lower
    case is in [ASSET_EXTS], exists as a file or a directory, and is written
    under the site root; when it has no [..] component the entry is at that
    very path, hence under the site root. *)
Theorem collected_assets (soup : node) (site_dir : path) (fs : FS) (p : path) :
  (p ∈ collect_local_assets soup site_dir fs <->
   exists tag attr val,
     tag ∈ find_all soup /\ attr ∈ [py "src"; py "href"]
     /\ tag_attr tag attr = Some (AttrStr val)
     /\ is_remote val = false
     /\ lower (PurePath.suffix (lstrip (py "./") val)) ∈ ASSET_EXTS
     /\ path_exists fs (site_dir ++ PurePath.parts (lstrip (py "./") val)) = true
     /\ p = site_dir ++ PurePath.parts (lstrip (py "./") val))
  /\ (p ∈ collect_local_assets soup site_dir fs ->
      lower (path_suffix p) ∈ ASSET_EXTS
      /\ path_exists fs p = true
      /\ site_dir `prefix_of` p
      /\ (plain p -> resolve fs p = inr p /\ is_Some (fs_get fs p))).
Proof.
  split.
  - rewrite collect_elem. unfold accepted.
    split; intros (tag & attr & val & H); exists tag, attr, val;
      rewrite joinpath_cleaned in *; tauto.
  - intros (tag & attr & val & Ht & Ha & (Hattr & Hr & Hext & Hex) & ->)%collect_elem.
    rewrite joinpath_cleaned in *.
    split; [|split; [done|split]].
    + rewrite path_suffix_join; [done|].
      intros E. rewrite E in Hext. revert Hext. apply (bool_decide_eq_false_1 _).
      by vm_compute.
    + by eexists.
    + intros Hp. unfold path_exists in Hex.
      destruct (resolve fs _) as [|r] eqn:Hres; [done|].
      apply resolve_plain_inv in Hres as [-> _]; [|done].
      split; [done|]. by apply bool_decide_eq_true in Hex.
Qed.

Lemma collected_assets_witness :
  let soup :=
    Tag (py "[document]") []
      [Tag (py "img") [(py "src", AttrStr (py "./img/logo.PNG"))] []] in
  let fs : FS := {[ [py "site"] := Dir; [py "site"; py "img"] := Dir;
                    [py "site"; py "img"; py "logo.PNG"] := File [137; 80] ]} in
  let p := [py "site"; py "img"; py "logo.PNG"] in
  lower (path_suffix p) ∈ ASSET_EXTS /\ path_exists fs p = true
  /\ resolve fs p = inr p /\ is_Some (fs_get fs p).
Proof.
  cbv zeta.
  destruct (collected_assets
    (Tag (py "[document]") []
       [Tag (py "img") [(py "src", AttrStr (py "./img/logo.PNG"))] []])
    [py "site"]
    ({[ [py "site"] := Dir; [py "site"; py "img"] := Dir;
        [py "site"; py "img"; py "logo.PNG"] := File [137; 80] ]} : FS)
    [py "site"; py "img"; py "logo.PNG"]) as (_ & H).
  destruct H as (H1 & H2 & _ & H3).
  - apply (bool_decide_unpack _). by vm_compute.
  - split; [done|]. split; [done|]. apply H3. repeat constructor; by vm_compute.
Defined.

(** C3 as stated fails. The body holds a header, a main and a footer tag
    around the texts [H], [M] and [F]; the fragments extracted are the
    serialized tags, their own start and end tags included, and they differ
    from [H], [M] and [F] by more than whitespace. *)
Lemma fragments_keep_their_tags :
  let body :=
    Tag (py "body") []
      [Tag (py "header") [] [NavigableString Text (py "H")];
       Tag (py "main") [] [NavigableString Text (py "M")];
       Tag (py "footer") [] [NavigableString Text (py "F")]] in
  header_part body [] = py "<header>H</header>"
  /\ main_part body [] = py "<main>M</main>"
  /\ footer_part body [] = py "<footer>F</footer>"
  /\ ~ same_modulo_space (header_part body []) (py "H")
  /\ ~ same_modulo_space (main_part body []) (py "M")
  /\ ~ same_modulo_space (footer_part body []) (py "F").
Proof. by vm_compute. Qed.

(** C3, amended. For a body whose contents are a header tag, a main tag
    and a footer tag, in that order, with no main or footer tag inside the
    header and no footer tag inside the main, the header, main and footer
    fragments are the serializations of the three tags, their own start and
    end tags included, with the asset references rewritten. *)
Theorem body_decomposition (battrs hattrs mattrs fattrs : list (str * attr_value))
    (H M F : list node) (mapping : dict) :
  let header_tag := Tag (py "header") hattrs H in
  let main_tag := Tag (py "main") mattrs M in
  let footer_tag := Tag (py "footer") fattrs F in
  let body := Tag (py "body") battrs [header_tag; main_tag; footer_tag] in
  find (py "main") header_tag = None ->
  find (py "footer") header_tag = None ->
  find (py "footer") main_tag = None ->
  header_part body mapping = replace_asset_paths_in_html (decode header_tag) mapping
  /\ main_part body mapping = replace_asset_paths_in_html (decode main_tag) mapping
  /\ footer_part body mapping = replace_asset_paths_in_html (decode footer_tag) mapping.
Proof.
  intros header_tag main_tag footer_tag body Hm Hf Hf'.
  assert (Hd : descendants body =
    header_tag :: descendants header_tag
    ++ main_tag :: descendants main_tag
    ++ footer_tag :: descendants footer_tag).
  { simpl. by rewrite app_nil_r. }
  unfold header_part, main_part, footer_part, find in *. rewrite Hd.
  split; [|split].
  - done.
  - change (List.find _ (header_tag :: ?l)) with (List.find (named (py "main")) l).
    rewrite find_app_none by done. done.
  - change (List.find _ (header_tag :: ?l)) with (List.find (named (py "footer")) l).
    rewrite find_app_none by done.
    change (List.find _ (main_tag :: ?l)) with (List.find (named (py "footer")) l).
    rewrite find_app_none by done. done.
Qed.

Lemma body_decomposition_witness :
  let header_tag :=
    Tag (py "header") [] [Tag (py "img") [(py "src", AttrStr (py "logo.png"))] []] in
  let body :=
    Tag (py "body") []
      [header_tag; Tag (py "main") [] [NavigableString Text (py "M")];
       Tag (py "footer") [] []] in
  header_part body [(py "logo.png", py "logo.png")]
  = py "<header><img src=" ++ [dq] ++ php_prefix ++ py "/assets/logo.png"
    ++ [dq] ++ py "/></header>".
Proof.
  cbv zeta.
  destruct (body_decomposition [] [] [] []
    [Tag (py "img") [(py "src", AttrStr (py "logo.png"))] []]
    [NavigableString Text (py "M")] [] [(py "logo.png", py "logo.png")])
    as (H & _); [by vm_compute..|].
  rewrite H. by vm_compute.
Defined.

(** ** Splitting and joining *)

Lemma split_slash_app_gen (x y : str) :
  split_slash (x ++ slash :: y) = split_slash x ++ split_slash y.
Proof.
  induction x as [|c x IH]; [done|]. simpl.
  destruct (c =? slash); [by rewrite IH|].
  rewrite IH. pose proof (split_slash_ne x) as Hne.
  by destruct (split_slash x).
Qed.

Lemma split_slash_plain (c : str) : slash ∉ c -> split_slash c = [c].
Proof.
  induction c as [|a c IH]; [done|]. intros [Ha Hc]%not_elem_of_cons. simpl.
  destruct (N.eqb_spec a slash) as [->|_]; [done|]. by rewrite IH.
Qed.

Lemma join_cons (sep p : str) (ps : list str) :
  ps <> [] -> join sep (p :: ps) = p ++ sep ++ join sep ps.
Proof. by destruct ps. Qed.

Lemma join_split_slash (y : str) : join [slash] (split_slash y) = y.
Proof.
  induction y as [|c y IH]; [done|]. simpl.
  pose proof (split_slash_ne y) as Hne.
  destruct (c =? slash) eqn:E.
  - apply N.eqb_eq in E as ->. rewrite join_cons by done. by rewrite IH.
  - destruct (split_slash y) as [|w ws]; [done|].
    destruct ws as [|w' ws]; simpl in *; by rewrite <- IH.
Qed.

Lemma split_slash_join (rel : path) :
  wf_parts rel -> rel <> [] -> split_slash (join [slash] rel) = rel.
Proof.
  induction 1 as [|c rel [_ Hc] Hrel IH]; [done|]. intros _.
  destruct rel as [|c' rel]; [by apply split_slash_plain|].
  rewrite join_cons by done. change ([slash] ++ ?x) with (slash :: x).
  rewrite split_slash_app_gen, split_slash_plain by done.
  by rewrite IH.
Qed.

Lemma parts_wf (rel : path) : wf_parts rel -> List.filter PurePath.is_part rel = rel.
Proof.
  induction 1 as [|c rel [Hc _] Hrel IH]; [done|]. simpl. by rewrite Hc, IH.
Qed.

(** Cutting a joined path after a slash leaves a joined path with fewer
    components. *)
Lemma join_cut (rel : path) (x y : str) :
  wf_parts rel -> rel <> [] -> join [slash] rel = x ++ slash :: y ->
  exists rel', wf_parts rel' /\ rel' <> [] /\ y = join [slash] rel'
               /\ PurePath.parts y = rel'
               /\ (length rel' < length rel)%nat.
Proof.
  intros Hwf Hne Hj. pose proof (split_slash_join rel Hwf Hne) as Hs.
  rewrite Hj, split_slash_app_gen in Hs.
  exists (split_slash y).
  assert (Hwf' : wf_parts (split_slash y)).
  { unfold wf_parts in *. rewrite <- Hs in Hwf. by apply Forall_app in Hwf as [_ ?]. }
  split; [done|]. split; [apply split_slash_ne|].
  split; [by rewrite join_split_slash|].
  split; [by apply parts_wf|].
  rewrite <- Hs, length_app. pose proof (split_slash_ne x).
  destruct (split_slash x); [done|]. simpl. lia.
Qed.

Lemma startswith_drop (s x : str) :
  startswith s x = true -> s = x ++ drop (length x) s.
Proof.
  intros [r ->]%startswith_spec. by rewrite drop_app_length.
Qed.

Lemma join_wf_head (rel : path) :
  wf_parts rel -> rel <> [] -> startswith (join [slash] rel) [slash] = false.
Proof.
  intros Hwf Hne. destruct Hwf as [|c rel [Hc Hs] Hrel]; [done|].
  destruct c as [|a c]; [done|].
  apply not_elem_of_cons in Hs as [Ha _].
  assert (exists t, join [slash] ((a :: c) :: rel) = a :: t) as [t ->].
  { destruct rel; simpl; eauto. }
  rewrite startswith_char. by apply N.eqb_neq.
Qed.

(** What the normalization of [generate_theme] does to the value of a
    copied asset: nothing, or it cuts leading components off. *)
Lemma normalize_value_cut (out_name : str) (rel : path) :
  wf_parts rel ->
  normalize_value out_name (rel_str rel) = rel_str rel
  \/ (length (PurePath.parts (normalize_value out_name (rel_str rel)))
      < length rel)%nat.
Proof.
  intros Hwf. unfold normalize_value.
  destruct rel as [|c0 rel0] eqn:Erel.
  { left. unfold rel_str. change (lstrip (py "/") (py ".")) with [dot].
    assert (startswith [dot] (out_name ++ py "/") = false) as ->.
    { destruct (startswith [dot] (out_name ++ py "/")) eqn:E; [|done].
      apply startswith_spec in E as [r Hr]. by destruct out_name as [|a [|b o]]. }
    done. }
  rewrite <- Erel in *. assert (Hne : rel <> []) by by subst.
  assert (Hstr : rel_str rel = join [slash] rel) by by subst.
  rewrite Hstr. clear Erel c0 rel0.
  assert (lstrip (py "/") (join [slash] rel) = join [slash] rel) as ->.
  { pose proof (join_wf_head rel Hwf Hne) as Hh. unfold lstrip.
    change (py "/") with [slash].
    destruct (join [slash] rel) as [|a t]; [done|].
    rewrite startswith_char in Hh. apply lstrip_by_id.
    by rewrite mem_cons, N.eqb_sym, Hh. }
  assert (Hstep : forall rel1 x, wf_parts rel1 -> rel1 <> [] ->
    startswith (join [slash] rel1) (x ++ [slash]) = true ->
    exists rel2, wf_parts rel2 /\ rel2 <> []
      /\ drop (length (x ++ [slash])) (join [slash] rel1) = join [slash] rel2
      /\ PurePath.parts (join [slash] rel2) = rel2
      /\ (length rel2 < length rel1)%nat).
  { intros rel1 x Hwf1 Hne1 Hsw. apply startswith_drop in Hsw.
    rewrite <- app_assoc in Hsw. simpl in Hsw.
    destruct (join_cut rel1 x _ Hwf1 Hne1 Hsw) as (rel2 & ? & ? & Hy & Hp & ?).
    exists rel2. rewrite <- Hy. repeat split; try done. }
  change (py "/") with [slash]. change (py "assets/") with (py "assets" ++ [slash]).
  destruct (startswith (join [slash] rel) (out_name ++ [slash])) eqn:E1.
  - destruct (Hstep rel out_name Hwf Hne E1) as (rel1 & Hwf1 & Hne1 & Hd & Hp1 & Hl1).
    rewrite length_app in Hd. simpl in Hd. rewrite Hd.
    destruct (startswith (join [slash] rel1) (py "assets" ++ [slash])) eqn:E2.
    + destruct (Hstep rel1 _ Hwf1 Hne1 E2) as (rel2 & Hwf2 & Hne2 & Hd2 & Hp2 & Hl2).
      rewrite Hd2. right. rewrite Hp2. lia.
    + right. rewrite Hp1. lia.
  - destruct (startswith (join [slash] rel) (py "assets" ++ [slash])) eqn:E2.
    + destruct (Hstep rel _ Hwf Hne E2) as (rel2 & Hwf2 & Hne2 & Hd2 & Hp2 & Hl2).
      rewrite Hd2. right. rewrite Hp2. lia.
    + by left.
Qed.

(** ** The mapping of [copy_assets] *)

Lemma relative_to_app (base rel : path) : relative_to (base ++ rel) base = Some rel.
Proof.
  induction base as [|b base IH]; [by destruct rel|]. simpl.
  by rewrite str_eqb_refl.
Qed.

Lemma dict_set_elem (mapping : dict) (key value k v : str) :
  (k, v) ∈ dict_set mapping key value ->
  (k = key /\ v = value) \/ (k, v) ∈ mapping.
Proof.
  induction mapping as [|[k' v'] rest IH]; simpl.
  - intros [= -> ->]%list_elem_of_singleton. by left.
  - destruct (str_eqb k' key) eqn:E.
    + apply str_eqb_eq in E as ->.
      intros [[= -> ->]|H]%elem_of_cons; [by left|].
      right. by apply list_elem_of_further.
    + intros [[= -> ->]|H]%elem_of_cons.
      * right. apply list_elem_of_here.
      * destruct (IH H) as [?|?]; [by left|]. right. by apply list_elem_of_further.
Qed.

Lemma copy_asset_mapping (site_dir dest : path) (mapping mapping' : dict)
    (asset : path) (fs fs' : FS) :
  copy_asset site_dir dest mapping asset fs = (Ok mapping', fs') ->
  mapping' =
  dict_set mapping
    (replace (rel_str (asset_rel asset site_dir)) [backslash] (py "/"))
    (rel_str (asset_rel asset site_dir)).
Proof.
  unfold copy_asset.
  intros (_ & ? & _ & H)%bind_ok_inv. apply bind_ok_inv in H as (_ & ? & _ & H).
  rewrite relative_to_app in H. by injection H as <- _.
Qed.

Lemma copy_assets_mapping (site_dir dest : path) (assets : list path)
    (mapping0 mapping : dict) (fs fs' : FS) (k v : str) :
  foldM (copy_asset site_dir dest) assets mapping0 fs = (Ok mapping, fs') ->
  (k, v) ∈ mapping ->
  (k, v) ∈ mapping0 \/
  exists asset, asset ∈ assets
    /\ v = rel_str (asset_rel asset site_dir)
    /\ k = replace v [backslash] (py "/").
Proof.
  revert mapping0 fs. induction assets as [|a assets IH]; intros mapping0 fs; simpl.
  - intros [= <- _]. by left.
  - intros (m1 & fs1 & Hstep & Hrest)%bind_ok_inv Hin.
    apply copy_asset_mapping in Hstep as ->.
    destruct (IH _ _ Hrest Hin) as [H|(asset & Ha & Hv & Hk)].
    + apply dict_set_elem in H as [[-> ->]|H]; [|by left].
      right. exists a. split; [apply list_elem_of_here|done].
    + right. exists asset. split; [by apply list_elem_of_further|done].
Qed.

(** ** The mapping of the relocator *)

Lemma asset_rel_wf (asset site_dir : path) :
  wf_parts asset -> wf_parts (asset_rel asset site_dir).
Proof.
  intros Hwf. unfold asset_rel.
  destruct (relative_to asset site_dir) as [rel|] eqn:E.
  - revert asset Hwf E. induction site_dir as [|b base IH]; intros asset Hwf.
    + destruct asset; by intros [= <-].
    + destruct asset as [|c p]; [done|]. simpl.
      destruct (str_eqb b c); [|done]. apply IH. by inversion Hwf.
  - unfold path_name, PurePath.parts, wf_parts in *.
    destruct asset as [|c p] using rev_ind; [done|].
    rewrite List.last_last. apply Forall_app in Hwf as [_ Hc].
    apply Forall_singleton in Hc as [Hp Hs].
    rewrite split_slash_plain by done. simpl. rewrite Hp. by repeat constructor.
Qed.

Lemma copy_assets_key_differs_from_value :
  let fs : FS := {[ [py "site"] := Dir;
                    [py "site"; py "a\b.png"] := File [1; 2; 3];
                    [py "out"] := Dir ]} in
  exists mapping,
    (copy_assets [[py "site"; py "a\b.png"]] [py "site"]
                 [py "out"; py "assets"] fs).1 = Ok mapping
    /\ ~ (forall k v, (k, v) ∈ mapping -> v = k).
Proof.
  exists [(py "a/b.png", py "a\b.png")]. split; [by vm_compute|].
  intros H. by specialize (H _ _ (list_elem_of_here _ _)).
Qed.

(** C9. Every entry of the mapping [copy_assets] returns comes from an
    asset: its value is the text of the asset's path relative to the site
    root, which is where the file was copied under the destination root, and
    its key is that text with every backslash replaced by a slash; so value
    and key are equal when the relative path holds no backslash. When the
    normalization that [generate_theme] applies afterwards changes the value,
    the changed value no longer names the copied file: joined to the
    destination root it gives another path. *)
Theorem copy_assets_entries (assets : list path) (site_dir dest : path)
    (fs : FS) (mapping : dict) (k v : str) :
  (copy_assets assets site_dir dest fs).1 = Ok mapping ->
  (k, v) ∈ mapping ->
  exists asset,
    asset ∈ assets
    /\ v = rel_str (asset_rel asset site_dir)
    /\ k = replace v [backslash] (py "/")
    /\ (backslash ∉ v -> k = v)
    /\ (wf_parts asset ->
        forall out_name,
          normalize_value out_name v <> v ->
          joinpath dest (normalize_value out_name v)
          <> dest ++ asset_rel asset site_dir).
Proof.
  intros Hrun Hin. unfold copy_assets in Hrun.
  destruct (foldM _ assets [] fs) as [r fs'] eqn:Hfold. simpl in Hrun. subst r.
  destruct (copy_assets_mapping _ _ _ _ _ _ _ _ _ Hfold Hin)
    as [H|(asset & Ha & Hv & Hk)]; [by apply elem_of_nil in H|].
  exists asset. split; [done|]. split; [done|]. split; [done|]. split.
  - intros Hb. rewrite Hk. by apply replace_char_absent.
  - intros Hwf out_name Hne. apply (asset_rel_wf _ site_dir) in Hwf.
    destruct (normalize_value_cut out_name _ Hwf) as [Heq|Hlt];
      [by rewrite <- Hv in Heq|].
    rewrite <- Hv in Hlt. intros Heq. apply (f_equal length) in Heq.
    unfold joinpath in Heq.
    destruct (startswith _ _); rewrite ?length_app in Heq; lia.
Qed.

Lemma copy_assets_entries_witness :
  let fs : FS := {[ [py "site"] := Dir;
                    [py "site"; py "assets"] := Dir;
                    [py "site"; py "assets"; py "a.css"] := File [1; 2; 3];
                    [py "out"] := Dir ]} in
  exists asset,
    asset ∈ [[py "site"; py "assets"; py "a.css"]]
    /\ py "assets/a.css" = rel_str (asset_rel asset [py "site"])
    /\ py "assets/a.css" = replace (py "assets/a.css") [backslash] (py "/")
    /\ (backslash ∉ py "assets/a.css" -> py "assets/a.css" = py "assets/a.css")
    /\ (wf_parts asset ->
        forall out_name,
          normalize_value out_name (py "assets/a.css") <> py "assets/a.css" ->
          joinpath [py "out"; py "assets"]
            (normalize_value out_name (py "assets/a.css"))
          <> [py "out"; py "assets"] ++ asset_rel asset [py "site"]).
Proof.
  cbv zeta.
  apply (copy_assets_entries [[py "site"; py "assets"; py "a.css"]]
           [py "site"] [py "out"; py "assets"]
           {[ [py "site"] := Dir;
              [py "site"; py "assets"] := Dir;
              [py "site"; py "assets"; py "a.css"] := File [1; 2; 3];
              [py "out"] := Dir ]}
           [(py "assets/a.css", py "assets/a.css")]).
  - by vm_compute.
  - apply list_elem_of_here.
Defined.

(** ** Making directories *)

Lemma prefix_snoc (q p : path) (c : str) :
  q `prefix_of` p ++ [c] <-> q `prefix_of` p \/ q = p ++ [c].
Proof.
  split.
  - intros [k Hk]. destruct k as [|c' k _] using rev_ind.
    + right. by rewrite app_nil_r in Hk.
    + left. rewrite app_assoc in Hk. apply app_inj_tail in Hk as [-> _].
      by apply prefix_app_r.
  - intros [H| ->]; [by apply prefix_app_r|done].
Qed.

Lemma prefix_snoc_not (p : path) (c : str) : ~ p ++ [c] `prefix_of` p.
Proof. intros H%prefix_length. rewrite length_app in H. simpl in H. lia. Qed.

Lemma plain_app (p q : path) : plain (p ++ q) <-> plain p /\ plain q.
Proof. apply Forall_app. Qed.

Lemma mkdir_parents_from_eq (n : nat) (p : path) (fs : FS) :
  mkdir_parents_from n p fs =
  match os_mkdir p fs with
  | (Ok _, fs') => (Ok tt, fs')
  | (Raise (FileNotFoundError msg), _) =>
      match n with
      | S n' =>
          if bool_decide (removelast p = p)
          then (Raise (FileNotFoundError msg), fs)
          else
            match mkdir_parents_from n' (removelast p) fs with
            | (Ok _, fs1) =>
                match os_mkdir p fs1 with
                | (Ok _, fs2) => (Ok tt, fs2)
                | (Raise (FileNotFoundError msg'), _) =>
                    (Raise (FileNotFoundError msg'), fs1)
                | (Raise e, _) =>
                    if is_dir fs1 p then (Ok tt, fs1) else (Raise e, fs1)
                end
            | (Raise e, fs1) => (Raise e, fs1)
            end
      | O => (Raise (FileNotFoundError msg), fs)
      end
  | (Raise e, _) => if is_dir fs p then (Ok tt, fs) else (Raise e, fs)
  end.
Proof. by destruct n. Qed.

(** What [os.mkdir] does on a path that resolves to itself and holds no
    file. *)
Lemma os_mkdir_resolved (fs : FS) (p : path) :
  plain p -> dirs_to fs p -> (forall c, fs_get fs p <> Some (File c)) ->
  exists fs',
    match os_mkdir p fs with
    | (Ok _, fs1) => fs1 = fs'
    | (Raise (FileNotFoundError _), _) => False
    | (Raise _, _) => is_dir fs p = true /\ fs = fs'
    end
    /\ forall x, fs_get fs' x = if bool_decide (x = p) then Some Dir
                               else fs_get fs x.
Proof.
  intros Hp Hd Hf. unfold os_mkdir. rewrite (resolve_plain_ok _ _ Hp Hd).
  destruct (fs_get fs p) as [[c|]|] eqn:E.
  - by destruct (Hf c).
  - exists fs. split.
    + split; [|done]. rewrite is_dir_plain by done. by apply bool_decide_eq_true.
    + intros x. case_bool_decide; by subst.
  - exists (<[p := Dir]> fs). split; [done|]. intros x.
    destruct p as [|c p]; [done|]. case_bool_decide as Hx.
    + subst x. simpl. by rewrite lookup_insert_eq.
    + destruct x as [|c' x]; [done|]. simpl. by rewrite lookup_insert_ne.
Qed.

Lemma mkdir_parents_from_ok (n : nat) (p : path) (fs : FS) :
  plain p -> (length p <= n)%nat ->
  (forall q c, q `prefix_of` p -> fs_get fs q <> Some (File c)) ->
  exists fs',
    mkdir_parents_from n p fs = (Ok tt, fs')
    /\ forall x, fs_get fs' x = if bool_decide (x `prefix_of` p) then Some Dir
                               else fs_get fs x.
Proof.
  revert p fs. induction n as [|n IH]; intros p fs Hp Hlen Hfree.
  - destruct p; [|simpl in Hlen; lia]. exists fs. split; [done|].
    intros x. case_bool_decide as Hx; [|done].
    by apply prefix_nil_inv in Hx as ->.
  - rewrite mkdir_parents_from_eq.
    pose proof (resolve_from_plain fs [] p Hp) as Hres.
    destruct (resolve_from fs [] p) as [[|]|r] eqn:Hr.
    + (* a directory on the way is missing *)
      unfold os_mkdir at 1, resolve. rewrite Hr. simpl.
      destruct Hres as (q0 & Hq0 & Hne0 & _).
      destruct p as [|c p _] using rev_ind; [by apply prefix_nil_inv in Hq0|].
      rewrite removelast_last. rewrite bool_decide_eq_false_2;
        [|intros H; apply (f_equal length) in H; rewrite length_app in H;
          simpl in H; lia].
      apply plain_app in Hp as [Hp Hc].
      destruct (IH p fs Hp) as (fs1 & -> & Hfs1).
      { rewrite length_app in Hlen. simpl in Hlen. lia. }
      { intros q c' Hq. apply Hfree. by apply prefix_app_r. }
      assert (Hd1 : dirs_to fs1 (p ++ [c])).
      { intros q [Hq|Hq]%prefix_snoc Hne; [|done].
        by rewrite Hfs1, bool_decide_eq_true_2. }
      assert (Hg1 : fs_get fs1 (p ++ [c]) = fs_get fs (p ++ [c])).
      { rewrite Hfs1, bool_decide_eq_false_2; [done|apply prefix_snoc_not]. }
      destruct (os_mkdir_resolved fs1 (p ++ [c])) as (fs' & Hmk & Hfs');
        [by apply plain_app | done | | ].
      { intros c'. rewrite Hg1. by apply Hfree. }
      exists fs'. split.
      * destruct (os_mkdir (p ++ [c]) fs1) as [[[]|e] fs2]; [by subst|].
        destruct e; try done; destruct Hmk as [-> ->]; done.
      * intros x. rewrite Hfs', Hfs1.
        case_bool_decide as Hx; [subst; by rewrite bool_decide_eq_true_2|].
        case_bool_decide as Hx1.
        -- rewrite bool_decide_eq_true_2; [done|by apply prefix_app_r].
        -- rewrite bool_decide_eq_false_2; [done|].
           intros [?|?]%prefix_snoc; done.
    + destruct Hres as (q & c & Hq & _ & Hget). by destruct (Hfree q c Hq).
    + destruct Hres as [-> Hd]. simpl in Hd.
      destruct (os_mkdir_resolved fs p) as (fs' & Hmk & Hfs'); [done..| |].
      { intros c. by apply Hfree. }
      exists fs'. split.
      * destruct (os_mkdir p fs) as [[[]|e] fs2]; [by subst|].
        destruct e; try done; destruct Hmk as [-> ->]; done.
      * intros x. rewrite Hfs'.
        case_bool_decide as Hx; [subst; by rewrite bool_decide_eq_true_2|].
        case_bool_decide as Hx1; [|done]. by apply Hd.
Qed.

Lemma mkdir_parents_ok (p : path) (fs : FS) :
  plain p ->
  (forall q c, q `prefix_of` p -> fs_get fs q <> Some (File c)) ->
  exists fs',
    mkdir_parents p fs = (Ok tt, fs')
    /\ forall x, fs_get fs' x = if bool_decide (x `prefix_of` p) then Some Dir
                               else fs_get fs x.
Proof. intros. by apply mkdir_parents_from_ok. Qed.

(** ** Copying a file *)

Lemma copy2_ok (fs : FS) (src dst : path) (content : list N) :
  plain src -> plain dst ->
  dirs_to fs src -> fs_get fs src = Some (File content) ->
  dirs_to fs dst -> fs_get fs dst <> Some Dir -> src <> dst ->
  exists fs',
    copy2 src dst fs = (Ok tt, fs')
    /\ forall x, fs_get fs' x = if bool_decide (x = dst) then Some (File content)
                               else fs_get fs x.
Proof.
  intros Hps Hpd Hds Hs Hdd Hd Hne. unfold copy2.
  rewrite (is_dir_plain _ _ Hpd Hdd), bool_decide_eq_false_2 by done.
  unfold samefile. rewrite (resolve_plain_ok _ _ Hps Hds).
  rewrite (resolve_plain_ok _ _ Hpd Hdd).
  rewrite (bool_decide_eq_false_2 (src = dst)) by done. rewrite andb_false_r.
  rewrite bind_unfold.
  rewrite (proj2 (read_bytes_plain fs src content Hps) (conj Hds Hs)).
  unfold write_bytes. rewrite (resolve_plain_ok _ _ Hpd Hdd).
  exists (<[dst := File content]> fs). split.
  - by destruct (fs_get fs dst) as [[|]|].
  - intros x. destruct dst as [|c dst]; [done|]. case_bool_decide as Hx.
    + subst x. simpl. by rewrite lookup_insert_eq.
    + destruct x as [|c' x]; [done|]. simpl. by rewrite lookup_insert_ne.
Qed.

Lemma way_clear_spec (fs : FS) (cur rest q : path) (c : list N) :
  way_clear fs cur rest = true ->
  q `prefix_of` rest -> fs_get fs (cur ++ q) = Some (File c) -> q = rest.
Proof.
  revert cur q. induction rest as [|a rest IH]; intros cur q; simpl.
  - by intros _ ->%prefix_nil_inv.
  - destruct q as [|b q].
    + rewrite app_nil_r. intros H _ Hget. by rewrite Hget in H.
    + intros H Hq. apply prefix_cons_inv_1 in Hq as Hb. subst b.
      apply prefix_cons_inv_2 in Hq. intros Hget. f_equal.
      apply (IH (cur ++ [a])); [by destruct (fs_get fs cur) as [[|]|]|done|].
      by rewrite <- app_assoc.
Qed.

(** ** The relocation of a set of assets *)

Section Relocation.
Variables (site_dir dest : path) (fs0 : FS) (assets : list path).
Hypothesis Hdest : plain dest.
Hypothesis Hassets : forall rel, site_dir ++ rel ∈ assets ->
  plain (site_dir ++ rel)
  /\ (exists content, read_bytes (site_dir ++ rel) fs0 = (Ok content, fs0))
  /\ free_destination fs0 assets (dest ++ rel).

Lemma asset_file (rel : path) :
  site_dir ++ rel ∈ assets ->
  plain rel /\ dirs_to fs0 (site_dir ++ rel)
  /\ exists content, fs_get fs0 (site_dir ++ rel) = Some (File content).
Proof.
  intros Hin. destruct (Hassets rel Hin) as (Hp & [content Hread] & _).
  apply read_bytes_plain in Hread as [Hd Hget]; [|done].
  split; [by apply plain_app in Hp as [_ ?]|]. split; [done|]. by exists content.
Qed.

(** No asset lies on the way to another one. *)
Lemma assets_not_nested (rel1 rel2 : path) :
  site_dir ++ rel1 ∈ assets -> site_dir ++ rel2 ∈ assets ->
  dest ++ rel1 `prefix_of` dest ++ rel2 -> rel1 = rel2.
Proof.
  intros (_ & _ & [c1 Hc1])%asset_file (_ & Hd2 & _)%asset_file Hpre.
  apply prefix_app_inv in Hpre.
  destruct (decide (rel1 = rel2)) as [|Hne]; [done|].
  rewrite Hd2 in Hc1; [done|by apply prefix_app|].
  intros H. by apply app_inv_head in H.
Qed.

Local Abbreviation reached := (reached site_dir dest fs0 assets).
Local Abbreviation copied := (copied site_dir dest fs0).

Lemma reached_source (fs : FS) (rel : path) :
  reached fs -> site_dir ++ rel ∈ assets ->
  dirs_to fs (site_dir ++ rel)
  /\ fs_get fs (site_dir ++ rel) = fs_get fs0 (site_dir ++ rel).
Proof.
  intros Hfs Hin. destruct (asset_file rel Hin) as (_ & Hd & [content Hc]).
  split.
  - intros q Hq Hne. specialize (Hd q Hq Hne).
    destruct (Hfs q) as [->|[[? _]|(rel' & c' & Hin' & -> & _ & _)]]; [done..|].
    destruct (Hassets rel' Hin') as (_ & _ & _ & Hnd & _). done.
  - destruct (Hfs (site_dir ++ rel))
      as [?|[(_ & rel' & Hin' & Hpre & Hne)|(rel' & c' & Hin' & Heq & _ & _)]];
      [done| |].
    + destruct (Hassets rel' Hin') as (_ & _ & _ & _ & Hway).
      by destruct (Hne (Hway _ _ Hpre Hc)).
    + destruct (Hassets rel' Hin') as (_ & _ & Hnot & _ & _).
      rewrite <- Heq in Hnot. done.
Qed.

Lemma reached_way (fs : FS) (rel q : path) (c : list N) :
  reached fs -> site_dir ++ rel ∈ assets ->
  q `prefix_of` dest ++ rel -> q <> dest ++ rel ->
  fs_get fs q <> Some (File c).
Proof.
  intros Hfs Hin Hq Hne.
  destruct (Hassets rel Hin) as (_ & _ & _ & _ & Hway).
  destruct (Hfs q) as [->|[[-> _]|(rel' & c' & Hin' & -> & _ & _)]]; [|done|].
  - intros H. by destruct (Hne (Hway _ _ Hq H)).
  - by destruct (Hne (f_equal _ (assets_not_nested _ _ Hin' Hin Hq))).
Qed.

Lemma reached_destination (fs : FS) (rel : path) :
  reached fs -> site_dir ++ rel ∈ assets ->
  fs_get fs (dest ++ rel) <> Some Dir.
Proof.
  intros Hfs Hin. destruct (Hassets rel Hin) as (_ & _ & _ & Hnd & _).
  destruct (Hfs (dest ++ rel))
    as [->|[(_ & rel' & Hin' & Hpre & Hne)|(rel' & c' & _ & _ & _ & ->)]];
    [done| |done].
  by destruct (Hne (f_equal _ (assets_not_nested _ _ Hin Hin' Hpre))).
Qed.

(** One turn of the loop. *)
Lemma copy_asset_ok (fs : FS) (mapping : dict) (rel : path) :
  reached fs -> site_dir ++ rel ∈ assets ->
  exists mapping' fs',
    copy_asset site_dir dest mapping (site_dir ++ rel) fs = (Ok mapping', fs')
    /\ reached fs' /\ copied fs' rel
    /\ forall rel', site_dir ++ rel' ∈ assets -> copied fs rel' -> copied fs' rel'.
Proof.
  intros Hfs Hin. unfold copy_asset, asset_rel. rewrite !relative_to_app.
  destruct (asset_file rel Hin) as (Hprel & _ & [content Hc]).
  destruct (Hassets rel Hin) as (Hpa & _ & Hnot & Hnd & Hway).
  destruct (reached_source fs rel Hfs Hin) as [Hsd Hsg].
  assert (Hpd : plain (dest ++ rel)) by by apply plain_app.
  assert (exists d c, dest ++ rel = d ++ [c]) as (d & c & Ed).
  { destruct (dest ++ rel) as [|c d _] using rev_ind; [done|eauto]. }
  rewrite Ed in Hpd |- *. rewrite removelast_last. apply plain_app in Hpd as Hpd'. destruct Hpd' as [Hpp _].
  destruct (mkdir_parents_ok d fs Hpp) as (fs1 & Hmk & Hfs1).
  { intros q c' Hq. apply (reached_way fs rel); [done|done|..]; rewrite Ed.
    - by apply prefix_app_r.
    - intros ->. by apply prefix_snoc_not in Hq. }
  rewrite bind_unfold, Hmk.
  destruct (copy2_ok fs1 (site_dir ++ rel) (d ++ [c]) content)
    as (fs2 & Hcp & Hfs2); [done..| | | | | |].
  { intros q Hq Hne. rewrite Hfs1, (Hsd q Hq Hne). by case_bool_decide. }
  { rewrite Hfs1, bool_decide_eq_false_2; [by rewrite Hsg|].
    intros Hpre. rewrite <- Hsg in Hc.
    refine (reached_way fs rel _ _ Hfs Hin _ _ Hc).
    - rewrite Ed. by apply prefix_app_r.
    - intros H. by rewrite <- H in Hnot. }
  { intros q [Hq|Hq]%prefix_snoc Hne; [|done].
    by rewrite Hfs1, bool_decide_eq_true_2. }
  { rewrite Hfs1, bool_decide_eq_false_2 by apply prefix_snoc_not.
    rewrite <- Ed. by apply reached_destination. }
  { intros H. by rewrite Ed, <- H in Hnot. }
  rewrite bind_unfold, Hcp. eexists _, fs2. split; [done|].
  assert (Hkeep : forall x, x <> d ++ [c] -> fs_get fs x = Some Dir ->
                            fs_get fs2 x = Some Dir).
  { intros x Hx Hg. rewrite Hfs2, bool_decide_eq_false_2, Hfs1, Hg by done.
    by case_bool_decide. }
  rewrite <- Ed in *. split; [|split].
  - intros p. rewrite Hfs2. case_bool_decide as Hp.
    { right; right. by exists rel, content. }
    rewrite Hfs1. case_bool_decide as Hp1; [|apply Hfs].
    right; left. split; [done|]. exists rel. split; [done|]. split; [|done].
    rewrite Ed. by apply prefix_app_r.
  - split.
    + intros q Hq Hne. rewrite Hfs2, bool_decide_eq_false_2, Hfs1 by done.
      rewrite bool_decide_eq_true_2; [done|].
      rewrite Ed in Hq, Hne. by apply prefix_snoc in Hq as [?|?].
    + by rewrite Hfs2, bool_decide_eq_true_2, Hc.
  - intros rel' Hin' [Hd' Hg']. split.
    + intros q Hq Hne. apply Hkeep; [|by apply Hd'].
      intros ->. by destruct (Hne (f_equal _ (assets_not_nested _ _ Hin Hin' Hq))).
    + rewrite Hfs2. case_bool_decide as Hp.
      { apply app_inv_head in Hp as ->. by rewrite Hc. }
      rewrite Hfs1, bool_decide_eq_false_2; [done|].
      intros Hpre. apply Hp. f_equal.
      apply (assets_not_nested _ _ Hin' Hin). rewrite Ed. by apply prefix_app_r.
Qed.

Lemma copy_assets_loop (l : list path) (fs : FS) (mapping : dict) :
  (forall a, a ∈ l -> a ∈ assets /\ exists rel, a = site_dir ++ rel) ->
  reached fs ->
  exists mapping' fs',
    foldM (copy_asset site_dir dest) l mapping fs = (Ok mapping', fs')
    /\ reached fs'
    /\ forall rel, site_dir ++ rel ∈ assets ->
         site_dir ++ rel ∈ l \/ copied fs rel -> copied fs' rel.
Proof.
  revert fs mapping. induction l as [|a l IH]; intros fs mapping Hl Hfs.
  - exists mapping, fs. split; [done|]. split; [done|].
    intros rel _ [H|H]; [by apply elem_of_nil in H|done].
  - destruct (Hl a (list_elem_of_here _ _)) as [Ha [rel ->]].
    destruct (copy_asset_ok fs mapping rel Hfs Ha)
      as (m1 & fs1 & Hstep & Hfs1 & Hcopied & Hold).
    destruct (IH fs1 m1) as (m2 & fs2 & Hrest & Hfs2 & Hall); [|done|].
    { intros a' Ha'. apply Hl. by apply list_elem_of_further. }
    exists m2, fs2. simpl. rewrite bind_unfold, Hstep. split; [done|].
    split; [done|]. intros rel' Hin' [Hmem|Hc].
    + apply elem_of_cons in Hmem as [Heq|Hmem].
      * apply app_inv_head in Heq as ->. apply Hall; [done|by right].
      * apply Hall; [done|by left].
    + apply Hall; [done|]. right. by apply Hold.
Qed.

End Relocation.

(** ** Round trip of the relocation *)

(** C7 as stated fails. First, the destination of the asset [a.css] is an
    existing directory: [copy_assets] returns, the destination is still that
    directory and the bytes are in a file inside it. Second, a file stands
    where the directory [css] of the destination is needed: [copy_assets]
    raises and produces nothing. Third, the destination root is the folder
    [assets] of the site and the destination of the asset [x.css] is itself
    an asset: whichever of the two is copied first, the copy of the asset
    [assets/x.css] differs from what that asset holds, before the call in
    one order and after it in the other. *)
Lemma relocation_without_a_free_destination :
  let fs1 : FS := {[ [py "site"] := Dir;
                     [py "site"; py "a.css"] := File [1];
                     [py "out"] := Dir;
                     [py "out"; py "assets"] := Dir;
                     [py "out"; py "assets"; py "a.css"] := Dir ]} in
  let r1 := copy_assets [[py "site"; py "a.css"]] [py "site"]
              [py "out"; py "assets"] fs1 in
  let fs2 : FS := {[ [py "site"] := Dir;
                     [py "site"; py "css"] := Dir;
                     [py "site"; py "css"; py "a.css"] := File [1];
                     [py "out"] := Dir;
                     [py "out"; py "assets"] := Dir;
                     [py "out"; py "assets"; py "css"] := File [9] ]} in
  let r2 := copy_assets [[py "site"; py "css"; py "a.css"]] [py "site"]
              [py "out"; py "assets"] fs2 in
  let fs3 : FS := {[ [py "site"] := Dir;
                     [py "site"; py "x.css"] := File [1];
                     [py "site"; py "assets"] := Dir;
                     [py "site"; py "assets"; py "x.css"] := File [2] ]} in
  let first := [py "site"; py "x.css"] in
  let second := [py "site"; py "assets"; py "x.css"] in
  let copy := [py "site"; py "assets"; py "assets"; py "x.css"] in
  let r3 := copy_assets [first; second] [py "site"] [py "site"; py "assets"] fs3 in
  let r4 := copy_assets [second; first] [py "site"] [py "site"; py "assets"] fs3 in
  (r1.1 = Ok [(py "a.css", py "a.css")]
   /\ r1.2 !! [py "out"; py "assets"; py "a.css"] = Some Dir
   /\ r1.2 !! [py "out"; py "assets"; py "a.css"; py "a.css"] = Some (File [1]))
  /\ (r2.1 = Raise (FileExistsError (py "/out/assets/css"))
      /\ r2.2 !! [py "out"; py "assets"; py "css"; py "a.css"] = None)
  /\ (r3.1 = Ok [(py "x.css", py "x.css");
                 (py "assets/x.css", py "assets/x.css")]
      /\ fs3 !! second = Some (File [2])
      /\ r3.2 !! copy = Some (File [1])
      /\ r4.2 !! copy = Some (File [2])
      /\ r4.2 !! second = Some (File [1])).
Proof. cbv zeta. repeat split; by vm_compute. Qed.

(** C7, amended. Let every asset be a file under the site root, at a path
    without a [..] component whose directories exist, and let its
    destination, the destination root joined with its relative path, be
    free: it is not itself an asset, it is not a directory, and no file
    stands on the way to it. Then [copy_assets] returns, and for every asset
    the destination holds a file with exactly the bytes of the asset, in
    directories that exist, while the asset is as it was. Every other entry
    of the file system is as it was, or is a directory made on the way to a
    destination. *)
Theorem copy_assets_round_trip (assets : list path) (site_dir dest : path)
    (fs : FS) :
  plain dest ->
  (forall asset, asset ∈ assets ->
     exists rel content,
       asset = site_dir ++ rel /\ plain asset
       /\ dirs_to fs asset /\ fs_get fs asset = Some (File content)
       /\ free_destination fs assets (dest ++ rel)) ->
  exists mapping,
    (copy_assets assets site_dir dest fs).1 = Ok mapping
    /\ let fs' := (copy_assets assets site_dir dest fs).2 in
       reached site_dir dest fs assets fs'
       /\ forall rel,
            site_dir ++ rel ∈ assets ->
            fs_get fs' (dest ++ rel) = fs_get fs (site_dir ++ rel)
            /\ dirs_to fs' (dest ++ rel)
            /\ fs_get fs' (site_dir ++ rel) = fs_get fs (site_dir ++ rel)
            /\ dirs_to fs' (site_dir ++ rel)
            /\ (read_bytes (dest ++ rel) fs').1
               = (read_bytes (site_dir ++ rel) fs).1.
Proof.
  intros Hdest Hall.
  assert (Hassets : forall rel, site_dir ++ rel ∈ assets ->
            plain (site_dir ++ rel)
            /\ (exists content,
                  read_bytes (site_dir ++ rel) fs = (Ok content, fs))
            /\ free_destination fs assets (dest ++ rel)).
  { intros rel Hin.
    destruct (Hall _ Hin) as (rel' & c & Heq & Hp & Hd & Hget & Hf).
    apply app_inv_head in Heq as <-. split; [done|]. split; [|done].
    exists c. by apply read_bytes_plain. }
  destruct (copy_assets_loop site_dir dest fs assets Hdest Hassets assets fs [])
    as (mapping & fs' & Hrun & Hfs' & Hcopied).
  { intros a Ha. split; [done|].
    destruct (Hall _ Ha) as (rel & c & -> & _). eauto. }
  { intros p. by left. }
  exists mapping. unfold copy_assets. rewrite Hrun. simpl.
  split; [done|]. split; [done|]. intros rel Hin.
  destruct (Hassets rel Hin) as (Hp & [content Hread] & _).
  apply read_bytes_plain in Hread as Hsrc; [|done]. destruct Hsrc as [_ Hget].
  destruct (Hcopied rel Hin (or_introl Hin)) as [Hd Hg].
  destruct (reached_source site_dir dest fs assets Hassets fs' rel Hfs' Hin)
    as [Hsd Hsg].
  repeat split; try done.
  rewrite Hread. simpl. apply read_bytes_fst, read_bytes_plain.
  - apply plain_app. by apply plain_app in Hp as [_ ?].
  - split; [done|]. by rewrite Hg.
Qed.

Lemma copy_assets_round_trip_witness :
  let fs : FS := {[ [py "site"] := Dir;
                    [py "site"; py "css"] := Dir;
                    [py "site"; py "css"; py "site.css"] := File [98; 111; 100; 121];
                    [py "out"] := Dir ]} in
  let fs' := (copy_assets [[py "site"; py "css"; py "site.css"]] [py "site"]
                [py "out"; py "assets"] fs).2 in
  fs' !! [py "out"; py "assets"; py "css"; py "site.css"]
  = Some (File [98; 111; 100; 121]).
Proof.
  cbv zeta.
  destruct (copy_assets_round_trip [[py "site"; py "css"; py "site.css"]]
              [py "site"] [py "out"; py "assets"]
              {[ [py "site"] := Dir;
                 [py "site"; py "css"] := Dir;
                 [py "site"; py "css"; py "site.css"] := File [98; 111; 100; 121];
                 [py "out"] := Dir ]})
    as (mapping & _ & _ & H).
  - repeat constructor; by vm_compute.
  - intros asset ->%list_elem_of_singleton.
    exists [py "css"; py "site.css"], [98; 111; 100; 121]. split; [done|].
    assert (Hp : plain [py "site"; py "css"; py "site.css"])
      by (repeat constructor; by vm_compute).
    split; [done|].
    assert (Hr : dirs_to {[ [py "site"] := Dir;
                            [py "site"; py "css"] := Dir;
                            [py "site"; py "css"; py "site.css"]
                              := File [98; 111; 100; 121];
                            [py "out"] := Dir ]}
                   [py "site"; py "css"; py "site.css"]
                 /\ fs_get {[ [py "site"] := Dir;
                              [py "site"; py "css"] := Dir;
                              [py "site"; py "css"; py "site.css"]
                                := File [98; 111; 100; 121];
                              [py "out"] := Dir ]}
                      [py "site"; py "css"; py "site.css"]
                    = Some (File [98; 111; 100; 121])).
    { apply read_bytes_plain; [done|]. apply read_bytes_fst. by vm_compute. }
    destruct Hr as [Hd Hg]. split; [done|]. split; [done|].
    split; [|split].
    + intros [=]%list_elem_of_singleton.
    + by vm_compute.
    + intros q c. apply (way_clear_spec _ []). by vm_compute.
  - destruct (H [py "css"; py "site.css"]) as (Hget & _).
    { apply list_elem_of_here. }
    exact Hget.
Defined.

(** * Further properties of the converter *)

(** ** The rewriter on references it does not know *)

Lemma repl_unmapped (mapping : dict) (m : rematch) :
  dict_get mapping (rewrite_key (g_val m)) = None ->
  find_by_basename mapping (PurePath.name (rewrite_key (g_val m))) = None ->
  repl mapping m = group0 m.
Proof. intros H1 H2. unfold repl. by rewrite H1, H2. Qed.

Lemma replace_unmapped (html : str) (mapping : dict) :
  (forall m, inl m ∈ scan html -> repl mapping m = group0 m) ->
  replace_asset_paths_in_html html mapping = html.
Proof.
  remember (length html) as n eqn:Hn. revert html Hn.
  induction n as [n IH] using lt_wf_ind. intros s -> Hall.
  rewrite replace_eq. rewrite scan_eq in Hall.
  destruct (match_at s) as [[m rest]|] eqn:E.
  - pose proof (match_at_length _ _ _ E) as Hlen.
    apply match_at_inv in E as [-> _].
    rewrite (Hall m) by apply list_elem_of_here.
    rewrite (IH (length rest)); [done|done|done|].
    intros m' Hm'. apply Hall. by apply list_elem_of_further.
  - destruct s as [|c s]; [done|]. f_equal.
    apply (IH (length s)); [simpl; lia|done|].
    intros m' Hm'. apply Hall. by apply list_elem_of_further.
Qed.

(** X1. With an empty mapping [replace_asset_paths_in_html] returns every
    fragment as it is. *)
Theorem rewriter_empty_mapping (html : str) :
  replace_asset_paths_in_html html [] = html.
Proof. apply replace_unmapped. intros m _. by apply repl_unmapped. Qed.

(** X2. A fragment in which every [src] or [href] occurrence has a
    normalized value that is no key of the mapping and whose base name is
    the base name of no key is returned as it is: references without a
    mapping entry are left untouched. *)
Theorem rewriter_unknown_references (html : str) (mapping : dict) :
  (forall m, inl m ∈ scan html ->
     let key := rewrite_key (g_val m) in
     dict_get mapping key = None
     /\ forall k v, (k, v) ∈ mapping -> PurePath.name k <> PurePath.name key) ->
  replace_asset_paths_in_html html mapping = html.
Proof.
  intros Hall. apply replace_unmapped. intros m Hm.
  destruct (Hall m Hm) as [Hget Hname]. apply repl_unmapped; [done|].
  destruct (find_by_basename mapping _) as [v|] eqn:E; [|done].
  apply find_by_basename_elem in E as (k & Hin & Hk). by destruct (Hname k v Hin).
Qed.

Lemma rewriter_unknown_references_witness :
  let html := py "<a href='about.html'>About</a>" in
  replace_asset_paths_in_html html [(py "css/site.css", py "css/site.css")]
  = html.
Proof.
  cbv zeta. apply rewriter_unknown_references. intros m Hm.
  match type of Hm with
  | _ ∈ ?l => let l' := eval vm_compute in l in change l with l' in Hm
  end.
  repeat match goal with
  | H : _ ∈ _ :: _ |- _ => apply elem_of_cons in H as [H|H]; [try done|]
  end; try (by apply elem_of_nil in Hm).
  injection Hm as ->. split; [by vm_compute|].
  intros k v [= -> ->]%list_elem_of_singleton. by vm_compute.
Defined.

(** ** The base-name fallback *)

Lemma find_by_basename_first (m1 m2 : dict) (k v b : str) :
  (forall k' v', (k', v') ∈ m1 -> PurePath.name k' <> b) ->
  PurePath.name k = b ->
  find_by_basename (m1 ++ (k, v) :: m2) b = Some v.
Proof.
  intros H1 Hk. induction m1 as [|[k' v'] m1 IH]; simpl.
  - by rewrite (proj2 (str_eqb_eq _ _) Hk).
  - rewrite (proj2 (str_eqb_neq _ _) (H1 k' v' (list_elem_of_here _ _))).
    apply IH. intros k'' v'' Hin. apply (H1 k'' v''). by apply list_elem_of_further.
Qed.

(** X3. When the normalized value of an occurrence is no key of the
    mapping, the entry that decides is the first one, in the order of the
    mapping, whose key has the base name of the value: the occurrence is
    rewritten to the value of that entry, whatever later entries with the
    same base name hold; and when that first value is empty the occurrence
    is left as it is. *)
Theorem fallback_takes_first_entry (m1 m2 : dict) (k v : str) (m : rematch) :
  let mapping := m1 ++ (k, v) :: m2 in
  let key := rewrite_key (g_val m) in
  dict_get mapping key = None ->
  (forall k' v', (k', v') ∈ m1 -> PurePath.name k' <> PurePath.name key) ->
  PurePath.name k = PurePath.name key ->
  repl mapping m =
  match v with
  | [] => group0 m
  | _ => g_attr m ++ py "=" ++ [g_quote m] ++ asset_url v ++ [g_quote m]
  end.
Proof.
  intros mapping key Hget H1 Hk. unfold repl. fold key. rewrite Hget.
  unfold mapping. rewrite (find_by_basename_first _ _ _ _ _ H1 Hk).
  by destruct v.
Qed.

Lemma fallback_takes_first_entry_witness :
  let mapping := [(py "a/x.css", py "a/x.css"); (py "b/x.css", py "b/x.css")] in
  repl mapping (ReMatch (py "href") sq (py "old/x.css") sq)
  = py "href='" ++ asset_url (py "a/x.css") ++ py "'".
Proof.
  cbv zeta.
  apply (fallback_takes_first_entry [] [(py "b/x.css", py "b/x.css")]
           (py "a/x.css") (py "a/x.css")
           (ReMatch (py "href") sq (py "old/x.css") sq)).
  - by vm_compute.
  - intros k' v' H. by apply elem_of_nil in H.
  - by vm_compute.
Defined.

(** ** [is_remote] and surrounding whitespace *)

Lemma lstrip_by_split (p : N -> bool) (s : str) :
  exists w, s = w ++ lstrip_by p s.
Proof.
  induction s as [|c s [w IH]]; [by exists []|]. simpl.
  destruct (p c); [|by exists []]. exists (c :: w). simpl. by f_equal.
Qed.

Lemma rstrip_by_split (p : N -> bool) (s : str) :
  exists w, s = rstrip_by p s ++ w.
Proof.
  unfold rstrip_by. destruct (lstrip_by_split p (rev s)) as [w Hw].
  exists (rev w). rewrite <- rev_app_distr, <- Hw. by rewrite rev_involutive.
Qed.

Lemma strip_idem (s : str) : strip (strip s) = strip s.
Proof.
  unfold strip.
  pose proof (lstrip_by_head isspace s) as Hhead.
  set (t := lstrip_by isspace s) in *.
  destruct (rstrip_by_split isspace t) as [w Hw].
  pose proof (lstrip_by_head isspace (rev t)) as Hlast.
  assert (Hl : lstrip_by isspace (rstrip_by isspace t) = rstrip_by isspace t).
  { destruct (rstrip_by isspace t) as [|c u] eqn:Eu; [done|].
    rewrite Hw in Hhead. simpl in Hhead. by apply lstrip_by_id. }
  rewrite Hl. unfold rstrip_by at 1. unfold rstrip_by at 1.
  rewrite rev_involutive, lstrip_by_idem. done.
Qed.

(** X4. [is_remote] does not depend on whitespace around the value: it
    gives the same answer for a value and for the value stripped. *)
Theorem is_remote_strip (url : str) : is_remote (strip url) = is_remote url.
Proof.
  unfold is_remote. destruct url as [|c url]; [done|].
  destruct (strip (c :: url)) as [|d u] eqn:E; [done|].
  by rewrite <- E, strip_idem.
Qed.

(** ** What [collect_local_assets] returns *)

(** X5. Every reference that passes the tests of [collect_local_assets] is
    in its result: a [src] or [href] string value of a tag of the document
    that is not remote, whose suffix in lower case is in [ASSET_EXTS] and
    whose file exists under the site root, cleaned of its leading [.] and
    [/] characters. *)
Theorem collect_local_assets_complete (soup : node) (site_dir : path) (fs : FS)
    (tag : node) (attr val : str) :
  tag ∈ find_all soup ->
  attr ∈ [py "src"; py "href"] ->
  tag_attr tag attr = Some (AttrStr val) ->
  is_remote val = false ->
  lower (PurePath.suffix (lstrip (py "./") val)) ∈ ASSET_EXTS ->
  path_exists fs (site_dir ++ PurePath.parts (lstrip (py "./") val)) = true ->
  site_dir ++ PurePath.parts (lstrip (py "./") val)
  ∈ collect_local_assets soup site_dir fs.
Proof.
  intros Ht Ha Hattr Hr Hext Hex. apply collect_elem.
  exists tag, attr, val. unfold accepted. rewrite joinpath_cleaned.
  by repeat split.
Qed.

Lemma collect_local_assets_complete_witness :
  let img := Tag (py "img") [(py "src", AttrStr (py "/img/logo.PNG"))] [] in
  let fs : FS := {[ [py "site"] := Dir; [py "site"; py "img"] := Dir;
                    [py "site"; py "img"; py "logo.PNG"] := File [137; 80] ]} in
  [py "site"] ++ PurePath.parts (lstrip (py "./") (py "/img/logo.PNG"))
  ∈ collect_local_assets (Tag (py "[document]") [] [img]) [py "site"] fs.
Proof.
  cbv zeta.
  apply (collect_local_assets_complete _ _ _
           (Tag (py "img") [(py "src", AttrStr (py "/img/logo.PNG"))] [])
           (py "src")).
  - apply list_elem_of_here.
  - apply list_elem_of_here.
  - by vm_compute.
  - by vm_compute.
  - apply (bool_decide_unpack _). by vm_compute.
  - by vm_compute.
Defined.

Lemma set_add_NoDup (c : path) (l : list path) : NoDup l -> NoDup (set_add c l).
Proof.
  intros H. unfold set_add. case_bool_decide as Hc; [done|].
  apply NoDup_app. split; [done|]. split; [|apply NoDup_singleton].
  by intros x Hx ->%list_elem_of_singleton.
Qed.

Lemma collect_attr_NoDup (site_dir : path) (fs : FS) (tag : node)
    (assets : list path) (attr : str) :
  NoDup assets -> NoDup (collect_attr site_dir fs tag assets attr).
Proof.
  intros H. unfold collect_attr.
  repeat case_match; try done; by apply set_add_NoDup.
Qed.

(** The result of [collect_local_assets] is a set: no path occurs in it
    twice, however many tags refer to the same file. *)
Lemma collect_local_assets_NoDup (soup : node) (site_dir : path) (fs : FS) :
  NoDup (collect_local_assets soup site_dir fs).
Proof.
  unfold collect_local_assets.
  assert (H : NoDup ([] : list path)) by constructor.
  revert H. generalize ([] : list path).
  induction (find_all soup) as [|tag tags IH]; intros acc Hacc; [done|].
  simpl. apply IH. by do 2 apply collect_attr_NoDup.
Qed.

(** X6. Files added to the file system never remove an asset from the
    result: what [collect_local_assets] finds in a file system it finds in
    every larger one. *)
Theorem collect_local_assets_mono (soup : node) (site_dir : path)
    (fs fs' : FS) (p : path) :
  fs ⊆ fs' ->
  p ∈ collect_local_assets soup site_dir fs ->
  p ∈ collect_local_assets soup site_dir fs'.
Proof.
  intros Hsub (tag & attr & val & Ht & Ha & (Hattr & Hr & Hext & Hex) & ->)%collect_elem.
  apply collect_elem. exists tag, attr, val. repeat split; try done.
  by eapply path_exists_mono.
Qed.

Lemma collect_local_assets_mono_witness :
  let soup :=
    Tag (py "[document]") []
      [Tag (py "link") [(py "href", AttrStr (py "a.css"))] []] in
  let fs : FS := {[ [py "site"] := Dir; [py "site"; py "a.css"] := File [1] ]} in
  [py "site"; py "a.css"]
  ∈ collect_local_assets soup [py "site"]
      (<[ [py "site"; py "b.css"] := File [2] ]> fs).
Proof.
  cbv zeta.
  apply (collect_local_assets_mono _ _
           {[ [py "site"] := Dir; [py "site"; py "a.css"] := File [1] ]}).
  - apply insert_subseteq. by vm_compute.
  - apply (bool_decide_unpack _). by vm_compute.
Defined.

(** ** What the converter never removes *)

Lemma keeps_refl (fs : FS) : keeps fs fs.
Proof. by intros p. Qed.

Lemma keeps_trans (fs1 fs2 fs3 : FS) :
  keeps fs1 fs2 -> keeps fs2 fs3 -> keeps fs1 fs3.
Proof.
  intros H12 H23 p. destruct (H12 p) as [Ha Hb], (H23 p) as [Hc Hd]. split; auto.
Qed.

Lemma insert_keeps (fs : FS) (r : path) (e : entry) :
  (fs_get fs r = Some Dir -> e = Dir) -> keeps fs (<[r := e]> fs).
Proof.
  intros He p. destruct p as [|c p]; [done|]. simpl.
  destruct (decide (r = c :: p)) as [->|Hne].
  - rewrite lookup_insert_eq. split; [done|]. intros H. f_equal. by apply He.
  - by rewrite lookup_insert_ne.
Qed.

Lemma os_mkdir_keeps (p : path) (fs : FS) : keeps fs (os_mkdir p fs).2.
Proof.
  unfold os_mkdir. destruct (resolve fs p) as [e|r]; [apply keeps_refl|].
  destruct (fs_get fs r) eqn:E; [apply keeps_refl|].
  simpl. apply insert_keeps. by rewrite E.
Qed.

Lemma mkdir_parents_from_keeps (n : nat) (p : path) (fs : FS) :
  keeps fs (mkdir_parents_from n p fs).2.
Proof.
  revert p fs. induction n as [|n IH]; intros p fs;
    rewrite mkdir_parents_from_eq;
    pose proof (os_mkdir_keeps p fs) as H0;
    destruct (os_mkdir p fs) as [[[]|e] fs0]; try done.
  - destruct e; try (destruct (is_dir fs p)); apply keeps_refl.
  - destruct e; try (destruct (is_dir fs p); apply keeps_refl).
    case_bool_decide; [apply keeps_refl|].
    specialize (IH (removelast p) fs).
    destruct (mkdir_parents_from n (removelast p) fs) as [[[]|e] fs1]; [|done].
    simpl in IH. pose proof (os_mkdir_keeps p fs1) as H1.
    destruct (os_mkdir p fs1) as [[[]|e] fs2].
    + by apply (keeps_trans _ fs1).
    + destruct e; try (destruct (is_dir fs1 p)); done.
Qed.

Lemma read_bytes_state (p : path) (fs : FS) : (read_bytes p fs).2 = fs.
Proof.
  unfold read_bytes. destruct (resolve fs p); [done|].
  by destruct (fs_get fs _) as [[|]|].
Qed.

Lemma write_bytes_keeps (p : path) (content : list N) (fs : FS) :
  keeps fs (write_bytes p content fs).2.
Proof.
  unfold write_bytes. destruct (resolve fs p) as [e|r]; [apply keeps_refl|].
  destruct (fs_get fs r) as [[c|]|] eqn:E; try apply keeps_refl;
    simpl; apply insert_keeps; by rewrite E.
Qed.

Lemma copy2_keeps (src dst : path) (fs : FS) : keeps fs (copy2 src dst fs).2.
Proof.
  unfold copy2. destruct (samefile fs src _); [apply keeps_refl|].
  rewrite bind_unfold. pose proof (read_bytes_state src fs) as Hr.
  destruct (read_bytes src fs) as [[content|e] fs1]; simpl in Hr; subst fs1;
    [apply write_bytes_keeps|apply keeps_refl].
Qed.

Lemma bind_keeps {A B} (m : M A) (f : A -> M B) (fs : FS) :
  keeps fs (m fs).2 -> (forall a fs1, keeps fs1 (f a fs1).2) ->
  keeps fs ((m ≫= f) fs).2.
Proof.
  intros Hm Hf. rewrite bind_unfold. destruct (m fs) as [[a|e] fs1]; [|done].
  eapply keeps_trans; [exact Hm|apply Hf].
Qed.

Lemma foldM_keeps {A B} (f : B -> A -> M B) (l : list A) (b : B) (fs : FS) :
  (forall b a fs1, keeps fs1 (f b a fs1).2) -> keeps fs (foldM f l b fs).2.
Proof.
  intros Hf. revert b fs. induction l as [|x l IH]; intros b fs; [apply keeps_refl|].
  simpl. apply bind_keeps; [apply Hf|]. intros; apply IH.
Qed.

Lemma copy_asset_keeps (site_dir dest : path) (mapping : dict) (asset : path)
    (fs : FS) :
  keeps fs (copy_asset site_dir dest mapping asset fs).2.
Proof.
  unfold copy_asset. apply bind_keeps; [apply mkdir_parents_from_keeps|].
  intros _ fs1. apply bind_keeps; [apply copy2_keeps|]. intros _ fs2.
  destruct (relative_to _ _); apply keeps_refl.
Qed.

(** X7. [copy_assets] removes nothing, whether it returns or raises: every
    path that had an entry before still has one afterwards, and every
    directory is still a directory. *)
Theorem copy_assets_keeps (assets : list path) (site_dir dest : path) (fs : FS) :
  keeps fs (copy_assets assets site_dir dest fs).2.
Proof.
  unfold copy_assets. apply foldM_keeps. intros mapping asset fs1.
  apply copy_asset_keeps.
Qed.

Section Keeping.
Variable E : collaborators.

Lemma write_file_keeps (p : path) (content : str) (fs : FS) :
  keeps fs (write_file E p content fs).2.
Proof.
  unfold write_file. apply bind_keeps; [apply mkdir_parents_from_keeps|].
  intros _ fs1. destruct (utf8_encode E content); [apply write_bytes_keeps|].
  apply bind_keeps; [apply write_bytes_keeps|]. intros; apply keeps_refl.
Qed.

Lemma emit_theme_keeps (soup : node) (mapping : dict) (site_dir out_dir : path)
    (fs : FS) :
  keeps fs (emit_theme E soup mapping site_dir out_dir fs).2.
Proof.
  unfold emit_theme. apply bind_keeps.
  { unfold head_part. destruct (find _ soup); [|apply keeps_refl].
    destruct (find _ _); apply keeps_refl. }
  intros head_html fs1.
  destruct (match find (py "body") soup with Some _ => _ | None => _ end)
    as [[header_html main_html] footer_html].
  repeat (apply bind_keeps; [apply write_file_keeps|]; intros _ ?).
  apply bind_keeps; [apply keeps_refl|]. intros html_files fs7.
  apply foldM_keeps. intros _ html_file fs8.
  destruct (str_eqb _ _); [apply keeps_refl|apply copy2_keeps].
Qed.

Hypothesis Hrun : forall cmd cwd fs, keeps fs (subprocess_run E cmd cwd fs).2.

Lemma node_build_keeps (site_dir : path) (fs : FS) :
  keeps fs (node_build E site_dir fs).2.
Proof.
  unfold node_build. destruct (path_exists fs _); [|apply keeps_refl].
  destruct (npm_path E) as [npm|], (npx_path E) as [npx|]; try apply keeps_refl.
  - destruct (path_exists fs _).
    + pose proof (Hrun [npm; py "run"; py "build:css:prod"] site_dir fs) as H1.
      destruct (subprocess_run E [npm; py "run"; py "build:css:prod"] site_dir fs)
        as [[] fs2]; try done.
      pose proof (Hrun [npm; py "run"; py "build:css"] site_dir fs2) as H2.
      destruct (subprocess_run E [npm; py "run"; py "build:css"] site_dir fs2)
        as [? fs3]. by eapply keeps_trans.
    + pose proof (Hrun [npm; py "install"] site_dir fs) as H0.
      destruct (subprocess_run E [npm; py "install"] site_dir fs) as [[] fs1];
        try done.
      pose proof (Hrun [npm; py "run"; py "build:css:prod"] site_dir fs1) as H1.
      destruct (subprocess_run E [npm; py "run"; py "build:css:prod"] site_dir fs1)
        as [[] fs2]; try (by eapply keeps_trans).
      pose proof (Hrun [npm; py "run"; py "build:css"] site_dir fs2) as H2.
      destruct (subprocess_run E [npm; py "run"; py "build:css"] site_dir fs2)
        as [? fs3]. eapply keeps_trans; [done|]. by eapply keeps_trans.
  - destruct (path_exists fs _).
    + pose proof (Hrun [npm; py "run"; py "build:css:prod"] site_dir fs) as H1.
      destruct (subprocess_run E [npm; py "run"; py "build:css:prod"] site_dir fs)
        as [[] fs2]; try done.
      pose proof (Hrun [npm; py "run"; py "build:css"] site_dir fs2) as H2.
      destruct (subprocess_run E [npm; py "run"; py "build:css"] site_dir fs2)
        as [? fs3]. by eapply keeps_trans.
    + pose proof (Hrun [npm; py "install"] site_dir fs) as H0.
      destruct (subprocess_run E [npm; py "install"] site_dir fs) as [[] fs1];
        try done.
      pose proof (Hrun [npm; py "run"; py "build:css:prod"] site_dir fs1) as H1.
      destruct (subprocess_run E [npm; py "run"; py "build:css:prod"] site_dir fs1)
        as [[] fs2]; try (by eapply keeps_trans).
      pose proof (Hrun [npm; py "run"; py "build:css"] site_dir fs2) as H2.
      destruct (subprocess_run E [npm; py "run"; py "build:css"] site_dir fs2)
        as [? fs3]. eapply keeps_trans; [done|]. by eapply keeps_trans.
  - match goal with |- context [subprocess_run E ?c ?d ?f] =>
      pose proof (Hrun c d f) as H0; destruct (subprocess_run E c d f) as [? fs1]
    end. done.
Qed.

Lemma load_site_keeps (site_dir out_dir : path) (fs : FS) :
  keeps fs (load_site E site_dir out_dir fs).2.
Proof.
  unfold load_site. rewrite bind_unfold. unfold gets at 1.
  destruct (negb _); [apply keeps_refl|].
  apply bind_keeps.
  { unfold read_text. rewrite bind_unfold.
    pose proof (read_bytes_state (site_dir ++ [py "index.html"]) fs) as Hr.
    destruct (read_bytes _ fs) as [[content|e] fs1]; simpl in Hr; subst fs1;
      [|apply keeps_refl].
    destruct (utf8_decode E content); apply keeps_refl. }
  intros text fs1. apply bind_keeps; [apply mkdir_parents_from_keeps|].
  intros _ fs2. apply bind_keeps; [apply node_build_keeps|]. intros _ fs3.
  apply bind_keeps; [apply keeps_refl|]. intros assets fs4.
  apply bind_keeps; [|intros; apply keeps_refl].
  apply foldM_keeps. intros; apply copy_asset_keeps.
Qed.

End Keeping.

(** X8. When the child processes of the optional Node build remove
    nothing, [generate_theme] removes nothing either, whether it returns or
    raises: every path that had an entry still has one, and every directory
    is still a directory. *)
Theorem generate_theme_keeps (E : collaborators) (site_dir out_dir : path)
    (fs : FS) :
  (forall cmd cwd fs0, keeps fs0 (subprocess_run E cmd cwd fs0).2) ->
  keeps fs (generate_theme E site_dir out_dir fs).2.
Proof.
  intros Hrun. unfold generate_theme. apply bind_keeps.
  - by apply load_site_keeps.
  - intros [soup mapping] fs1. apply emit_theme_keeps.
Qed.

Lemma generate_theme_keeps_witness :
  let doc := Tag (py "[document]") [] [Tag (py "head") [] []] in
  let fs : FS := {[ [py "site"] := Dir;
                    [py "site"; py "index.html"] := File (py "<head></head>") ]} in
  keeps fs (generate_theme (example_collaborators doc) [py "site"]
              [py "site"; py "rmk-theme"] fs).2.
Proof.
  cbv zeta. apply generate_theme_keeps. intros cmd cwd fs0. apply keeps_refl.
Defined.

(** ** The keys of the mapping *)

Lemma dict_get_set_eq (mapping : dict) (key value : str) :
  dict_get (dict_set mapping key value) key = Some value.
Proof.
  induction mapping as [|[k v] rest IH]; simpl.
  - by rewrite str_eqb_refl.
  - destruct (str_eqb k key) eqn:E; simpl; by rewrite E.
Qed.

Lemma dict_get_set_ne (mapping : dict) (key value key' : str) :
  key <> key' ->
  dict_get (dict_set mapping key value) key' = dict_get mapping key'.
Proof.
  intros Hne. induction mapping as [|[k v] rest IH]; simpl.
  - by rewrite (proj2 (str_eqb_neq _ _) Hne).
  - destruct (str_eqb k key) eqn:E; simpl.
    + apply str_eqb_eq in E as ->. by rewrite (proj2 (str_eqb_neq _ _) Hne).
    + by rewrite IH.
Qed.

Lemma dict_set_keeps_keys (mapping : dict) (key value key' : str) :
  is_Some (dict_get mapping key') ->
  is_Some (dict_get (dict_set mapping key value) key').
Proof.
  intros H. destruct (decide (key = key')) as [->|Hne].
  - by rewrite dict_get_set_eq.
  - by rewrite dict_get_set_ne.
Qed.

Lemma copy_assets_loop_keys (site_dir dest : path) (assets : list path)
    (mapping0 mapping : dict) (fs fs' : FS) :
  foldM (copy_asset site_dir dest) assets mapping0 fs = (Ok mapping, fs') ->
  (forall key, is_Some (dict_get mapping0 key) -> is_Some (dict_get mapping key))
  /\ forall asset, asset ∈ assets ->
       is_Some (dict_get mapping
                  (replace (rel_str (asset_rel asset site_dir)) [backslash] (py "/"))).
Proof.
  revert mapping0 fs. induction assets as [|a assets IH]; intros mapping0 fs; simpl.
  - intros [= <- _]. split; [done|]. intros asset H. by apply elem_of_nil in H.
  - intros (m1 & fs1 & Hstep & Hrest)%bind_ok_inv.
    apply copy_asset_mapping in Hstep as ->.
    destruct (IH _ _ Hrest) as [Hkeep Hall]. split.
    + intros key Hkey. by apply Hkeep, dict_set_keeps_keys.
    + intros asset [->|Hin]%elem_of_cons; [|by apply Hall].
      apply Hkeep. by rewrite dict_get_set_eq.
Qed.

Lemma copy_assets_loop_lookup (site_dir dest : path) (assets : list path)
    (mapping : dict) (fs fs' : FS) (asset : path) :
  foldM (copy_asset site_dir dest) assets [] fs = (Ok mapping, fs') ->
  asset ∈ assets ->
  exists asset' v,
    asset' ∈ assets /\ v = rel_str (asset_rel asset' site_dir)
    /\ replace v [backslash] (py "/")
       = replace (rel_str (asset_rel asset site_dir)) [backslash] (py "/")
    /\ dict_get mapping (replace v [backslash] (py "/")) = Some v.
Proof.
  intros Hfold Hin.
  destruct (copy_assets_loop_keys _ _ _ _ _ _ _ Hfold) as [_ Hall].
  destruct (Hall asset Hin) as [v Hv].
  destruct (copy_assets_mapping _ _ _ _ _ _ _ _ _ Hfold (dict_get_elem _ _ _ Hv))
    as [H|(asset' & Ha & Hval & Hk)]; [by apply elem_of_nil in H|].
  exists asset', v. by rewrite <- Hk.
Qed.

(** X9. When [copy_assets] returns, its mapping has an entry for every
    asset, under the text of the asset's relative path with backslashes
    replaced by slashes; the value of the entry is the relative path of an
    asset with that key. *)
Theorem copy_assets_keys (assets : list path) (site_dir dest : path) (fs : FS)
    (mapping : dict) (asset : path) :
  (copy_assets assets site_dir dest fs).1 = Ok mapping ->
  asset ∈ assets ->
  let key := replace (rel_str (asset_rel asset site_dir)) [backslash] (py "/") in
  exists asset',
    asset' ∈ assets
    /\ replace (rel_str (asset_rel asset' site_dir)) [backslash] (py "/") = key
    /\ dict_get mapping key = Some (rel_str (asset_rel asset' site_dir)).
Proof.
  intros Hrun Hin key. unfold copy_assets in Hrun.
  destruct (foldM _ assets [] fs) as [r fs'] eqn:Hfold. simpl in Hrun. subst r.
  destruct (copy_assets_loop_lookup _ _ _ _ _ _ _ Hfold Hin)
    as (asset' & v & Hin' & -> & Hk & Hget).
  exists asset'. split; [done|]. split; [done|]. unfold key. by rewrite <- Hk.
Qed.

Lemma copy_assets_keys_witness :
  let fs : FS := {[ [py "site"] := Dir;
                    [py "site"; py "css"] := Dir;
                    [py "site"; py "css"; py "site.css"] := File [1; 2; 3];
                    [py "out"] := Dir ]} in
  exists asset',
    asset' ∈ [[py "site"; py "css"; py "site.css"]]
    /\ replace (rel_str (asset_rel asset' [py "site"])) [backslash] (py "/")
       = py "css/site.css"
    /\ dict_get [(py "css/site.css", py "css/site.css")] (py "css/site.css")
       = Some (rel_str (asset_rel asset' [py "site"])).
Proof.
  cbv zeta.
  apply (copy_assets_keys [[py "site"; py "css"; py "site.css"]] [py "site"]
           [py "out"; py "assets"]
           {[ [py "site"] := Dir;
              [py "site"; py "css"] := Dir;
              [py "site"; py "css"; py "site.css"] := File [1; 2; 3];
              [py "out"] := Dir ]}
           [(py "css/site.css", py "css/site.css")]
           [py "site"; py "css"; py "site.css"]).
  - by vm_compute.
  - apply list_elem_of_here.
Defined.

(** ** Writing a file and reading it back *)

Lemma fs_get_insert (fs : FS) (r x : path) (e : entry) :
  r <> [] ->
  fs_get (<[r := e]> fs) x = if bool_decide (x = r) then Some e else fs_get fs x.
Proof.
  intros Hr. case_bool_decide as Hx.
  - subst x. destruct r; [done|]. simpl. by rewrite lookup_insert_eq.
  - destruct x as [|c x]; [done|]. simpl. by rewrite lookup_insert_ne.
Qed.

Lemma write_bytes_ok (fs : FS) (p : path) (content : list N) :
  plain p -> dirs_to fs p -> fs_get fs p <> Some Dir ->
  write_bytes p content fs = (Ok tt, <[p := File content]> fs).
Proof.
  intros Hp Hd Hn. unfold write_bytes. rewrite (resolve_plain_ok _ _ Hp Hd).
  by destruct (fs_get fs p) as [[|]|].
Qed.

Section WriteRead.
Variable E : collaborators.

Lemma replace_first_absent (s old new : str) (c : N) :
  c ∉ s -> replace s (c :: old) new = s.
Proof.
  unfold replace. induction s as [|d s IH]; [done|].
  intros [Hd Hs]%not_elem_of_cons.
  change (replace_from (c :: old) new 0 (d :: s))
    with (if startswith (d :: s) (c :: old)
          then new ++ replace_from (c :: old) new (Nat.pred (length (c :: old))) s
          else d :: replace_from (c :: old) new 0 s).
  rewrite startswith_cons_ne by done. by rewrite IH.
Qed.

Lemma universal_newlines_id (s : str) : 13 ∉ s -> universal_newlines s = s.
Proof.
  intros H. unfold universal_newlines.
  rewrite (replace_first_absent s [10] [10] 13 H).
  exact (replace_first_absent s [] [10] 13 H).
Qed.

(** X10. Let [p] be a path without a [..] component that is not a
    directory and has no file on its way, and let the codec decode what it
    encodes of [content]. Then [write_file] returns, and reading the file as
    text afterwards gives [content] with its line ends translated, which is
    [content] itself when it holds no carriage return. *)
Theorem write_file_read_text (p : path) (content : str) (bytes : list N)
    (fs : FS) :
  plain p ->
  (forall q c, q `prefix_of` p -> q <> p -> fs_get fs q <> Some (File c)) ->
  fs_get fs p <> Some Dir ->
  utf8_encode E content = Some bytes ->
  utf8_decode E bytes = Some content ->
  exists fs',
    write_file E p content fs = (Ok tt, fs')
    /\ (read_text E p fs').1 = Ok (universal_newlines content)
    /\ (13 ∉ content -> (read_text E p fs').1 = Ok content).
Proof.
  intros Hp Hway Hnd Henc Hdec. unfold write_file.
  destruct p as [|c d _] using rev_ind; [done|].
  rewrite removelast_last. apply plain_app in Hp as Hp'. destruct Hp' as [Hpd _].
  destruct (mkdir_parents_ok d fs Hpd) as (fs1 & Hmk & Hfs1).
  { intros q c' Hq. apply Hway; [by apply prefix_app_r|].
    intros ->. by apply prefix_snoc_not in Hq. }
  rewrite bind_unfold, Hmk, Henc.
  assert (Hd1 : dirs_to fs1 (d ++ [c])).
  { intros q [Hq|Hq]%prefix_snoc Hne; [|done].
    by rewrite Hfs1, bool_decide_eq_true_2. }
  rewrite write_bytes_ok; [|done|done|].
  2:{ rewrite Hfs1, bool_decide_eq_false_2; [done|apply prefix_snoc_not]. }
  eexists. split; [done|].
  assert (Hne : d ++ [c] <> []) by by destruct d.
  assert (Hread : (read_text E (d ++ [c]) (<[d ++ [c] := File bytes]> fs1)).1
                  = Ok (universal_newlines content)).
  { unfold read_text. rewrite bind_unfold.
    rewrite (proj2 (read_bytes_plain _ (d ++ [c]) bytes Hp)).
    - by rewrite Hdec.
    - split.
      + intros q Hq Hq'. rewrite fs_get_insert, bool_decide_eq_false_2 by done.
        by apply Hd1.
      + by rewrite fs_get_insert, bool_decide_eq_true_2. }
  split; [done|]. intros Hcr. by rewrite Hread, universal_newlines_id.
Qed.

(** X11. When [index.html] is there but its bytes are not UTF-8 text,
    [generate_theme] raises the decoding error with the file system as it
    was: the text is read before anything is created. *)
Theorem undecodable_index_html (site_dir out_dir : path) (content : list N)
    (fs : FS) :
  (read_bytes (site_dir ++ [py "index.html"]) fs).1 = Ok content ->
  utf8_decode E content = None ->
  generate_theme E site_dir out_dir fs = (Raise UnicodeError, fs).
Proof.
  intros Hread Hdec. apply read_bytes_fst in Hread.
  assert (Hex : path_exists fs (site_dir ++ [py "index.html"]) = true).
  { unfold read_bytes in Hread. unfold path_exists.
    destruct (resolve fs _) as [e|r]; [done|].
    destruct (fs_get fs r) as [[c|]|] eqn:Hr; [|done..].
    by apply bool_decide_eq_true. }
  unfold generate_theme. apply bind_raise. unfold load_site.
  rewrite bind_unfold. unfold gets. rewrite Hex. simpl.
  apply bind_raise. unfold read_text. rewrite bind_unfold, Hread. by rewrite Hdec.
Qed.

End WriteRead.

Lemma write_file_read_text_witness :
  let E := example_collaborators (Tag (py "[document]") [] []) in
  let fs : FS := {[ [py "site"] := Dir ]} in
  exists fs',
    write_file E [py "site"; py "rmk-theme"; py "style.css"] style_css fs
    = (Ok tt, fs')
    /\ (read_text E [py "site"; py "rmk-theme"; py "style.css"] fs').1
       = Ok style_css.
Proof.
  cbv zeta.
  destruct (write_file_read_text (example_collaborators (Tag (py "[document]") [] []))
              [py "site"; py "rmk-theme"; py "style.css"] style_css style_css
              {[ [py "site"] := Dir ]}) as (fs' & Hw & _ & Hr).
  - repeat constructor; by vm_compute.
  - intros q c Hq Hne Hget. apply Hne.
    by apply (way_clear_spec {[ [py "site"] := Dir ]} [] _ q c).
  - by vm_compute.
  - done.
  - done.
  - exists fs'. split; [done|]. apply Hr.
    apply (bool_decide_unpack _). by vm_compute.
Defined.

Lemma undecodable_index_html_witness :
  let E := {| html_parser := fun _ => Tag (py "[document]") [] [];
              utf8_decode := fun _ => None;
              utf8_encode := Some;
              npm_path := None;
              npx_path := None;
              subprocess_run := fun _ _ fs => (Completed, fs);
              set_order := fun l => l;
              glob_order := fun l => l |} in
  let fs : FS := {[ [py "site"] := Dir;
                    [py "site"; py "index.html"] := File [255; 254] ]} in
  (generate_theme E [py "site"] [py "site"; py "rmk-theme"] fs).1
  = Raise UnicodeError.
Proof.
  cbv zeta.
  rewrite (undecodable_index_html _ [py "site"] [py "site"; py "rmk-theme"]
             [255; 254]); [done|by vm_compute|done].
Defined.

(** ** The fragments of a body without header and main tags *)

Lemma find_has_name_tag (l : list node) (first : node) :
  List.find has_name l = Some first ->
  exists name attrs children before after,
    first = Tag name attrs children /\ l = before ++ first :: after.
Proof.
  induction l as [|x l IH]; [done|]. simpl.
  destruct (has_name x) eqn:Hx.
  - intros [= <-]. destruct x as [name attrs children|k t]; [|done].
    by exists name, attrs, children, [], l.
  - intros (name & attrs & children & before & after & -> & ->)%IH.
    by exists name, attrs, children, (x :: before), after.
Qed.

(** X12. In a body with no [header] and no [main] tag anywhere, the header
    fragment is the first element among the children of the body, and
    unless that element is a [footer] it is also part of the main fragment:
    the same element is emitted into [header.php] and into [index.php]. *)
Theorem first_element_in_header_and_main (body first : node) (mapping : dict) :
  find (py "header") body = None ->
  find (py "main") body = None ->
  List.find has_name (contents body) = Some first ->
  node_name first <> Some (py "footer") ->
  header_part body mapping = replace_asset_paths_in_html (py_str first) mapping
  /\ exists before after,
       main_part body mapping
       = replace_asset_paths_in_html (before ++ py_str first ++ after) mapping.
Proof.
  intros Hh Hm Hfirst Hfoot. unfold header_part, main_part.
  rewrite Hh, Hm, Hfirst. split; [done|].
  apply find_has_name_tag in Hfirst
    as (name & attrs & children & l1 & l2 & -> & Hl).
  unfold main_fallback_parts. rewrite Hl, flat_map_app. simpl flat_map.
  assert (str_eqb name (py "header") = false) as ->.
  { apply str_eqb_neq. intros ->. unfold find in Hh.
    assert (Hin : Tag (py "header") attrs children ∈ descendants body).
    { destruct body as [bn ba bc|]; [|by destruct l1]. simpl in Hl. subst bc.
      simpl. rewrite flat_map_app. simpl.
      apply elem_of_app. right. apply list_elem_of_here. }
    apply list_elem_of_In in Hin.
    by apply (find_none _ _ Hh) in Hin. }
  assert (str_eqb name (py "footer") = false) as ->.
  { apply str_eqb_neq. intros ->. by apply Hfoot. }
  simpl. rewrite concat_app. simpl. eauto.
Qed.

Lemma first_element_in_header_and_main_witness :
  let first := Tag (py "div") [] [NavigableString Text (py "A")] in
  let body := Tag (py "body") [] [first; Tag (py "p") [] [NavigableString Text (py "B")]] in
  header_part body [] = py "<div>A</div>"
  /\ main_part body [] = py "<div>A</div><p>B</p>".
Proof.
  cbv zeta.
  destruct (first_element_in_header_and_main
              (Tag (py "body") []
                 [Tag (py "div") [] [NavigableString Text (py "A")];
                  Tag (py "p") [] [NavigableString Text (py "B")]])
              (Tag (py "div") [] [NavigableString Text (py "A")]) [])
    as [H _]; [by vm_compute..|].
  split; [rewrite H|]; by vm_compute.
Defined.

(** ** The normalization of the mapping *)

Lemma dict_set_fresh (mapping : dict) (key value : str) :
  key ∉ mapping.*1 -> dict_set mapping key value = mapping ++ [(key, value)].
Proof.
  induction mapping as [|[k v] rest IH]; [done|]. simpl.
  intros [Hk Hrest]%not_elem_of_cons.
  rewrite (proj2 (str_eqb_neq k key)) by done. by rewrite IH.
Qed.

Lemma normalize_mapping_from (out_name : str) (mapping acc : dict) :
  NoDup (acc.*1 ++ mapping.*1) ->
  fold_left (fun normalized '(k, v) =>
               dict_set normalized k (normalize_value out_name v))
            mapping acc
  = acc ++ (prod_map id (normalize_value out_name) <$> mapping).
Proof.
  revert acc. induction mapping as [|[k v] rest IH]; intros acc Hnd; simpl.
  - by rewrite app_nil_r.
  - simpl in Hnd. apply NoDup_app in Hnd as Hnd'.
    destruct Hnd' as (Hacc & Hdisj & Hrest).
    rewrite dict_set_fresh.
    2:{ intros Hin. apply (Hdisj _ Hin). apply list_elem_of_here. }
    rewrite IH; [by rewrite <- app_assoc|].
    rewrite fmap_app. simpl. rewrite <- app_assoc. done.
Qed.

(** X13. The normalization loop of [generate_theme] changes values only:
    the normalized mapping has the keys of the mapping, in the same order,
    each with its value normalized. *)
Theorem normalize_mapping_values (out_name : str) (mapping : dict) :
  NoDup mapping.*1 ->
  normalize_mapping out_name mapping
  = prod_map id (normalize_value out_name) <$> mapping.
Proof. intros H. unfold normalize_mapping. by rewrite normalize_mapping_from. Qed.

Lemma normalize_mapping_values_witness :
  normalize_mapping (py "rmk-theme")
    [(py "a", py "rmk-theme/assets/css/a.css"); (py "b", py "assets/b.js")]
  = [(py "a", py "css/a.css"); (py "b", py "b.js")].
Proof.
  rewrite normalize_mapping_values; [by vm_compute|].
  apply (bool_decide_unpack _). by vm_compute.
Defined.

(** ** Normalization, component by component *)

Lemma join_starts (rel : path) (x : str) :
  wf_parts rel -> rel <> [] -> slash ∉ x ->
  startswith (join [slash] rel) (x ++ [slash]) = true ->
  exists rest,
    rel = x :: rest /\ rest <> []
    /\ drop (length x + 1) (join [slash] rel) = join [slash] rest.
Proof.
  intros Hwf Hne Hx Hsw. apply startswith_drop in Hsw.
  rewrite <- app_assoc, length_app in Hsw. simpl in Hsw.
  pose proof (split_slash_join rel Hwf Hne) as Hs.
  rewrite Hsw, split_slash_app_gen, split_slash_plain in Hs by done.
  exists (split_slash (drop (length x + 1) (join [slash] rel))).
  split; [done|]. split; [apply split_slash_ne|]. by rewrite join_split_slash.
Qed.

(** X14. On the text of a relative path with proper components,
    normalization removes whole leading components and nothing else: at
    most the component that is the name of the output folder, followed by at
    most the component [assets], and never the whole path. *)
Theorem normalize_value_components (out_name : str) (rel : path) :
  wf_parts rel -> rel <> [] -> slash ∉ out_name ->
  exists skipped rest,
    rel = skipped ++ rest /\ rest <> []
    /\ normalize_value out_name (rel_str rel) = rel_str rest
    /\ (skipped = [] \/ skipped = [out_name] \/ skipped = [py "assets"]
        \/ skipped = [out_name; py "assets"]).
Proof.
  intros Hwf Hne Hout. unfold normalize_value.
  assert (Hstr : forall r, r <> [] -> rel_str r = join [slash] r)
    by (by intros []).
  rewrite (Hstr rel Hne).
  assert (lstrip (py "/") (join [slash] rel) = join [slash] rel) as ->.
  { pose proof (join_wf_head rel Hwf Hne) as Hh. unfold lstrip.
    change (py "/") with [slash].
    destruct (join [slash] rel) as [|a t]; [done|].
    rewrite startswith_char in Hh. apply lstrip_by_id.
    by rewrite mem_cons, N.eqb_sym, Hh. }
  change (py "/") with [slash].
  change (py "assets/") with (py "assets" ++ [slash]).
  change (length (py "assets" ++ [slash])) with (length (py "assets") + 1)%nat.
  assert (Hassets : slash ∉ py "assets").
  { apply (bool_decide_unpack _). by vm_compute. }
  destruct (startswith (join [slash] rel) (out_name ++ [slash])) eqn:E1.
  - destruct (join_starts rel out_name Hwf Hne Hout E1) as (r1 & -> & Hne1 & ->).
    assert (Hwf1 : wf_parts r1) by by inversion Hwf.
    destruct (startswith (join [slash] r1) (py "assets" ++ [slash])) eqn:E2.
    + destruct (join_starts r1 _ Hwf1 Hne1 Hassets E2) as (r2 & -> & Hne2 & ->).
      exists [out_name; py "assets"], r2. rewrite (Hstr r2 Hne2). auto 10.
    + exists [out_name], r1. rewrite (Hstr r1 Hne1). auto 10.
  - destruct (startswith (join [slash] rel) (py "assets" ++ [slash])) eqn:E2.
    + destruct (join_starts rel _ Hwf Hne Hassets E2) as (r2 & -> & Hne2 & ->).
      exists [py "assets"], r2. rewrite (Hstr r2 Hne2). auto 10.
    + exists [], rel. rewrite (Hstr rel Hne). auto 10.
Qed.

Lemma normalize_value_components_witness :
  exists skipped rest,
    [py "rmk-theme"; py "assets"; py "css"; py "a.css"] = skipped ++ rest
    /\ rest <> []
    /\ normalize_value (py "rmk-theme")
         (rel_str [py "rmk-theme"; py "assets"; py "css"; py "a.css"])
       = rel_str rest
    /\ (skipped = [] \/ skipped = [py "rmk-theme"] \/ skipped = [py "assets"]
        \/ skipped = [py "rmk-theme"; py "assets"]).
Proof.
  apply (normalize_value_components (py "rmk-theme")
           [py "rmk-theme"; py "assets"; py "css"; py "a.css"]).
  - repeat constructor; try (by vm_compute);
      apply (bool_decide_unpack _); by vm_compute.
  - done.
  - apply (bool_decide_unpack _). by vm_compute.
Defined.

(** ** From the relocated asset to the rewritten reference *)

Lemma dict_set_keys (mapping : dict) (key value : str) :
  NoDup mapping.*1 -> NoDup (dict_set mapping key value).*1.
Proof.
  induction mapping as [|[k v] rest IH]; simpl.
  - intros _. apply NoDup_singleton.
  - intros [Hk Hrest]%NoDup_cons. destruct (str_eqb k key) eqn:E; simpl.
    + by apply NoDup_cons.
    + apply NoDup_cons. split; [|by apply IH].
      intros Hin. apply Hk. apply str_eqb_neq in E.
      apply list_elem_of_fmap in Hin as [[k' v'] [Heq Hin]]. simpl in Heq. subst k'.
      apply dict_set_elem in Hin as [[-> _]|Hin]; [done|].
      apply list_elem_of_fmap. by exists (k, v').
Qed.

Lemma copy_assets_loop_NoDup (site_dir dest : path) (assets : list path)
    (mapping0 mapping : dict) (fs fs' : FS) :
  foldM (copy_asset site_dir dest) assets mapping0 fs = (Ok mapping, fs') ->
  NoDup mapping0.*1 -> NoDup mapping.*1.
Proof.
  revert mapping0 fs. induction assets as [|a assets IH]; intros mapping0 fs; simpl.
  - by intros [= <- _].
  - intros (m1 & fs1 & Hstep & Hrest)%bind_ok_inv Hnd.
    apply copy_asset_mapping in Hstep as ->.
    apply (IH _ _ Hrest). by apply dict_set_keys.
Qed.

Lemma dict_get_fmap (f : str -> str) (mapping : dict) (key : str) :
  dict_get (prod_map id f <$> mapping) key = f <$> dict_get mapping key.
Proof.
  induction mapping as [|[k v] rest IH]; [done|]. simpl.
  by destruct (str_eqb k key).
Qed.

(** X15. The relocator, the normalization and the rewriter together: when
    [copy_assets] returns, an occurrence whose normalized value is the key
    of an asset is rewritten by [repl], with the mapping as
    [generate_theme] normalizes it, to the PHP prefix, [/assets/] and the
    normalized relative path of an asset with that key, between the opening
    quote. *)
Theorem asset_reference_rewritten (assets : list path) (site_dir dest : path)
    (fs : FS) (mapping : dict) (asset : path) (out_name : str) (m : rematch) :
  (copy_assets assets site_dir dest fs).1 = Ok mapping ->
  asset ∈ assets ->
  rewrite_key (g_val m)
  = replace (rel_str (asset_rel asset site_dir)) [backslash] (py "/") ->
  exists asset',
    asset' ∈ assets
    /\ replace (rel_str (asset_rel asset' site_dir)) [backslash] (py "/")
       = rewrite_key (g_val m)
    /\ repl (normalize_mapping out_name mapping) m
       = g_attr m ++ py "=" ++ [g_quote m]
         ++ asset_url (normalize_value out_name
                         (rel_str (asset_rel asset' site_dir)))
         ++ [g_quote m].
Proof.
  intros Hrun Hin Hkey. unfold copy_assets in Hrun.
  destruct (foldM _ assets [] fs) as [r fs'] eqn:Hfold. simpl in Hrun. subst r.
  destruct (copy_assets_loop_lookup _ _ _ _ _ _ _ Hfold Hin)
    as (asset' & v & Hin' & -> & Hk & Hget).
  exists asset'. split; [done|]. split; [by rewrite Hkey|].
  assert (Hnd : NoDup mapping.*1).
  { apply (copy_assets_loop_NoDup _ _ _ _ _ _ _ Hfold). constructor. }
  unfold repl, normalize_mapping.
  rewrite normalize_mapping_from by (by simpl).
  simpl app. rewrite dict_get_fmap, Hkey, <- Hk, Hget. done.
Qed.

Lemma asset_reference_rewritten_witness :
  let fs : FS := {[ [py "site"] := Dir;
                    [py "site"; py "css"] := Dir;
                    [py "site"; py "css"; py "site.css"] := File [1; 2; 3];
                    [py "out"] := Dir ]} in
  let m := ReMatch (py "href") dq (py "./css/site.css") dq in
  exists asset',
    asset' ∈ [[py "site"; py "css"; py "site.css"]]
    /\ replace (rel_str (asset_rel asset' [py "site"])) [backslash] (py "/")
       = rewrite_key (g_val m)
    /\ repl (normalize_mapping (py "out") [(py "css/site.css", py "css/site.css")]) m
       = g_attr m ++ py "=" ++ [g_quote m]
         ++ asset_url (normalize_value (py "out")
                         (rel_str (asset_rel asset' [py "site"])))
         ++ [g_quote m].
Proof.
  cbv zeta.
  apply (asset_reference_rewritten [[py "site"; py "css"; py "site.css"]]
           [py "site"] [py "out"; py "assets"]
           {[ [py "site"] := Dir;
              [py "site"; py "css"] := Dir;
              [py "site"; py "css"; py "site.css"] := File [1; 2; 3];
              [py "out"] := Dir ]}
           [(py "css/site.css", py "css/site.css")]
           [py "site"; py "css"; py "site.css"]).
  - by vm_compute.
  - apply list_elem_of_here.
  - by vm_compute.
Defined.

(** ** The files of the theme *)

Lemma os_mkdir_extends (p : path) (fs : FS) (x : path) (e : entry) :
  fs_get fs x = Some e -> fs_get (os_mkdir p fs).2 x = Some e.
Proof.
  intros Hx. unfold os_mkdir. destruct (resolve fs p) as [|r]; [done|].
  destruct (fs_get fs r) eqn:Hr; [done|]. simpl.
  destruct x as [|c x]; [done|]. simpl in *.
  rewrite lookup_insert_ne; [done|]. intros ->. simpl in Hr. congruence.
Qed.

Lemma mkdir_parents_from_extends (n : nat) (p : path) (fs : FS) (x : path)
    (e : entry) :
  fs_get fs x = Some e -> fs_get (mkdir_parents_from n p fs).2 x = Some e.
Proof.
  revert p fs. induction n as [|n IH]; intros p fs Hx;
    rewrite mkdir_parents_from_eq;
    pose proof (os_mkdir_extends p fs x e Hx) as H0;
    destruct (os_mkdir p fs) as [[[]|err] fs0]; try done.
  - destruct err; try (destruct (is_dir fs p)); done.
  - destruct err; try (destruct (is_dir fs p); done).
    case_bool_decide; [done|].
    specialize (IH (removelast p) fs Hx).
    destruct (mkdir_parents_from n (removelast p) fs) as [[[]|err] fs1]; [|done].
    simpl in IH. pose proof (os_mkdir_extends p fs1 x e IH) as H1.
    destruct (os_mkdir p fs1) as [[[]|err] fs2]; [done|].
    destruct err; try (destruct (is_dir fs1 p)); done.
Qed.

Lemma os_mkdir_dom (p : path) (fs : FS) (x : path) :
  plain p -> is_Some ((os_mkdir p fs).2 !! x) -> is_Some (fs !! x) \/ x = p.
Proof.
  intros Hp. unfold os_mkdir. destruct (resolve fs p) as [|r] eqn:Hr; [by left|].
  apply resolve_plain_inv in Hr as [-> _]; [|done].
  destruct (fs_get fs p); [by left|]. simpl.
  destruct (decide (x = p)) as [->|Hne]; [by right|].
  rewrite lookup_insert_ne by done. by left.
Qed.

Lemma plain_removelast (p : path) : plain p -> plain (removelast p).
Proof.
  intros Hp. destruct p as [|c d _] using rev_ind; [done|].
  rewrite removelast_last. by apply plain_app in Hp as [? _].
Qed.

Lemma prefix_removelast (x p : path) : x `prefix_of` removelast p -> x `prefix_of` p.
Proof.
  destruct p as [|c d _] using rev_ind; [done|].
  rewrite removelast_last. by apply prefix_app_r.
Qed.

Lemma mkdir_parents_from_dom (n : nat) (p : path) (fs : FS) (x : path) :
  plain p -> is_Some ((mkdir_parents_from n p fs).2 !! x) ->
  is_Some (fs !! x) \/ x `prefix_of` p.
Proof.
  revert p fs. induction n as [|n IH]; intros p fs Hp;
    rewrite mkdir_parents_from_eq;
    pose proof (os_mkdir_dom p fs x Hp) as H0;
    destruct (os_mkdir p fs) as [[[]|err] fs0]; simpl in H0.
  - intros [?| ->]%H0; [by left|by right].
  - destruct err; try (destruct (is_dir fs p)); by left.
  - intros [?| ->]%H0; [by left|by right].
  - destruct err; try (destruct (is_dir fs p); by left).
    case_bool_decide; [by left|].
    specialize (IH (removelast p) fs (plain_removelast _ Hp)).
    destruct (mkdir_parents_from n (removelast p) fs) as [[[]|err] fs1];
      simpl in IH.
    2:{ intros [?|?]%IH; [by left|]. right. by apply prefix_removelast. }
    pose proof (os_mkdir_dom p fs1 x Hp) as H1.
    assert (Hfs1 : is_Some (fs1 !! x) -> is_Some (fs !! x) \/ x `prefix_of` p).
    { intros [?|?]%IH; [by left|]. right. by apply prefix_removelast. }
    destruct (os_mkdir p fs1) as [[[]|err] fs2]; simpl in H1.
    + intros [?| ->]%H1; [by apply Hfs1|by right].
    + destruct err; try (destruct (is_dir fs1 p)); done.
Qed.

Lemma listdir_elem (fs : FS) (r : path) (name : str) :
  name ∈ listdir fs r -> is_Some (fs !! (r ++ [name])).
Proof.
  unfold listdir. intros [[p e] [Hin Hname]]%list_elem_of_omap.
  apply elem_of_map_to_list in Hin. simpl in Hname.
  destruct (reverse p) as [|n parent] eqn:Hrev; [done|].
  case_bool_decide as Hparent; [|done]. injection Hname as ->. subst r.
  apply (f_equal reverse) in Hrev. rewrite reverse_involutive in Hrev.
  rewrite reverse_cons in Hrev. rewrite <- Hrev. by eexists.
Qed.

Lemma endswith_app (s suffix : str) :
  endswith s suffix = true -> exists r, s = r ++ suffix.
Proof.
  unfold endswith. intros [r Hr]%startswith_spec. exists (reverse r).
  apply (f_equal reverse) in Hr.
  by rewrite reverse_involutive, reverse_app, reverse_involutive in Hr.
Qed.

(** A listed name that ends in [.html], as a path under [out_dir]. *)
Lemma html_name_path (out_dir : path) (name : str) :
  slash ∉ name -> endswith name (py ".html") = true ->
  joinpath out_dir name = out_dir ++ [name]
  /\ name <> py ".." /\ name <> [].
Proof.
  intros Hs [r ->]%endswith_app.
  assert (Hne : r ++ py ".html" <> []) by by destruct r.
  assert (Hdd : r ++ py ".html" <> py "..").
  { intros H. apply (f_equal reverse) in H. rewrite reverse_app in H.
    by vm_compute in H. }
  split; [|done]. unfold joinpath.
  assert (startswith (r ++ py ".html") (py "/") = false) as ->.
  { change (py "/") with [slash]. destruct (r ++ py ".html") as [|c s]; [done|].
    rewrite startswith_char. apply not_elem_of_cons in Hs as [Hc _].
    by apply N.eqb_neq. }
  f_equal. unfold PurePath.parts. rewrite split_slash_plain by done. simpl.
  assert (PurePath.is_part (r ++ py ".html") = true) as ->; [|done].
  unfold PurePath.is_part. apply andb_true_iff. split; apply negb_true_iff;
    apply str_eqb_neq; [done|].
  intros H. apply (f_equal reverse) in H. rewrite reverse_app in H.
  by vm_compute in H.
Qed.

Lemma holds_read (fs : FS) (p : path) (bytes : list N) :
  plain p -> holds fs p bytes -> (read_bytes p fs).1 = Ok bytes.
Proof. intros Hp H. by apply read_bytes_fst, read_bytes_plain. Qed.

Lemma holds_keeps (fs fs' : FS) (p : path) (bytes : list N) :
  keeps fs fs' -> holds fs p bytes ->
  fs_get fs' p = Some (File bytes) -> holds fs' p bytes.
Proof.
  intros Hk [Hd _] Hget. split; [|done]. intros q Hq Hne.
  by apply Hk, Hd.
Qed.

Lemma write_bytes_other (p : path) (content : list N) (fs : FS) (x : path)
    (e : entry) :
  plain p -> x <> p -> fs_get fs x = Some e ->
  fs_get (write_bytes p content fs).2 x = Some e.
Proof.
  intros Hp Hne Hx. unfold write_bytes.
  destruct (resolve fs p) as [|r] eqn:Hr; [done|].
  apply resolve_plain_inv in Hr as [-> _]; [|done].
  destruct (fs_get fs p) as [[|]|] eqn:E; simpl; try done;
    (rewrite fs_get_insert, bool_decide_eq_false_2; [done..|by intros ->]).
Qed.

Lemma copy2_other (src dst : path) (fs : FS) (x : path) (e : entry) :
  plain dst -> plain (dst ++ [path_name src]) ->
  x <> dst -> x <> dst ++ [path_name src] ->
  fs_get fs x = Some e -> fs_get (copy2 src dst fs).2 x = Some e.
Proof.
  intros Hp1 Hp2 Hne1 Hne2 Hx. unfold copy2.
  set (target := if is_dir fs dst then _ else dst).
  assert (Ht : plain target /\ x <> target).
  { unfold target. destruct (is_dir fs dst); [|done]. by destruct src. }
  destruct Ht as [Hpt Hnet].
  destruct (samefile fs src target); [done|]. rewrite bind_unfold.
  pose proof (read_bytes_state src fs) as Hr.
  destruct (read_bytes src fs) as [[content|err] fs1]; simpl in Hr; subst fs1;
    [|done].
  by apply write_bytes_other.
Qed.

Section ThemeFiles.
Variable E : collaborators.

Lemma write_file_inv (p : path) (content : str) (fs fs1 : FS) :
  plain p -> write_file E p content fs = (Ok tt, fs1) ->
  exists bytes,
    utf8_encode E content = Some bytes /\ holds fs1 p bytes
    /\ (forall x e, x <> p -> fs_get fs x = Some e -> fs_get fs1 x = Some e)
    /\ (forall x, is_Some (fs1 !! x) -> is_Some (fs !! x) \/ x `prefix_of` p).
Proof.
  intros Hp. unfold write_file.
  intros ([] & fs0 & Hmk & Hwr)%bind_ok_inv.
  destruct (utf8_encode E content) as [bytes|]; [|by apply bind_ok_inv in Hwr as (? & ? & _ & ?)].
  exists bytes. split; [done|].
  assert (Hfs0 : fs0 = (mkdir_parents (removelast p) fs).2) by by rewrite Hmk.
  unfold write_bytes in Hwr.
  destruct (resolve fs0 p) as [|r] eqn:Hr; [done|].
  apply resolve_plain_inv in Hr as [-> Hd]; [|done].
  assert (Hp0 : p <> []).
  { intros ->. by simpl in Hwr. }
  assert (fs1 = <[p := File bytes]> fs0) as ->.
  { by destruct (fs_get fs0 p) as [[|]|]; simplify_eq. }
  split; [|split].
  - split.
    + intros q Hq Hne. rewrite fs_get_insert, bool_decide_eq_false_2 by done.
      by apply Hd.
    + by rewrite fs_get_insert, bool_decide_eq_true_2.
  - intros x e Hne Hx. rewrite fs_get_insert, bool_decide_eq_false_2 by done.
    subst fs0. by apply mkdir_parents_from_extends.
  - intros x Hx. destruct (decide (x = p)) as [->|Hne]; [by right|].
    rewrite lookup_insert_ne in Hx by done. subst fs0.
    apply mkdir_parents_from_dom in Hx as [?|?];
      [by left| |by apply plain_removelast].
    right. by apply prefix_removelast.
Qed.

Lemma write_file_holds (p : path) (content : str) (fs fs1 : FS) (x : path)
    (bytes : list N) :
  plain p -> write_file E p content fs = (Ok tt, fs1) -> x <> p ->
  holds fs x bytes -> holds fs1 x bytes.
Proof.
  intros Hp Hw Hne Hx.
  pose proof (write_file_keeps E p content fs) as Hk. rewrite Hw in Hk.
  apply (holds_keeps fs); [done..|].
  destruct (write_file_inv _ _ _ _ Hp Hw) as (_ & _ & _ & Hother & _).
  apply Hother; [done|]. by destruct Hx.
Qed.

Lemma write_file_names (p : path) (content : str) (fs fs1 : FS) :
  plain p -> write_file E p content fs = (Ok tt, fs1) ->
  Forall (fun c => slash ∉ c) p -> names_ok fs -> names_ok fs1.
Proof.
  intros Hp Hw Hslash Hok x e Hx.
  destruct (write_file_inv _ _ _ _ Hp Hw) as (_ & _ & _ & _ & Hdom).
  destruct (Hdom x) as [[e' He']|[k ->]]; [by eexists|by eapply Hok|].
  by apply Forall_app in Hslash as [? _].
Qed.

(** The loop that copies the other pages. *)
Lemma copy_pages_holds (site_dir out_dir : path) (files : list path) (fs : FS)
    (f : str) (bytes : list N) :
  plain out_dir ->
  (forall file, file ∈ files ->
     exists name, file = site_dir ++ [name] /\ (slash ∉ name)
                  /\ endswith name (py ".html") = true) ->
  endswith f (py ".html") = false ->
  holds fs (out_dir ++ [f]) bytes ->
  holds (foldM (fun (_ : unit) html_file =>
                  if str_eqb (path_name html_file) (py "index.html") then mret tt
                  else copy2 html_file (joinpath out_dir (path_name html_file)))
               files tt fs).2 (out_dir ++ [f]) bytes.
Proof.
  intros Hout Hfiles Hf. revert fs.
  induction files as [|file files IH]; intros fs Hholds; [done|].
  simpl. rewrite bind_unfold.
  destruct (Hfiles file (list_elem_of_here _ _)) as (name & -> & Hslash & Hend).
  assert (Hname : path_name (site_dir ++ [name]) = name).
  { unfold path_name. apply List.last_last. }
  rewrite Hname.
  destruct (html_name_path out_dir name Hslash Hend) as (Hjoin & Hdd & Hne).
  rewrite Hjoin.
  assert (Hnf : name <> f) by (by intros ->; rewrite Hend in Hf).
  assert (Hstep : holds
    ((if str_eqb name (py "index.html") then mret tt
      else copy2 (site_dir ++ [name]) (out_dir ++ [name])) fs).2
    (out_dir ++ [f]) bytes).
  { destruct (str_eqb name (py "index.html")); [done|].
    apply (holds_keeps fs); [apply copy2_keeps|done|].
    apply copy2_other; rewrite ?Hname.
    - apply plain_app. split; [done|]. by repeat constructor.
    - rewrite <- app_assoc. apply plain_app. split; [done|]. by repeat constructor.
    - intros H. by apply app_inv_head in H as [= ->].
    - rewrite <- app_assoc. intros H. by apply app_inv_head in H.
    - by destruct Hholds. }
  destruct ((if str_eqb name (py "index.html") then mret tt
             else copy2 (site_dir ++ [name]) (out_dir ++ [name])) fs)
    as [[[]|err] fs1]; [|done].
  apply IH; [|done]. intros file' Hin. apply Hfiles. by apply list_elem_of_further.
Qed.

Hypothesis Hglob : forall l name, name ∈ glob_order E l -> name ∈ l.

Lemma glob_html_names (fs : FS) (site_dir : path) (file : path) :
  names_ok fs -> plain site_dir -> file ∈ glob_html E fs site_dir ->
  exists name, file = site_dir ++ [name] /\ (slash ∉ name)
               /\ endswith name (py ".html") = true.
Proof.
  intros Hok Hsite. unfold glob_html.
  destruct (resolve fs site_dir) as [|r] eqn:Hr; [by intros ?%elem_of_nil|].
  apply resolve_plain_inv in Hr as [-> _]; [|done].
  intros (name & -> & Hin)%list_elem_of_fmap. exists name. split; [done|].
  apply Hglob, list_elem_of_In, filter_In in Hin as [Hin Hend].
  apply list_elem_of_In, listdir_elem in Hin as [e He].
  apply Hok in He. apply Forall_app in He as [_ He].
  apply (proj1 (Forall_singleton _ _)) in He. by split.
Qed.

End ThemeFiles.

Section ThemeWritten.
Variable E : collaborators.
Hypothesis Hglob : forall l name, name ∈ glob_order E l -> name ∈ l.

Lemma head_part_state (soup : node) (mapping : dict) (fs : FS) :
  (head_part E soup mapping fs).2 = fs.
Proof.
  unfold head_part. destruct (find _ soup); [|done]. by destruct (find _ _).
Qed.

Lemma theme_name_ok (out_dir : path) (f : str) :
  Forall (fun c => slash ∉ c) out_dir -> bool_decide (slash ∉ f) = true ->
  Forall (fun c => slash ∉ c) (out_dir ++ [f]).
Proof.
  intros Hout Hf%bool_decide_eq_true. apply Forall_app. split; [done|].
  by apply Forall_singleton.
Qed.

Lemma theme_name_plain (out_dir : path) (f : str) :
  plain out_dir -> bool_decide (f <> py "..") = true -> plain (out_dir ++ [f]).
Proof.
  intros Hout Hf%bool_decide_eq_true. apply plain_app. split; [done|].
  by apply Forall_singleton.
Qed.

Lemma theme_name_ne (out_dir : path) (f g : str) :
  bool_decide (f <> g) = true -> out_dir ++ [f] <> out_dir ++ [g].
Proof. intros Hf%bool_decide_eq_true H. by apply app_inv_head in H as [= ->]. Qed.

(** The part of [emit_theme] that writes the files and copies the other
    pages, for given fragments. *)
Lemma theme_files_written (c1 c2 c3 c4 c5 : str) (site_dir out_dir : path)
    (fs fs' : FS) :
  plain site_dir -> plain out_dir ->
  Forall (fun c => slash ∉ c) out_dir -> names_ok fs ->
  (write_file E (out_dir ++ [py "style.css"]) c1;;
   write_file E (out_dir ++ [py "functions.php"]) c2;;
   write_file E (out_dir ++ [py "header.php"]) c3;;
   write_file E (out_dir ++ [py "footer.php"]) c4;;
   write_file E (out_dir ++ [py "index.php"]) c5;;
   html_files ← gets (fun fs => glob_html E fs site_dir);
   foldM (fun (_ : unit) html_file =>
            if str_eqb (path_name html_file) (py "index.html") then mret tt
            else copy2 html_file (joinpath out_dir (path_name html_file)))
         html_files tt) fs = (Ok tt, fs') ->
  written E fs' (out_dir ++ [py "style.css"]) c1
  /\ written E fs' (out_dir ++ [py "functions.php"]) c2
  /\ written E fs' (out_dir ++ [py "header.php"]) c3
  /\ written E fs' (out_dir ++ [py "footer.php"]) c4
  /\ written E fs' (out_dir ++ [py "index.php"]) c5.
Proof.
  intros Hsite Hout Hslash Hok.
  intros ([] & fs1 & Hw1 & H)%bind_ok_inv.
  apply bind_ok_inv in H as ([] & fs2 & Hw2 & H).
  apply bind_ok_inv in H as ([] & fs3 & Hw3 & H).
  apply bind_ok_inv in H as ([] & fs4 & Hw4 & H).
  apply bind_ok_inv in H as ([] & fs5 & Hw5 & H).
  apply bind_ok_inv in H as (files & fs6 & Hfiles & Hloop).
  injection Hfiles as <- <-.
  assert (Hp : forall f, bool_decide (f <> py "..") = true -> plain (out_dir ++ [f]))
    by (intros; by apply theme_name_plain).
  assert (Hn : forall f, bool_decide (slash ∉ f) = true ->
                         Forall (fun c => slash ∉ c) (out_dir ++ [f]))
    by (intros; by apply theme_name_ok).
  assert (Hok5 : names_ok fs5).
  { eapply write_file_names; [|exact Hw5| |]; [by apply Hp|by apply Hn|].
    eapply write_file_names; [|exact Hw4| |]; [by apply Hp|by apply Hn|].
    eapply write_file_names; [|exact Hw3| |]; [by apply Hp|by apply Hn|].
    eapply write_file_names; [|exact Hw2| |]; [by apply Hp|by apply Hn|].
    eapply write_file_names; [|exact Hw1| |]; [by apply Hp|by apply Hn|].
    done. }
  assert (Hfiles : forall file, file ∈ glob_html E fs5 site_dir ->
            exists name, file = site_dir ++ [name] /\ (slash ∉ name)
                         /\ endswith name (py ".html") = true).
  { intros file. by apply glob_html_names. }
  assert (Hend : forall f b,
            endswith f (py ".html") = false -> plain (out_dir ++ [f]) ->
            holds fs5 (out_dir ++ [f]) b ->
            (read_bytes (out_dir ++ [f]) fs').1 = Ok b).
  { intros f b Hf Hpf Hh. apply holds_read; [done|].
    pose proof (copy_pages_holds site_dir out_dir _ fs5 f b Hout Hfiles Hf Hh) as Hc.
    by rewrite Hloop in Hc. }
  destruct (write_file_inv E _ _ _ _ (Hp (py "style.css") eq_refl) Hw1)
    as (b1 & He1 & Hh1 & _).
  destruct (write_file_inv E _ _ _ _ (Hp (py "functions.php") eq_refl) Hw2)
    as (b2 & He2 & Hh2 & _).
  destruct (write_file_inv E _ _ _ _ (Hp (py "header.php") eq_refl) Hw3)
    as (b3 & He3 & Hh3 & _).
  destruct (write_file_inv E _ _ _ _ (Hp (py "footer.php") eq_refl) Hw4)
    as (b4 & He4 & Hh4 & _).
  destruct (write_file_inv E _ _ _ _ (Hp (py "index.php") eq_refl) Hw5)
    as (b5 & He5 & Hh5 & _).
  assert (Hkeep : forall f g c fsa fsb b,
            bool_decide (f <> g) = true -> bool_decide (g <> py "..") = true ->
            write_file E (out_dir ++ [g]) c fsa = (Ok tt, fsb) ->
            holds fsa (out_dir ++ [f]) b -> holds fsb (out_dir ++ [f]) b).
  { intros f g c fsa fsb b Hfg Hg Hw. eapply write_file_holds; [|exact Hw|].
    - by apply Hp.
    - by apply theme_name_ne. }
  repeat split.
  - exists b1. split; [done|]. apply Hend; [done|by apply Hp|].
    eapply Hkeep; [| |exact Hw5|]; [done..|].
    eapply Hkeep; [| |exact Hw4|]; [done..|].
    eapply Hkeep; [| |exact Hw3|]; [done..|].
    eapply Hkeep; [| |exact Hw2|]; [done..|]. done.
  - exists b2. split; [done|]. apply Hend; [done|by apply Hp|].
    eapply Hkeep; [| |exact Hw5|]; [done..|].
    eapply Hkeep; [| |exact Hw4|]; [done..|].
    eapply Hkeep; [| |exact Hw3|]; [done..|]. done.
  - exists b3. split; [done|]. apply Hend; [done|by apply Hp|].
    eapply Hkeep; [| |exact Hw5|]; [done..|].
    eapply Hkeep; [| |exact Hw4|]; [done..|]. done.
  - exists b4. split; [done|]. apply Hend; [done|by apply Hp|].
    eapply Hkeep; [| |exact Hw5|]; [done..|]. done.
  - exists b5. split; [done|]. apply Hend; [done|by apply Hp|]. done.
Qed.

End ThemeWritten.

(** X16. Let the output folder be a path without [..] whose components,
    like those of every path in the file system, hold no slash, and let the
    listing of the site folder name only entries that are there. When
    [emit_theme], the part of [generate_theme] that follows the
    normalization of the mapping, returns, the output folder holds the five
    files of the theme, each with the encoding of its template filled with
    the fragments of the document: copying the other pages of the site
    overwrites none of them. *)
Theorem emit_theme_files (E : collaborators) (soup : node) (mapping : dict)
    (site_dir out_dir : path) (fs : FS) :
  plain site_dir -> plain out_dir ->
  Forall (fun c => slash ∉ c) out_dir -> names_ok fs ->
  (forall l name, name ∈ glob_order E l -> name ∈ l) ->
  (emit_theme E soup mapping site_dir out_dir fs).1 = Ok tt ->
  let fs' := (emit_theme E soup mapping site_dir out_dir fs).2 in
  exists head_html,
    (head_part E soup mapping fs).1 = Ok head_html
    /\ written E fs' (out_dir ++ [py "style.css"]) style_css
    /\ written E fs' (out_dir ++ [py "functions.php"]) (functions_php mapping)
    /\ written E fs' (out_dir ++ [py "header.php"])
         (header_php head_html (fragments soup mapping).1.1)
    /\ written E fs' (out_dir ++ [py "footer.php"])
         (footer_php (fragments soup mapping).2)
    /\ written E fs' (out_dir ++ [py "index.php"])
         (index_php (fragments soup mapping).1.2).
Proof.
  intros Hsite Hout Hslash Hok Hglob Hrun fs'. subst fs'.
  destruct (emit_theme E soup mapping site_dir out_dir fs) as [r fs'] eqn:Hemit.
  simpl in Hrun. subst r. unfold emit_theme in Hemit.
  apply bind_ok_inv in Hemit as (head_html & fs0 & Hhead & Hrest).
  pose proof (head_part_state E soup mapping fs) as Hst.
  rewrite Hhead in Hst. simpl in Hst. subst fs0.
  exists head_html. split; [by rewrite Hhead|]. simpl.
  unfold fragments.
  destruct (find (py "body") soup) as [body|];
    apply (theme_files_written E Hglob _ _ _ _ _ site_dir out_dir fs fs'
             Hsite Hout Hslash Hok Hrest).
Qed.

Lemma emit_theme_files_witness :
  let doc :=
    Tag (py "[document]") []
      [Tag (py "html") []
         [Tag (py "head") [] [Tag (py "title") [] [NavigableString Text (py "T")]];
          Tag (py "body") [] [Tag (py "main") [] [NavigableString Text (py "M")]]]] in
  let E := example_collaborators doc in
  let fs : FS := {[ [py "site"] := Dir;
                    [py "site"; py "index.html"] := File (py "x");
                    [py "site"; py "about.html"] := File (py "y") ]} in
  let fs' := (emit_theme E doc [] [py "site"] [py "site"; py "rmk-theme"] fs).2 in
  written E fs' [py "site"; py "rmk-theme"; py "index.php"]
    (index_php (py "<main>M</main>"))
  /\ (read_bytes [py "site"; py "rmk-theme"; py "about.html"] fs').1 = Ok (py "y").
Proof.
  cbv zeta. split; [|by vm_compute].
  destruct (emit_theme_files
    (example_collaborators
       (Tag (py "[document]") []
          [Tag (py "html") []
             [Tag (py "head") [] [Tag (py "title") [] [NavigableString Text (py "T")]];
              Tag (py "body") [] [Tag (py "main") [] [NavigableString Text (py "M")]]]]))
    (Tag (py "[document]") []
       [Tag (py "html") []
          [Tag (py "head") [] [Tag (py "title") [] [NavigableString Text (py "T")]];
           Tag (py "body") [] [Tag (py "main") [] [NavigableString Text (py "M")]]]])
    [] [py "site"] [py "site"; py "rmk-theme"]
    {[ [py "site"] := Dir;
       [py "site"; py "index.html"] := File (py "x");
       [py "site"; py "about.html"] := File (py "y") ]})
    as (head_html & _ & _ & _ & _ & _ & H).
  - repeat constructor; by vm_compute.
  - repeat constructor; by vm_compute.
  - repeat constructor; apply (bool_decide_unpack _); by vm_compute.
  - apply (bool_decide_unpack _). by vm_compute.
  - done.
  - by vm_compute.
  - exact H.
Defined.

(** ** Where the converter writes *)

Lemma touches_refl (P : path -> Prop) (fs : FS) : touches P fs fs.
Proof. by intros x _. Qed.

Lemma touches_trans (P : path -> Prop) (fs1 fs2 fs3 : FS) :
  touches P fs1 fs2 -> touches P fs2 fs3 -> touches P fs1 fs3.
Proof. intros H12 H23 x Hx. by rewrite H23, H12. Qed.

Lemma touches_weaken (P Q : path -> Prop) (fs fs' : FS) :
  (forall x, P x -> Q x) -> touches P fs fs' -> touches Q fs fs'.
Proof. intros HPQ H x Hx. apply H. auto. Qed.

Lemma bind_touches {A B} (P : path -> Prop) (m : M A) (f : A -> M B) (fs : FS) :
  touches P fs (m fs).2 -> (forall a fs1, touches P fs1 (f a fs1).2) ->
  touches P fs ((m ≫= f) fs).2.
Proof.
  intros Hm Hf. rewrite bind_unfold. destruct (m fs) as [[a|e] fs1]; [|done].
  eapply touches_trans; [exact Hm|apply Hf].
Qed.

Lemma touches_names_ok (P : path -> Prop) (fs fs' : FS) :
  touches P fs fs' -> (forall x, P x -> Forall (fun c => slash ∉ c) x) ->
  names_ok fs -> names_ok fs'.
Proof.
  intros Ht HP Hok x e Hx.
  destruct (Forall_dec (fun c : str => slash ∉ c) x) as [|Hn]; [done|].
  assert (Hnp : ~ P x) by (intros Hp; by apply Hn, HP).
  rewrite (Ht x Hnp) in Hx. by destruct (Hn (Hok x e Hx)).
Qed.

Lemma insert_touches (fs : FS) (r : path) (e : entry) :
  touches (eq r) fs (<[r := e]> fs).
Proof. intros x Hx. by rewrite lookup_insert_ne. Qed.

Lemma os_mkdir_touches (p : path) (fs : FS) :
  plain p -> touches (eq p) fs (os_mkdir p fs).2.
Proof.
  intros Hp. unfold os_mkdir.
  destruct (resolve fs p) as [|r] eqn:Hr; [apply touches_refl|].
  apply resolve_plain_inv in Hr as [-> _]; [|done].
  destruct (fs_get fs p); [apply touches_refl|apply insert_touches].
Qed.

Lemma mkdir_parents_from_touches (n : nat) (p : path) (fs : FS) :
  plain p -> touches (fun x => x `prefix_of` p) fs (mkdir_parents_from n p fs).2.
Proof.
  revert p fs. induction n as [|n IH]; intros p fs Hp;
    rewrite mkdir_parents_from_eq;
    pose proof (touches_weaken (eq p) (fun x => x `prefix_of` p) _ _
                  ltac:(by intros ? <-) (os_mkdir_touches p fs Hp)) as H0;
    destruct (os_mkdir p fs) as [[[]|err] fs0]; simpl in H0; try done.
  - destruct err; try (destruct (is_dir fs p)); apply touches_refl.
  - destruct err; try (destruct (is_dir fs p); apply touches_refl).
    case_bool_decide; [apply touches_refl|].
    pose proof (touches_weaken _ (fun x => x `prefix_of` p) _ _
                  (fun x => prefix_removelast x p)
                  (IH (removelast p) fs (plain_removelast _ Hp))) as H1.
    destruct (mkdir_parents_from n (removelast p) fs) as [[[]|err] fs1];
      simpl in H1; [|done].
    pose proof (touches_weaken (eq p) (fun x => x `prefix_of` p) _ _
                  ltac:(by intros ? <-) (os_mkdir_touches p fs1 Hp)) as H2.
    destruct (os_mkdir p fs1) as [[[]|err] fs2]; simpl in H2.
    + by eapply touches_trans.
    + destruct err; try (destruct (is_dir fs1 p)); done.
Qed.

Lemma write_bytes_touches (p : path) (content : list N) (fs : FS) :
  plain p -> touches (eq p) fs (write_bytes p content fs).2.
Proof.
  intros Hp. unfold write_bytes.
  destruct (resolve fs p) as [|r] eqn:Hr; [apply touches_refl|].
  apply resolve_plain_inv in Hr as [-> _]; [|done].
  destruct (fs_get fs p) as [[|]|]; try apply touches_refl; apply insert_touches.
Qed.

Lemma copy2_touches (src dst : path) (fs : FS) :
  plain dst -> plain (dst ++ [path_name src]) ->
  touches (fun x => x = dst \/ x = dst ++ [path_name src]) fs (copy2 src dst fs).2.
Proof.
  intros Hp1 Hp2. unfold copy2.
  set (target := if is_dir fs dst then _ else dst).
  assert (Ht : plain target /\ (target = dst \/ target = dst ++ [path_name src])).
  { unfold target. destruct (is_dir fs dst); [|by auto]. destruct src; by auto. }
  destruct Ht as [Hpt Htarget].
  destruct (samefile fs src target); [apply touches_refl|]. rewrite bind_unfold.
  pose proof (read_bytes_state src fs) as Hr.
  destruct (read_bytes src fs) as [[content|err] fs1]; simpl in Hr; subst fs1;
    [|apply touches_refl].
  eapply touches_weaken; [|by apply write_bytes_touches].
  intros x <-. by destruct Htarget; auto.
Qed.

Lemma plain_path_name (p : path) : plain p -> path_name p <> py "..".
Proof.
  intros Hp. unfold path_name. destruct p as [|c d _] using rev_ind; [done|].
  rewrite List.last_last. apply plain_app in Hp as [_ Hc].
  by apply (proj1 (Forall_singleton _ _)) in Hc.
Qed.

Lemma slash_free_path_name (p : path) :
  Forall (fun c => slash ∉ c) p -> slash ∉ path_name p.
Proof.
  intros Hp. unfold path_name. destruct p as [|c d _] using rev_ind.
  - simpl. apply not_elem_of_nil.
  - rewrite List.last_last. apply Forall_app in Hp as [_ Hc].
    by apply (proj1 (Forall_singleton _ _)) in Hc.
Qed.

Lemma relative_to_suffix (p base rel : path) :
  relative_to p base = Some rel -> p = base ++ rel.
Proof.
  revert p. induction base as [|b base IH]; intros p.
  - destruct p; by intros [= <-].
  - destruct p as [|c p]; [done|]. simpl.
    destruct (str_eqb b c) eqn:E; [|done]. apply str_eqb_eq in E as ->.
    intros H%IH. by rewrite H.
Qed.

(** The relative path of an asset keeps what holds of all its components. *)
Lemma asset_rel_Forall (P : str -> Prop) (asset site_dir : path) :
  Forall P asset -> (forall c, P c -> slash ∉ c) ->
  Forall P (asset_rel asset site_dir).
Proof.
  intros Ha Hslash. unfold asset_rel.
  destruct (relative_to asset site_dir) as [rel|] eqn:E.
  - apply relative_to_suffix in E as ->. by apply Forall_app in Ha as [_ ?].
  - unfold path_name, PurePath.parts.
    destruct asset as [|c d _] using rev_ind; [by vm_compute|].
    rewrite List.last_last. apply Forall_app in Ha as [_ Hc].
    apply (proj1 (Forall_singleton _ _)) in Hc.
    rewrite split_slash_plain by auto. simpl.
    destruct (PurePath.is_part c); by repeat constructor.
Qed.

Lemma copy_asset_touches (site_dir dest : path) (mapping : dict) (asset : path)
    (fs : FS) :
  plain dest -> Forall (fun c => c <> py ".." /\ slash ∉ c) asset ->
  touches (fun x => x `prefix_of`
                      dest ++ asset_rel asset site_dir ++ [path_name asset])
          fs (copy_asset site_dir dest mapping asset fs).2.
Proof.
  intros Hdest Hasset. unfold copy_asset.
  pose proof (asset_rel_Forall _ asset site_dir Hasset ltac:(by intros ? [_ ?]))
    as Hrel.
  set (rel := asset_rel asset site_dir) in *.
  assert (Hprel : plain rel).
  { eapply Forall_impl; [exact Hrel|]. by intros ? [? _]. }
  assert (Hpa : plain asset).
  { eapply Forall_impl; [exact Hasset|]. by intros ? [? _]. }
  assert (Hpd : plain (dest ++ rel)) by by apply plain_app.
  assert (Hpn : plain ((dest ++ rel) ++ [path_name asset])).
  { apply plain_app. split; [done|]. apply Forall_singleton.
    by apply plain_path_name. }
  apply bind_touches.
  { eapply touches_weaken; [|apply mkdir_parents_from_touches].
    - intros x Hx%prefix_removelast. rewrite app_assoc. by apply prefix_app_r.
    - by apply plain_removelast. }
  intros _ fs1. apply bind_touches.
  { eapply touches_weaken; [|by apply copy2_touches].
    intros x [->| ->]; rewrite app_assoc; [by apply prefix_app_r|done]. }
  intros _ fs2. destruct (relative_to _ _); apply touches_refl.
Qed.

Lemma bind_touches_ok {A B} (P : path -> Prop) (m : M A) (f : A -> M B)
    (fs : FS) :
  touches P fs (m fs).2 ->
  (forall a fs1, m fs = (Ok a, fs1) -> touches P fs1 (f a fs1).2) ->
  touches P fs ((m ≫= f) fs).2.
Proof.
  intros Hm Hf. rewrite bind_unfold. destruct (m fs) as [[a|e] fs1] eqn:E; [|done].
  eapply touches_trans; [exact Hm|by apply Hf].
Qed.

Lemma foldM_touches {A B} (P : path -> Prop) (f : B -> A -> M B) (l : list A)
    (b : B) (fs : FS) :
  (forall b a fs1, a ∈ l -> touches P fs1 (f b a fs1).2) ->
  touches P fs (foldM f l b fs).2.
Proof.
  revert b fs. induction l as [|x l IH]; intros b fs Hf; [apply touches_refl|].
  simpl. apply bind_touches; [apply Hf, list_elem_of_here|].
  intros b1 fs1. apply IH. intros b2 a fs2 Ha. apply Hf. by apply list_elem_of_further.
Qed.

Lemma along_prefix (out_dir p x : path) :
  out_dir `prefix_of` p -> x `prefix_of` p -> along out_dir x.
Proof. intros Ho Hx. destruct (prefix_weak_total _ _ _ Hx Ho); [by left|by right]. Qed.

Lemma along_under (out_dir k x : path) : along (out_dir ++ k) x -> along out_dir x.
Proof.
  intros [H|H].
  - apply (along_prefix _ (out_dir ++ k)); [by apply prefix_app_r|done].
  - right. etrans; [|exact H]. by apply prefix_app_r.
Qed.

Lemma copy_assets_touches (assets : list path) (site_dir dest : path) (fs : FS) :
  plain dest ->
  (forall asset, asset ∈ assets ->
     Forall (fun c => c <> py ".." /\ slash ∉ c) asset) ->
  touches (along dest) fs (copy_assets assets site_dir dest fs).2.
Proof.
  intros Hdest Hall. apply foldM_touches. intros mapping asset fs1 Hin.
  eapply touches_weaken; [|apply copy_asset_touches; [done|by apply Hall]].
  intros x Hx. apply (along_prefix _ _ _ (prefix_app_r _ _ _ (reflexivity _)) Hx).
Qed.

Lemma copy_assets_names_ok (assets : list path) (site_dir dest : path)
    (fs : FS) :
  plain dest -> Forall (fun c => slash ∉ c) dest ->
  (forall asset, asset ∈ assets ->
     Forall (fun c => c <> py ".." /\ slash ∉ c) asset) ->
  names_ok fs -> names_ok (copy_assets assets site_dir dest fs).2.
Proof.
  intros Hpd Hfd. unfold copy_assets. generalize ([] : dict). revert fs.
  induction assets as [|a assets IH]; intros fs mapping Hassets Hok; [done|].
  simpl. rewrite bind_unfold.
  pose proof (Hassets a (list_elem_of_here _ _)) as Ha.
  pose proof (copy_asset_touches site_dir dest mapping a fs Hpd Ha) as Hstep.
  assert (Hok' : names_ok (copy_asset site_dir dest mapping a fs).2).
  { apply (touches_names_ok _ _ _ Hstep); [|done].
    intros x [k Hk].
    assert (Hfull : Forall (fun c => slash ∉ c)
              (dest ++ asset_rel a site_dir ++ [path_name a])).
    { apply Forall_app. split; [done|]. apply Forall_app. split.
      - eapply Forall_impl; [apply (asset_rel_Forall _ a site_dir Ha)|];
          by intros ? [_ ?].
      - apply Forall_singleton, slash_free_path_name.
        eapply Forall_impl; [exact Ha|]. by intros ? [_ ?]. }
    rewrite Hk in Hfull. by apply Forall_app in Hfull as [? _]. }
  destruct (copy_asset site_dir dest mapping a fs) as [[m1|e] fs1]; [|done].
  apply IH; [|done]. intros asset Hin. apply Hassets. by apply list_elem_of_further.
Qed.

(** X17. [copy_assets] writes under the destination root only: when no
    asset has a [..] component (nor a slash inside a component), every entry
    of the file system at a path that is neither under the destination root
    nor on the way to it is after the call what it was before, whether the
    call returns or raises. *)
Theorem copy_assets_confined (assets : list path) (site_dir dest : path)
    (fs : FS) (x : path) :
  plain dest ->
  (forall asset, asset ∈ assets ->
     Forall (fun c => c <> py ".." /\ slash ∉ c) asset) ->
  ~ along dest x ->
  (copy_assets assets site_dir dest fs).2 !! x = fs !! x.
Proof. intros Hdest Hall Hx. by apply copy_assets_touches. Qed.

Lemma copy_assets_confined_witness :
  let fs : FS := {[ [py "site"] := Dir;
                    [py "site"; py "a.css"] := File [1; 2; 3];
                    [py "out"] := Dir ]} in
  (copy_assets [[py "site"; py "a.css"]] [py "site"] [py "out"; py "assets"] fs).2
    !! [py "site"; py "a.css"]
  = fs !! [py "site"; py "a.css"].
Proof.
  cbv zeta. apply copy_assets_confined.
  - repeat constructor; by vm_compute.
  - intros asset ->%list_elem_of_singleton.
    repeat constructor; try (by vm_compute); apply (bool_decide_unpack _);
      by vm_compute.
  - intros [H|H]; revert H; apply (bool_decide_eq_false_1 _); by vm_compute.
Defined.

Lemma split_slash_free (s : str) : Forall (fun c => slash ∉ c) (split_slash s).
Proof.
  induction s as [|c s IH]; simpl.
  - repeat constructor. apply not_elem_of_nil.
  - destruct (N.eqb_spec c slash) as [->|Hc].
    + constructor; [apply not_elem_of_nil|done].
    + destruct (split_slash s) as [|w ws]; [repeat constructor|].
      * by apply not_elem_of_cons; split; [|apply not_elem_of_nil].
      * inversion IH; subst. constructor; [|done].
        by apply not_elem_of_cons.
Qed.

Lemma parts_free (s : str) : Forall (fun c => slash ∉ c) (PurePath.parts s).
Proof.
  unfold PurePath.parts. apply List.Forall_forall. intros c Hc%filter_In.
  destruct Hc as [Hc _]. revert c Hc. apply List.Forall_forall, split_slash_free.
Qed.

Lemma collected_free (soup : node) (site_dir : path) (fs : FS) (p : path) :
  Forall (fun c => slash ∉ c) site_dir ->
  p ∈ collect_local_assets soup site_dir fs ->
  Forall (fun c => slash ∉ c) p.
Proof.
  intros Hsite (tag & attr & val & _ & _ & _ & ->)%collect_elem.
  rewrite joinpath_cleaned. apply Forall_app. split; [done|apply parts_free].
Qed.

Section Confined.
Variable E : collaborators.
Hypothesis Hglob : forall l name, name ∈ glob_order E l -> name ∈ l.

Lemma write_file_touches (p : path) (content : str) (fs : FS) :
  plain p -> touches (fun x => x `prefix_of` p) fs (write_file E p content fs).2.
Proof.
  intros Hp. unfold write_file. apply bind_touches.
  { eapply touches_weaken; [|apply mkdir_parents_from_touches].
    - intros x. apply prefix_removelast.
    - by apply plain_removelast. }
  intros _ fs1.
  assert (Hw : forall b fs2, touches (fun x => x `prefix_of` p) fs2
                               (write_bytes p b fs2).2).
  { intros b fs2. eapply touches_weaken; [|by apply write_bytes_touches].
    by intros x <-. }
  destruct (utf8_encode E content); [apply Hw|].
  apply bind_touches; [apply Hw|]. intros; apply touches_refl.
Qed.

Lemma emit_theme_touches (soup : node) (mapping : dict) (site_dir out_dir : path)
    (fs : FS) :
  plain site_dir -> plain out_dir ->
  Forall (fun c => slash ∉ c) out_dir -> names_ok fs ->
  touches (along out_dir) fs (emit_theme E soup mapping site_dir out_dir fs).2.
Proof.
  intros Hsite Hout Hslash Hok. unfold emit_theme.
  apply bind_touches_ok.
  { rewrite head_part_state. apply touches_refl. }
  intros head_html fs0 Hhead.
  pose proof (head_part_state E soup mapping fs) as Hst.
  rewrite Hhead in Hst. simpl in Hst. subst fs0.
  destruct (match find (py "body") soup with Some _ => _ | None => _ end)
    as [[header_html main_html] footer_html].
  assert (Hp : forall f, bool_decide (f <> py "..") = true -> plain (out_dir ++ [f]))
    by (intros; by apply theme_name_plain).
  assert (Hn : forall f, bool_decide (slash ∉ f) = true ->
                         Forall (fun c => slash ∉ c) (out_dir ++ [f]))
    by (intros; by apply theme_name_ok).
  assert (Hw : forall f c fsa, bool_decide (f <> py "..") = true ->
            touches (along out_dir) fsa (write_file E (out_dir ++ [f]) c fsa).2).
  { intros f c fsa Hf. eapply touches_weaken; [|apply write_file_touches, Hp, Hf].
    intros x. apply along_prefix. by apply prefix_app_r. }
  assert (Hk : forall f c fsa fsb,
            bool_decide (f <> py "..") = true -> bool_decide (slash ∉ f) = true ->
            write_file E (out_dir ++ [f]) c fsa = (Ok tt, fsb) ->
            names_ok fsa -> names_ok fsb).
  { intros f c fsa fsb Hf1 Hf2 Hwr. by eapply write_file_names; [apply Hp| |apply Hn]. }
  apply bind_touches_ok; [by apply Hw|]. intros [] fs1 Hw1.
  apply bind_touches_ok; [by apply Hw|]. intros [] fs2 Hw2.
  apply bind_touches_ok; [by apply Hw|]. intros [] fs3 Hw3.
  apply bind_touches_ok; [by apply Hw|]. intros [] fs4 Hw4.
  apply bind_touches_ok; [by apply Hw|]. intros [] fs5 Hw5.
  assert (Hok5 : names_ok fs5).
  { eapply Hk; [| |exact Hw5|]; [done..|].
    eapply Hk; [| |exact Hw4|]; [done..|].
    eapply Hk; [| |exact Hw3|]; [done..|].
    eapply Hk; [| |exact Hw2|]; [done..|].
    eapply Hk; [| |exact Hw1|]; [done..|]. done. }
  apply bind_touches_ok; [apply touches_refl|]. intros files fs6 [= <- <-].
  apply foldM_touches. intros [] file fsa Hfile.
  destruct (glob_html_names E Hglob _ _ _ Hok5 Hsite Hfile)
    as (name & -> & Hfree & Hend).
  assert (Hname : path_name (site_dir ++ [name]) = name).
  { unfold path_name. apply List.last_last. }
  rewrite Hname. destruct (str_eqb name _); [apply touches_refl|].
  destruct (html_name_path out_dir name Hfree Hend) as (-> & Hdd & Hne).
  eapply touches_weaken; [|apply copy2_touches]; rewrite ?Hname.
  - intros x [->| ->]; right; [by apply prefix_app_r|].
    rewrite <- app_assoc. by apply prefix_app_r.
  - apply plain_app. split; [done|]. by apply Forall_singleton.
  - rewrite <- app_assoc. apply plain_app. split; [done|]. by repeat constructor.
Qed.

Hypothesis Hset : forall l asset, asset ∈ set_order E l -> asset ∈ l.
Hypothesis Hnpm : npm_path E = None.
Hypothesis Hnpx : npx_path E = None.

Lemma node_build_skipped (site_dir : path) (fs : FS) :
  node_build E site_dir fs = (Ok tt, fs).
Proof.
  unfold node_build. rewrite Hnpm, Hnpx. by destruct (path_exists fs _).
Qed.

Lemma load_site_touches (site_dir out_dir : path) (fs : FS) :
  plain site_dir -> plain out_dir ->
  Forall (fun c => slash ∉ c) site_dir -> Forall (fun c => slash ∉ c) out_dir ->
  names_ok fs ->
  (forall content soup,
     fs !! (site_dir ++ [py "index.html"]) = Some (File content) ->
     document_of E content = Some soup -> no_climb soup) ->
  touches (along out_dir) fs (load_site E site_dir out_dir fs).2
  /\ names_ok (load_site E site_dir out_dir fs).2.
Proof.
  intros Hsite Hout Hsfree Hofree Hok Hdoc. unfold load_site.
  rewrite bind_unfold.
  change (gets (fun fs0 => path_exists fs0 (site_dir ++ [py "index.html"])) fs)
    with (Ok (path_exists fs (site_dir ++ [py "index.html"])), fs).
  destruct (path_exists fs (site_dir ++ [py "index.html"])); cbn [negb];
    [|split; [exact (touches_refl _ fs)|exact Hok]].
  rewrite bind_unfold.
  assert (Hrt : (read_text E (site_dir ++ [py "index.html"]) fs).2 = fs
                /\ forall text,
                     (read_text E (site_dir ++ [py "index.html"]) fs).1 = Ok text ->
                     no_climb (remove_comments (html_parser E text))).
  { unfold read_text. rewrite bind_unfold.
    pose proof (read_bytes_state (site_dir ++ [py "index.html"]) fs) as Hr.
    destruct (read_bytes _ fs) as [[content|e] fs1] eqn:Hrb; simpl in Hr;
      subst fs1; [|done].
    apply read_bytes_plain in Hrb as [_ Hget];
      [|apply Forall_app; split; [done|by repeat constructor]].
    assert (Hl : fs !! (site_dir ++ [py "index.html"]) = Some (File content)).
    { revert Hget. by destruct site_dir. }
    destruct (utf8_decode E content) as [text0|] eqn:Hdec; [|done].
    split; [done|]. intros text [= <-].
    apply (Hdoc content _ Hl). unfold document_of. by rewrite Hdec. }
  destruct Hrt as [Hrt Hsoup].
  destruct (read_text E _ fs) as [[text|e] fs0]; simpl in Hrt; subst fs0;
    [|by split; [apply touches_refl|]].
  specialize (Hsoup text eq_refl).
  set (soup := remove_comments (html_parser E text)) in *.
  set (dest := out_dir ++ [py "assets"]).
  assert (Hpd : plain dest) by by apply theme_name_plain.
  assert (Hfd : Forall (fun c => slash ∉ c) dest) by by apply theme_name_ok.
  rewrite bind_unfold.
  pose proof (mkdir_parents_from_touches (length dest) dest fs Hpd) as Hmk.
  change (mkdir_parents_from (length dest) dest fs) with (mkdir_parents dest fs) in Hmk.
  assert (Hok1 : names_ok (mkdir_parents dest fs).2).
  { apply (touches_names_ok _ _ _ Hmk); [|done].
    intros x [k Hk]. rewrite Hk in Hfd. by apply Forall_app in Hfd as [? _]. }
  destruct (mkdir_parents dest fs) as [[[]|e] fs1]; simpl in Hmk, Hok1.
  2:{ split; [|done]. eapply touches_weaken; [|exact Hmk].
      intros x Hx. apply (along_prefix _ dest); [by apply prefix_app_r|done]. }
  assert (Hmk' : touches (along out_dir) fs fs1).
  { eapply touches_weaken; [|exact Hmk].
    intros x Hx. apply (along_prefix _ dest); [by apply prefix_app_r|done]. }
  rewrite bind_unfold, node_build_skipped. rewrite bind_unfold. unfold gets.
  set (assets := set_order E (collect_local_assets soup site_dir fs1)).
  assert (Hassets : forall asset, asset ∈ assets ->
            Forall (fun c => c <> py ".." /\ slash ∉ c) asset).
  { intros asset Hin%Hset. apply Forall_and. split.
    - apply collect_elem in Hin
        as (tag & attr & val & Ht & Ha & (Hattr & Hrem & Hext & _) & ->).
      rewrite joinpath_cleaned. apply Forall_app. split; [done|].
      apply Forall_forall. intros c Hc ->.
      by apply (Hsoup tag attr val).
    - by apply (collected_free soup site_dir fs1). }
  rewrite bind_unfold.
  pose proof (copy_assets_touches assets site_dir dest fs1 Hpd Hassets) as Hcp.
  pose proof (copy_assets_names_ok assets site_dir dest fs1 Hpd Hfd Hassets Hok1)
    as Hok2.
  destruct (copy_assets assets site_dir dest fs1) as [[mapping|e] fs2];
    simpl in Hcp, Hok2; (split; [|done]);
    (eapply touches_trans; [exact Hmk'|]);
    (eapply touches_weaken; [|exact Hcp]); intros x; apply along_under.
Qed.

End Confined.

Lemma generate_theme_touches (E : collaborators) (site_dir out_dir : path)
    (fs : FS) :
  plain site_dir -> plain out_dir ->
  Forall (fun c => slash ∉ c) site_dir -> Forall (fun c => slash ∉ c) out_dir ->
  names_ok fs ->
  (forall l name, name ∈ glob_order E l -> name ∈ l) ->
  (forall l asset, asset ∈ set_order E l -> asset ∈ l) ->
  npm_path E = None -> npx_path E = None ->
  (forall content soup,
     fs !! (site_dir ++ [py "index.html"]) = Some (File content) ->
     document_of E content = Some soup -> no_climb soup) ->
  touches (along out_dir) fs (generate_theme E site_dir out_dir fs).2.
Proof.
  intros Hsite Hout Hsfree Hofree Hok Hglob Hset Hnpm Hnpx Hdoc.
  unfold generate_theme. rewrite bind_unfold.
  destruct (load_site_touches E Hset Hnpm Hnpx site_dir out_dir fs
              Hsite Hout Hsfree Hofree Hok Hdoc) as [Hload Hok1].
  destruct (load_site E site_dir out_dir fs) as [[[soup mapping]|e] fs1];
    simpl in Hload, Hok1; [|done].
  eapply touches_trans; [exact Hload|]. by apply emit_theme_touches.
Qed.

Lemma rmtree_touches (p : path) (fs : FS) :
  plain p -> touches (along p) fs (rmtree p fs).2.
Proof.
  intros Hp. unfold rmtree.
  destruct (resolve fs p) as [|r] eqn:Hr; [apply touches_refl|].
  apply resolve_plain_inv in Hr as [-> _]; [|done].
  destruct (fs_get fs p) as [[|]|]; try apply touches_refl.
  intros x Hx. simpl. destruct (fs !! x) as [e|] eqn:E.
  - apply map_lookup_filter_Some. split; [done|]. simpl.
    rewrite (bool_decide_eq_false_2 (p `prefix_of` x)); [done|].
    intros H. apply Hx. by right.
  - apply map_lookup_filter_None. by left.
Qed.

Lemma rmtree_names_ok (p : path) (fs : FS) :
  names_ok fs -> names_ok (rmtree p fs).2.
Proof.
  intros Hok. destruct (rmtree p fs) as [r fs'] eqn:E.
  apply rmtree_subseteq in E. simpl. intros x e Hx.
  by apply (Hok x e), (lookup_weaken fs').
Qed.

(** X18. [generate_theme] writes under the output folder only. Let the
    site folder and the output folder be paths without [..], let no
    component of either and of a path in the file system hold a slash, let
    there be no Node tool to run, and let no local asset reference of the
    document that the site's [index.html] holds climb with [..]. Then every
    entry at a path that is neither under the output folder nor on the way
    to it is after the conversion what it was before, whether the conversion
    returns or raises: the site itself is left as it was. *)
Theorem generate_theme_confined (E : collaborators) (site_dir out_dir : path)
    (fs : FS) (x : path) :
  plain site_dir -> plain out_dir ->
  Forall (fun c => slash ∉ c) site_dir -> Forall (fun c => slash ∉ c) out_dir ->
  names_ok fs ->
  (forall l name, name ∈ glob_order E l -> name ∈ l) ->
  (forall l asset, asset ∈ set_order E l -> asset ∈ l) ->
  npm_path E = None -> npx_path E = None ->
  (forall content soup,
     fs !! (site_dir ++ [py "index.html"]) = Some (File content) ->
     document_of E content = Some soup -> no_climb soup) ->
  ~ along out_dir x ->
  (generate_theme E site_dir out_dir fs).2 !! x = fs !! x.
Proof. intros. by apply generate_theme_touches. Qed.

Lemma generate_theme_confined_witness :
  let doc :=
    Tag (py "[document]") []
      [Tag (py "html") []
         [Tag (py "head") []
            [Tag (py "link") [(py "href", AttrStr (py "./css/a.css"))] []];
          Tag (py "body") [] [Tag (py "main") [] [NavigableString Text (py "M")]]]] in
  let fs : FS := {[ [py "site"] := Dir;
                    [py "site"; py "index.html"] := File (py "x");
                    [py "site"; py "css"] := Dir;
                    [py "site"; py "css"; py "a.css"] := File (py "y") ]} in
  (generate_theme (table_collaborators [(py "x", doc)]) [py "site"]
     [py "site"; py "rmk-theme"] fs).2 !! [py "site"; py "css"; py "a.css"]
  = fs !! [py "site"; py "css"; py "a.css"].
Proof.
  cbv zeta. apply generate_theme_confined; try done.
  - repeat constructor; by vm_compute.
  - repeat constructor; by vm_compute.
  - repeat constructor; apply (bool_decide_unpack _); by vm_compute.
  - repeat constructor; apply (bool_decide_unpack _); by vm_compute.
  - apply (bool_decide_unpack _). by vm_compute.
  - intros content soup Hl Hd. vm_compute in Hl. injection Hl as <-.
    vm_compute in Hd. injection Hd as <-.
    intros tag attr val Ht Ha Hattr _ _.
    match type of Ht with
    | _ ∈ ?l => let l' := eval vm_compute in l in change l with l' in Ht
    end.
    repeat match goal with
    | H : _ ∈ _ :: _ |- _ => apply elem_of_cons in H as [H|H]; [subst|]
    | H : _ ∈ [] |- _ => by apply elem_of_nil in H
    end; vm_compute in Hattr; try done;
      injection Hattr as <-; apply (bool_decide_unpack _); by vm_compute.
  - intros [H|H]; revert H; apply (bool_decide_eq_false_1 _); by vm_compute.
Defined.

(** X19. [main] writes under the output folder only, whatever the user
    answers. Let the site folder and the output folder be paths without
    [..], let no component of either and of a path in the file system hold a
    slash, let there be no Node tool to run, and let no local asset
    reference of the document that the site's [index.html] holds climb with
    [..]. Then removing an existing output folder and converting change no
    entry at a path that is neither under the output folder nor on the way
    to it. *)
Theorem main_confined (E : collaborators) (site_dir out_dir : path)
    (answer : str) (fs : FS) (x : path) :
  plain site_dir -> plain out_dir ->
  Forall (fun c => slash ∉ c) site_dir -> Forall (fun c => slash ∉ c) out_dir ->
  names_ok fs ->
  (forall l name, name ∈ glob_order E l -> name ∈ l) ->
  (forall l asset, asset ∈ set_order E l -> asset ∈ l) ->
  npm_path E = None -> npx_path E = None ->
  (forall content soup,
     fs !! (site_dir ++ [py "index.html"]) = Some (File content) ->
     document_of E content = Some soup -> no_climb soup) ->
  ~ along out_dir x ->
  (main E site_dir out_dir answer fs).2 !! x = fs !! x.
Proof.
  intros Hsite Hout Hsfree Hofree Hok Hglob Hset Hnpm Hnpx Hdoc.
  revert x.
  change (touches (along out_dir) fs (main E site_dir out_dir answer fs).2).
  unfold main. rewrite bind_unfold. unfold gets.
  destruct (path_exists fs out_dir); [|by apply generate_theme_touches].
  destruct (negb _); [apply touches_refl|].
  rewrite bind_unfold.
  pose proof (rmtree_touches out_dir fs Hout) as Hrm.
  pose proof (rmtree_names_ok out_dir fs Hok) as Hok1.
  destruct (rmtree out_dir fs) as [[[]|e] fs1] eqn:Hrmtree;
    simpl in Hrm, Hok1; [|done].
  eapply touches_trans; [exact Hrm|]. apply generate_theme_touches; try done.
  intros content soup Hl. apply Hdoc.
  by apply (lookup_weaken fs1 fs _ _ Hl), (rmtree_subseteq out_dir fs fs1 (Ok tt)).
Qed.

Lemma main_confined_witness :
  let doc :=
    Tag (py "[document]") []
      [Tag (py "html") []
         [Tag (py "head") []
            [Tag (py "link") [(py "href", AttrStr (py "./css/a.css"))] []];
          Tag (py "body") [] [Tag (py "main") [] [NavigableString Text (py "M")]]]] in
  let fs : FS := {[ [py "site"] := Dir;
                    [py "site"; py "index.html"] := File (py "x");
                    [py "site"; py "css"] := Dir;
                    [py "site"; py "css"; py "a.css"] := File (py "y");
                    [py "site"; py "rmk-theme"] := Dir;
                    [py "site"; py "rmk-theme"; py "old.php"] := File (py "z") ]} in
  (main (table_collaborators [(py "x", doc)]) [py "site"]
        [py "site"; py "rmk-theme"] (py "Y") fs).2 !! [py "site"; py "index.html"]
  = fs !! [py "site"; py "index.html"].
Proof.
  cbv zeta. apply main_confined; try done.
  - repeat constructor; by vm_compute.
  - repeat constructor; by vm_compute.
  - repeat constructor; apply (bool_decide_unpack _); by vm_compute.
  - repeat constructor; apply (bool_decide_unpack _); by vm_compute.
  - apply (bool_decide_unpack _). by vm_compute.
  - intros content soup Hl Hd. vm_compute in Hl. injection Hl as <-.
    vm_compute in Hd. injection Hd as <-.
    intros tag attr val Ht Ha Hattr _ _.
    match type of Ht with
    | _ ∈ ?l => let l' := eval vm_compute in l in change l with l' in Ht
    end.
    repeat match goal with
    | H : _ ∈ _ :: _ |- _ => apply elem_of_cons in H as [H|H]; [subst|]
    | H : _ ∈ [] |- _ => by apply elem_of_nil in H
    end; vm_compute in Hattr; try done;
      injection Hattr as <-; apply (bool_decide_unpack _); by vm_compute.
  - intros [H|H]; revert H; apply (bool_decide_eq_false_1 _); by vm_compute.
Defined.
